(** * Background price scanner: model and properties

    A shallow embedding of [src/app/api/background-scan/route.ts] (the
    orchestrator: product store with merge-on-save, notification decision
    engine, per-product retry loop and the [GET] scan handler) together with
    [utils/scannerState] and the [Product] type.

    Conventions of the embedding
    - a JavaScript [number] is an IEEE-754 binary64 value: Rocq's primitive
      [float], so [<], [<=], [===] and the arithmetic round as in the source;
    - an optional property ([x?: T]) is an [option]; [None] is [undefined];
    - time is a [Z] number of milliseconds, as [Date.now()] has it;
    - code that suspends on a timer or on the network lets other request
      handlers run: the [Env] record says what the outside world does
      (network replies with their latency, requests of other clients with
      their arrival time, failing disk writes). Code between two such
      suspensions runs without interruption, as on the JavaScript event loop. *)

From Stdlib Require Import ZArith List Bool Floats Ascii String Lia.
From stdpp Require Import gmap strings.
Import ListNotations.

Set Warnings "-inexact-float".

Local Open Scope string_scope.
Local Open Scope list_scope.
Local Open Scope Z_scope.

(* ===================================================================== *)
(** ** JavaScript values *)
(* ===================================================================== *)

Module Js.

(** [!x] for a number: [0], [-0] and [NaN] are falsy. *)
Definition truthy (x : float) : bool :=
  negb (PrimFloat.eqb x 0%float) && PrimFloat.eqb x x.

(** [!x] for an optional number. *)
Definition truthy_num (x : option float) : bool :=
  match x with Some v => truthy v | None => false end.

(** [!s] for an optional string: [undefined] and the empty string are falsy. *)
Definition truthy_str (s : option string) : bool :=
  match s with Some EmptyString => false | Some _ => true | None => false end.

(** [!b] for an optional boolean. *)
Definition truthy_bool (b : option bool) : bool :=
  match b with Some true => true | _ => false end.

(** [a === b] on optional numbers: [undefined === undefined], and IEEE
    equality on two numbers ([NaN] differs from itself, [0 === -0]). *)
Definition strict_eq (a b : option float) : bool :=
  match a, b with
  | None, None => true
  | Some x, Some y => PrimFloat.eqb x y
  | _, _ => false
  end.

(** [a > b], [a <= b], [a < b] with a possibly [undefined] left operand:
    [undefined] converts to [NaN] and every comparison is false. *)
Definition gt (a : option float) (b : float) : bool :=
  match a with Some x => PrimFloat.ltb b x | None => false end.
Definition le (a : option float) (b : float) : bool :=
  match a with Some x => PrimFloat.leb x b | None => false end.

(** [a || b] on optional numbers. *)
Definition or_num (a b : option float) : option float :=
  if truthy_num a then a else b.

(** [String.prototype.toLowerCase], on the ASCII letters. *)
Definition lower_ascii (c : ascii) : ascii :=
  let n := nat_of_ascii c in
  if (Nat.leb 65 n && Nat.leb n 90)%bool then ascii_of_nat (n + 32) else c.

Fixpoint toLowerCase (s : string) : string :=
  match s with
  | EmptyString => EmptyString
  | String c s' => String (lower_ascii c) (toLowerCase s')
  end.

End Js.

(* ===================================================================== *)
(** ** The data model ([@/types]) *)
(* ===================================================================== *)

Record Product := mkProduct {
  id : string;
  url : string;
  desiredPrice : float;
  currentPrice : option float;
  mrp : option float;
  name : option string;
  brand : option string;
  imageUrl : option string;
  isBelow : option bool;
  lastChecked : option string;
  ecommercePlatform : option string;
  lastNotifiedPrice : option float;
  lastNotifiedDate : option string;
  addedAt : option string;
  offers : option (list string)
}.

(** [interface ScrapedProductData]. The record is read from the JSON reply of
    [/api/scrape]; the source itself tests [!scrapedData.price], so the price
    is optional here. *)
Record ScrapedProductData := mkScraped {
  productName : string;
  scrapedBrand : option string;
  price : option float;
  scrapedMrp : option float;
  scrapedPlatform : string
}.

(* ===================================================================== *)
(** ** [Map]: insertion-ordered, keyed by string *)
(* ===================================================================== *)

Module JsMap.

Section WithValue.
Context {V : Type}.

Definition t := list (string * V).

Fixpoint has (k : string) (m : list (string * V)) : bool :=
  match m with
  | [] => false
  | (k', _) :: m' => if String.eqb k k' then true else has k m'
  end.

Fixpoint get (k : string) (m : list (string * V)) : option V :=
  match m with
  | [] => None
  | (k', v) :: m' => if String.eqb k k' then Some v else get k m'
  end.

(** [m.set(k, v)]: an existing key keeps its position and takes the new
    value; a new key goes to the end. *)
Fixpoint set (k : string) (v : V) (m : list (string * V)) : list (string * V) :=
  match m with
  | [] => [(k, v)]
  | (k', v') :: m' =>
      if String.eqb k k' then (k', v) :: m' else (k', v') :: set k v m'
  end.

Fixpoint delete (k : string) (m : list (string * V)) : list (string * V) :=
  match m with
  | [] => []
  | (k', v') :: m' =>
      if String.eqb k k' then m' else (k', v') :: delete k m'
  end.

(** [new Map(entries)] *)
Definition ofEntries (es : list (string * V)) : list (string * V) :=
  fold_left (fun m e => set (fst e) (snd e) m) es [].

End WithValue.

End JsMap.

(* ===================================================================== *)
(** ** Merge-on-save: the body of [saveProducts], lines 127-156 *)
(* ===================================================================== *)

(** The [for (const [id, currentProduct] of currentProductMap.entries())] loop:
    [productMap] shrinks and [mergedProducts] grows. *)
Fixpoint mergeCurrent (entries : list (string * Product))
    (productMap : list (string * Product)) (mergedProducts : list Product)
    : list (string * Product) * list Product :=
  match entries with
  | [] => (productMap, mergedProducts)
  | (i, currentProduct) :: rest =>
      if JsMap.has i productMap then
        match JsMap.get i productMap with
        | Some scanned =>
            mergeCurrent rest (JsMap.delete i productMap) (mergedProducts ++ [scanned])
        | None => mergeCurrent rest productMap mergedProducts
        end
      else mergeCurrent rest productMap (mergedProducts ++ [currentProduct])
  end.

Definition mergeProducts (currentProducts products : list Product) : list Product :=
  let productMap := JsMap.ofEntries (map (fun p => (id p, p)) products) in
  let currentProductMap := JsMap.ofEntries (map (fun p => (id p, p)) currentProducts) in
  let '(productMap', mergedProducts) := mergeCurrent currentProductMap productMap [] in
  (* the scanned products that the file does not hold are appended *)
  mergedProducts ++ map snd productMap'.

(* ===================================================================== *)
(** ** The outside world *)
(* ===================================================================== *)

(** What [scrapeProduct] comes back with: it throws (unsupported platform,
    HTTP error, invalid result) or it returns the scraped data. *)
Inductive ScrapeReply :=
| ScrapeThrows (latency : N) (reason : string)
| ScrapeReturns (latency : N) (data : ScrapedProductData).

(** The Telegram messages of the source; the rendering of the text
    ([Intl.NumberFormat], [toFixed]) is left out, the data it is built from
    is kept. *)
Inductive TelegramMessage :=
| DailyPriceUpdate (product : Product)
| PriceAlert (product : Product)
| FurtherPriceDrop (product : Product) (dropPercentage : float)
| ScanSummary (notifications productsTotal : nat) (durationMs : Z) (stoppedManually : bool).

(** Requests of other clients that the server handles while a scan is
    suspended: [POST /api/stop-scan] and [POST /api/background-scan]. *)
Inductive ExternalRequest :=
| StopScan
| ToggleContinuous (on : bool).

Record Env := mkEnv {
  (** [new Date(s).getTime()], [None] for an invalid date *)
  Date_parse : string -> option Z;
  (** [getFullYear()], [getMonth()], [getDate()] in the server's time zone *)
  local_date : Z -> Z * Z * Z;
  toISOString : Z -> string;
  (** the random part of [generateScanId] *)
  generateScanId : Z -> string;
  (** [scrapeProduct(url, isFirstProduct)] called at a given time *)
  scrape : Z -> string -> bool -> ScrapeReply;
  (** the Telegram API called at a given time: latency and [response.ok] *)
  telegram : Z -> TelegramMessage -> N * bool;
  (** the requests of other clients, with their arrival times *)
  requests : list (Z * ExternalRequest);
  (** [fs.writeFileSync] on a path at a given time throws *)
  write_fails : Z -> string -> bool
}.

(* ===================================================================== *)
(** ** The server's state: module variables, data directory, effects *)
(* ===================================================================== *)

Inductive ScanStatus := completed | stopped | error.

Record LogEntry := mkLogEntry {
  timestamp : string;
  status : ScanStatus;
  message : option string;
  productsScanned : option nat;
  successCount : option nat;
  failureCount : option nat;
  notificationCount : option nat;
  duration : option Z;
  scanId : string;
  isContinuous : bool;
  stoppedManually : option bool;
  errorMessage : option string
}.

Record ScannerState := mkScannerState {
  isScanning : bool;
  lastUpdated : string;
  lastScanId : option string
}.

(** A [<platform>_products.json] file: a JSON array of products, or text that
    [JSON.parse] rejects. A file that holds valid JSON of another shape (an
    object, [null], an array of records that are not products) is outside the
    model: the program writes arrays of products only, and the readers are
    stated for these files. *)
Inductive ProductFile :=
| ProductsJson (products : list Product)
| Unparseable.

(** The callbacks handed to [setTimeout]. *)
Inductive TimerCallback :=
| FollowUpIfContinuous   (* lines 775-785 and 619-629 *)
| TriggerScan.           (* [POST], lines 840-842 *)

Record Sent := mkSent {
  sentAt : Z;
  sentMessage : TelegramMessage;
  delivered : bool
}.

Record World := mkWorld {
  (* module variables of route.ts *)
  scanInProgress : bool;
  stopRequested : bool;
  fileLocks : gmap string bool;
  (* the data directory *)
  productFiles : gmap string ProductFile;
  scanLog : list LogEntry;
  scannerStateFile : option ScannerState;
  (* the clock, the messages handed to Telegram, the pending timers *)
  now : Z;
  outbox : list Sent;
  timers : list (Z * TimerCallback);
  (* when [utils/scannerState] was loaded: [DEFAULT_STATE.lastUpdated] *)
  loadedAt : Z
}.

Definition with_scanInProgress (b : bool) (w : World) : World :=
  mkWorld b (stopRequested w) (fileLocks w) (productFiles w) (scanLog w)
          (scannerStateFile w) (now w) (outbox w) (timers w) (loadedAt w).
Definition with_stopRequested (b : bool) (w : World) : World :=
  mkWorld (scanInProgress w) b (fileLocks w) (productFiles w) (scanLog w)
          (scannerStateFile w) (now w) (outbox w) (timers w) (loadedAt w).
Definition with_fileLocks (l : gmap string bool) (w : World) : World :=
  mkWorld (scanInProgress w) (stopRequested w) l (productFiles w) (scanLog w)
          (scannerStateFile w) (now w) (outbox w) (timers w) (loadedAt w).
Definition with_productFiles (f : gmap string ProductFile) (w : World) : World :=
  mkWorld (scanInProgress w) (stopRequested w) (fileLocks w) f (scanLog w)
          (scannerStateFile w) (now w) (outbox w) (timers w) (loadedAt w).
Definition with_scanLog (l : list LogEntry) (w : World) : World :=
  mkWorld (scanInProgress w) (stopRequested w) (fileLocks w) (productFiles w) l
          (scannerStateFile w) (now w) (outbox w) (timers w) (loadedAt w).
Definition with_scannerStateFile (s : option ScannerState) (w : World) : World :=
  mkWorld (scanInProgress w) (stopRequested w) (fileLocks w) (productFiles w)
          (scanLog w) s (now w) (outbox w) (timers w) (loadedAt w).
Definition with_now (t : Z) (w : World) : World :=
  mkWorld (scanInProgress w) (stopRequested w) (fileLocks w) (productFiles w)
          (scanLog w) (scannerStateFile w) t (outbox w) (timers w) (loadedAt w).
Definition with_outbox (o : list Sent) (w : World) : World :=
  mkWorld (scanInProgress w) (stopRequested w) (fileLocks w) (productFiles w)
          (scanLog w) (scannerStateFile w) (now w) o (timers w) (loadedAt w).
Definition with_timers (ts : list (Z * TimerCallback)) (w : World) : World :=
  mkWorld (scanInProgress w) (stopRequested w) (fileLocks w) (productFiles w)
          (scanLog w) (scannerStateFile w) (now w) (outbox w) ts (loadedAt w).

(** *** Computations that may throw

    The state survives a [throw]: what was written before stays written. *)
Inductive Outcome (A : Type) :=
| Returned (value : A)
| Thrown (reason : string).
Arguments Returned {A} value.
Arguments Thrown {A} reason.

Definition Async (A : Type) : Type := World -> World * Outcome A.

Definition ret {A} (a : A) : Async A := fun w => (w, Returned a).
Definition bind {A B} (m : Async A) (k : A -> Async B) : Async B :=
  fun w =>
    match m w with
    | (w', Returned a) => k a w'
    | (w', Thrown e) => (w', Thrown e)
    end.
(** [try { body } finally { cleanup }] with a cleanup that does not throw *)
Definition try_finally {A} (body : Async A) (cleanup : World -> World) : Async A :=
  fun w => let '(w', r) := body w in (cleanup w', r).
Definition read {A} (f : World -> A) : Async A := fun w => (w, Returned (f w)).
Definition update (f : World -> World) : Async unit := fun w => (f w, Returned tt).

Declare Scope async_scope.
Delimit Scope async_scope with async.
Notation "'let*' x ':=' m 'in' k" := (bind m (fun x => k))
  (at level 10, x pattern, m at level 100, k at level 200) : async_scope.
Notation "m ';;' k" := (bind m (fun _ => k))
  (at level 100, k at level 200, right associativity) : async_scope.
Local Open Scope async_scope.

(* ===================================================================== *)
(** ** Tasks: code that runs while the handler awaits it *)
(* ===================================================================== *)

(** The products of a batch are processed concurrently. A task is described
    by what it answers, when it finishes and what it sent in between; the
    handler that awaits it resumes at [finishedAt]. *)
Record Task (A : Type) := mkTask {
  result : A;
  finishedAt : Z;
  sent : list Sent
}.
Arguments mkTask {A} result finishedAt sent.
Arguments result {A} t.
Arguments finishedAt {A} t.
Arguments sent {A} t.

(* ===================================================================== *)
(** ** [utils/scannerState] *)
(* ===================================================================== *)

Section Server.

Variable env : Env.

Definition STATE_FILE : string := "data/scanner_state.json".
Definition LOG_FILE : string := "data/background_scan_log.json".

Definition DEFAULT_STATE (w : World) : ScannerState :=
  mkScannerState false (toISOString env (loadedAt w)) None.

(** [getScannerState]: a missing file is initialised with the default state;
    every error is caught and answers the default state. *)
Definition getScannerState (w : World) : World * ScannerState :=
  match scannerStateFile w with
  | None =>
      if write_fails env (now w) STATE_FILE then (w, DEFAULT_STATE w)
      else (with_scannerStateFile (Some (DEFAULT_STATE w)) w, DEFAULT_STATE w)
  | Some s => (w, s)
  end.

(** [setScannerState(isScanning)]; [lastScanId || null] *)
Definition setScannerState (isScanning : bool) (w : World) : World :=
  if write_fails env (now w) STATE_FILE then w
  else with_scannerStateFile
         (Some (mkScannerState isScanning (toISOString env (now w)) None)) w.

(* ===================================================================== *)
(** ** The scan lock and the requests of other clients *)
(* ===================================================================== *)

(** [requestScannerStop], lines 35-40 *)
Definition requestScannerStop (w : World) : World :=
  if scanInProgress w then with_stopRequested true w else w.

(** [POST], lines 823-857, with a boolean [isScanning] in the body *)
Definition POST (isScanning : bool) (w : World) : World :=
  let w := setScannerState isScanning w in
  if isScanning && negb (scanInProgress w)
  then with_timers (timers w ++ [(now w + 1000, TriggerScan)]) w
  else w.

(** A request of another client, handled at its arrival time. *)
Definition handle (arrival : Z) (r : ExternalRequest) (w : World) : World :=
  let w := with_now arrival w in
  match r with
  | StopScan => requestScannerStop w
  | ToggleContinuous on => POST on w
  end.

(** The requests that arrive from [now w] on and before [until] are handled,
    in the order of arrival; then the clock shows [until]. *)
Definition arrivals (from until : Z) : list (Z * ExternalRequest) :=
  filter (fun r => (from <=? fst r) && (fst r <? until)) (requests env).

Definition elapse (until : Z) (w : World) : World :=
  with_now until
    (fold_left (fun w r => handle (fst r) (snd r) w) (arrivals (now w) until) w).

(** [await new Promise(resolve => setTimeout(resolve, ms))] *)
Definition sleep (ms : Z) : Async unit :=
  fun w => (elapse (now w + ms) w, Returned tt).

(* ===================================================================== *)
(** ** File locks, lines 42-65 *)
(* ===================================================================== *)

Definition locked (lockKey : string) (w : World) : bool :=
  match fileLocks w !! lockKey with Some true => true | _ => false end.

(** The [while] loop of [acquireLock]; [polls] bounds the number of turns,
    which the clock bounds by [maxWaitMs / intervalMs]. *)
Fixpoint acquireLock_loop (polls : nat) (lockKey : string)
    (startTime maxWaitMs intervalMs : Z) : Async bool :=
  fun w =>
    if now w - startTime <? maxWaitMs then
      if negb (locked lockKey w) then
        (with_fileLocks (<[lockKey := true]> (fileLocks w)) w, Returned true)
      else
        match polls with
        | O => (w, Returned false)
        | S polls' =>
            (sleep intervalMs ;;
             acquireLock_loop polls' lockKey startTime maxWaitMs intervalMs) w
        end
    else (w, Returned false).

Definition acquireLock (lockKey : string) : Async bool :=
  fun w => acquireLock_loop 100 lockKey (now w) 10000 100 w.

Definition releaseLock (lockKey : string) (w : World) : World :=
  with_fileLocks (<[lockKey := false]> (fileLocks w)) w.

(* ===================================================================== *)
(** ** The product store, lines 67-194 *)
(* ===================================================================== *)

Definition getDataFilePath (platform : string) : string :=
  "data/" +:+ Js.toLowerCase platform +:+ "_products.json".

(** [loadProducts]: the [while (attempt < retries)] loop. A missing file is
    created empty; a failure is retried and, in the end, answers []. *)
Fixpoint loadProducts_loop (retriesLeft : nat) (platform : string) (w : World)
    : World * list Product :=
  match retriesLeft with
  | O => (w, [])
  | S retriesLeft' =>
      let filePath := getDataFilePath platform in
      match productFiles w !! filePath with
      | None =>
          if write_fails env (now w) filePath
          then loadProducts_loop retriesLeft' platform w
          else (with_productFiles (<[filePath := ProductsJson []]> (productFiles w)) w, [])
      | Some (ProductsJson products) => (w, products)
      | Some Unparseable => loadProducts_loop retriesLeft' platform w
      end
  end.

Definition loadProducts (platform : string) (w : World) : World * list Product :=
  loadProducts_loop 3 platform w.

(** The critical section of [saveProducts], lines 115-165: read the file
    again, merge, write. [JSON.parse] and [writeFileSync] may throw. *)
Definition saveProducts_locked (platform : string) (products : list Product) : Async bool :=
  fun w =>
    let filePath := getDataFilePath platform in
    match productFiles w !! filePath with
    | Some Unparseable => (w, Thrown "Unexpected token in JSON")
    | current =>
        let currentProducts :=
          match current with Some (ProductsJson l) => l | _ => [] end in
        let mergedProducts := mergeProducts currentProducts products in
        if write_fails env (now w) filePath then (w, Thrown "ENOSPC: write failed")
        else (with_productFiles (<[filePath := ProductsJson mergedProducts]> (productFiles w)) w,
              Returned true)
    end.

Definition saveProducts (platform : string) (products : list Product) : Async bool :=
  let lockKey := "file_" +:+ platform in
  let* acquired := acquireLock lockKey in
  if acquired : bool
  then try_finally (saveProducts_locked platform products) (releaseLock lockKey)
  else ret false.

Definition platforms : list string := ["myntra"; "amazon"; "flipkart"; "unknown"].

(** [getAllProducts] *)
Definition getAllProducts (w : World) : World * list Product :=
  fold_left (fun acc platform =>
               let '(w, allProducts) := acc in
               let '(w, products) := loadProducts platform w in
               (w, allProducts ++ products))
            platforms (w, []).

(** [logData.slice(-49)] *)
Definition slice_last {A} (n : nat) (l : list A) : list A :=
  skipn (length l - n) l.

(** [logScanActivity]: at most the last 50 entries are kept; errors are
    caught and logged to the console only. *)
Definition logScanActivity (entry : LogEntry) (w : World) : World :=
  if write_fails env (now w) LOG_FILE then w
  else with_scanLog (slice_last 49 (scanLog w) ++ [entry]) w.

(** [await task] in the handler *)
Definition await {A} (task : Z -> Task A) : Async A :=
  fun w =>
    let r := task (now w) in
    (elapse (finishedAt r) (with_outbox (outbox w ++ sent r) w), Returned (result r)).

(** [sendTelegramNotification], lines 234-261: never throws, answers whether
    the message was accepted. *)
Definition sendTelegramNotification (message : TelegramMessage) (t : Z) : Task bool :=
  let '(latency, ok) := telegram env t message in
  mkTask ok (t + Z.of_N latency) [mkSent t message ok].

(* ===================================================================== *)
(** ** The notification decision engine, lines 263-408 *)
(* ===================================================================== *)

(** [isToday], evaluated at time [t] *)
Definition isToday (t : Z) (dateString : string) : bool :=
  match dateString with
  | EmptyString => false
  | _ =>
      match Date_parse env dateString with
      | None => false
      | Some date =>
          let '(y1, m1, d1) := local_date env date in
          let '(y2, m2, d2) := local_date env t in
          (d1 =? d2) && (m1 =? m2) && (y1 =? y2)
      end
  end.

Definition with_notified (notifiedPrice : option float) (notifiedDate : option string)
    (p : Product) : Product :=
  mkProduct (id p) (url p) (desiredPrice p) (currentPrice p) (mrp p) (name p)
            (brand p) (imageUrl p) (isBelow p) (lastChecked p) (ecommercePlatform p)
            notifiedPrice notifiedDate (addedAt p) (offers p).

(** [undefined] in arithmetic is [NaN] *)
Definition num (x : option float) : float :=
  match x with Some v => v | None => PrimFloat.nan end.

(** An optional string handed to code that tests it for emptiness first:
    [undefined] and the empty string are treated alike there. *)
Definition orEmpty (s : option string) : string :=
  match s with Some d => d | None => EmptyString end.

(** lines 373-374 *)
Definition dropPercentage (product : Product) : float :=
  let priceDrop := (num (lastNotifiedPrice product) - num (currentPrice product))%float in
  (priceDrop / num (lastNotifiedPrice product) * 100)%float.

(** [processNotifications(product, previousProduct)] called at time [t]. The
    code up to the Telegram call runs in one go, so its readings of the clock
    are the one instant [t]. *)
Definition processNotifications (product previousProduct : Product) (t : Z) : Task Product :=
  if negb (Js.truthy_str (name product)) || negb (Js.truthy_num (currentPrice product))
     || negb (Js.truthy (desiredPrice product))
  then mkTask product t []
  else if negb (Js.truthy_bool (isBelow product))
  then mkTask (with_notified None None product) t []
  else
    let today := toISOString env t in
    let notifiedToday := isToday t (orEmpty (lastNotifiedDate product)) in
    let isNewDay := negb (Js.truthy_str (lastNotifiedDate product)) || negb notifiedToday in
    let priceUnchanged := Js.strict_eq (currentPrice previousProduct) (currentPrice product) in
    if priceUnchanged && negb isNewDay
    then mkTask (with_notified (lastNotifiedPrice previousProduct)
                               (lastNotifiedDate previousProduct) product) t []
    else
      (* a notification that went out *)
      let notified := with_notified (currentPrice product) (Some today) product in
      (* lines 403-407: [x || undefined] *)
      let unchanged :=
        with_notified
          (if Js.truthy_num (lastNotifiedPrice product) then lastNotifiedPrice product else None)
          (if Js.truthy_str (lastNotifiedDate product) then lastNotifiedDate product else None)
          product in
      let dispatch (message : TelegramMessage) : Task Product :=
        let r := sendTelegramNotification message t in
        mkTask (if result r then notified else unchanged) (finishedAt r) (sent r) in
      if priceUnchanged && isNewDay then
        dispatch (DailyPriceUpdate product)
      else if negb (Js.truthy_str (lastNotifiedDate product))
              || (negb (Js.strict_eq (currentPrice product) (lastNotifiedPrice product))
                  && negb notifiedToday) then
        dispatch (PriceAlert product)
      else if Js.truthy_num (lastNotifiedPrice product)
              && PrimFloat.ltb (num (currentPrice product)) (num (lastNotifiedPrice product)) then
        if PrimFloat.leb 1 (dropPercentage product)
        then dispatch (FurtherPriceDrop product (dropPercentage product))
        else mkTask unchanged t []
      else mkTask unchanged t [].

(* ===================================================================== *)
(** ** One product, with retries: lines 446-530 *)
(* ===================================================================== *)

(** The stop flag as a task that resumes at time [t] reads it; [w0] is the
    state in which the batch was started. *)
Definition stopSeen (w0 : World) (t : Z) : bool :=
  stopRequested (elapse t w0).

(** [product.ecommercePlatform?.toLowerCase() === 'amazon'], for a product of
    the interface: [ecommercePlatform?: string]. What the test does on a
    stored record that is not of the interface is [isAmazonStored]. *)
Definition isAmazon (product : Product) : bool :=
  match ecommercePlatform product with
  | Some s => String.eqb (Js.toLowerCase s) "amazon"
  | None => false
  end.

Definition with_lastChecked (checked : string) (p : Product) : Product :=
  mkProduct (id p) (url p) (desiredPrice p) (currentPrice p) (mrp p) (name p)
            (brand p) (imageUrl p) (isBelow p) (Some checked) (ecommercePlatform p)
            (lastNotifiedPrice p) (lastNotifiedDate p) (addedAt p) (offers p).

(** lines 482-494 *)
Definition applyScrape (t : Z) (product : Product) (scrapedData : ScrapedProductData)
    : Product :=
  mkProduct (id product) (url product) (desiredPrice product)
            (price scrapedData)
            (Js.or_num (scrapedMrp scrapedData) (mrp product))
            (Some (productName scrapedData))
            (scrapedBrand scrapedData)
            (imageUrl product)
            (Some (Js.gt (price scrapedData) 0
                   && Js.le (price scrapedData) (desiredPrice product)))
            (Some (toISOString env t))
            (Some (scrapedPlatform scrapedData))
            (lastNotifiedPrice product) (lastNotifiedDate product)
            (addedAt product) (offers product).

(** lines 475: [!scrapedData.price || scrapedData.price === 0] *)
Definition invalidPrice (scrapedData : ScrapedProductData) : bool :=
  negb (Js.truthy_num (price scrapedData))
  || Js.strict_eq (price scrapedData) (Some 0%float).

(** Lines 465-468: a retry first waits [1000 * attempt] ms; the scraper is
    called at this time. *)
Definition scrapedAt (attempt : nat) (t : Z) : Z :=
  if (0 <? attempt)%nat then t + 1000 * Z.of_nat attempt else t.

(** The body of the [try], lines 464-499, entered at time [t]. *)
Definition attemptBody (attempt : nat) (product originalProduct : Product)
    (isFirstProduct : bool) (t : Z) : Task (Outcome Product) :=
  let t1 := scrapedAt attempt t in
  match scrape env t1 (url product) isFirstProduct with
  | ScrapeThrows latency reason => mkTask (Thrown reason) (t1 + Z.of_N latency) []
  | ScrapeReturns latency scrapedData =>
      let t2 := t1 + Z.of_N latency in
      if isAmazon product && invalidPrice scrapedData
      then mkTask (Returned product) t2 []
      else
        let updatedProduct := applyScrape t2 product scrapedData in
        let r := processNotifications updatedProduct originalProduct t2 in
        mkTask (Returned (result r)) (finishedAt r) (sent r)
  end.

(** The [for (let attempt = 0; attempt <= maxRetries; attempt++)] loop;
    [turns] is the number of turns left, [maxRetries + 1 - attempt]. *)
Fixpoint attemptLoop (turns attempt maxRetries : nat) (w0 : World)
    (product originalProduct : Product) (isFirstProduct : bool) (t : Z)
    : Task (Outcome Product) :=
  match turns with
  | O =>
      (* after the loop, lines 526-529 *)
      mkTask (Returned (with_lastChecked (toISOString env t) product)) t []
  | S turns' =>
      if stopSeen w0 t then mkTask (Returned product) t []
      else
        let r := attemptBody attempt product originalProduct isFirstProduct t in
        match result r with
        | Returned _ => r
        | Thrown _ =>
            (* the [catch], lines 500-522 *)
            let t' := finishedAt r in
            if (attempt =? maxRetries)%nat then
              if isAmazon product
              then mkTask (Returned product) t' (sent r)
              else mkTask (Returned (with_lastChecked (toISOString env t') product))
                          t' (sent r)
            else
              let r' := attemptLoop turns' (S attempt) maxRetries w0
                                    product originalProduct isFirstProduct t' in
              mkTask (result r') (finishedAt r') (sent r ++ sent r')
        end
  end.

(** [processSingleProduct], started in state [w0] *)
Definition processSingleProduct (w0 : World) (product : Product)
    (isFirstProduct : bool) : Task (Outcome Product) :=
  if stopSeen w0 (now w0) then mkTask (Returned product) (now w0) []
  else
    let originalProduct := product in
    let maxRetries := 2%nat in
    attemptLoop (maxRetries + 1) 0 maxRetries w0 product originalProduct
                isFirstProduct (now w0).

(* ===================================================================== *)
(** ** Retention: [cleanupOldProducts], lines 532-569 *)
(* ===================================================================== *)

Definition DAYS_THRESHOLD : Z := 60.
Definition MS_PER_DAY : Z := 1000 * 60 * 60 * 24.

(** [Math.floor((now - date) / MS_PER_DAY) <= days]; an invalid date gives
    [NaN], which compares false. *)
Definition daysSinceAtMost (nowT : Z) (dateString : string) (days : Z) : bool :=
  match Date_parse env dateString with
  | Some date => (nowT - date) / MS_PER_DAY <=? days
  | None => false
  end.

(** The predicate of [products.filter] *)
Definition isActive (nowT : Z) (product : Product) : bool :=
  if negb (Js.truthy_str (lastChecked product)) then
    if Js.truthy_str (addedAt product)
    then daysSinceAtMost nowT (orEmpty (addedAt product)) 30
    else true
  else
    daysSinceAtMost nowT (orEmpty (lastChecked product)) DAYS_THRESHOLD
    || Js.truthy_bool (isBelow product).

Fixpoint cleanupLoop (platforms : list string) (nowT : Z) (removedCount : nat)
    : Async nat :=
  match platforms with
  | [] => ret removedCount
  | platform :: rest =>
      let* products := (fun w => let '(w', l) := loadProducts platform w in (w', Returned l)) in
      let activeProducts := filter (isActive nowT) products in
      if (length activeProducts <? length products)%nat then
        saveProducts platform activeProducts ;;
        cleanupLoop rest nowT (removedCount + (length products - length activeProducts))%nat
      else cleanupLoop rest nowT removedCount
  end.

Definition cleanupOldProducts : Async nat :=
  let* nowT := read now in
  cleanupLoop platforms nowT 0%nat.

(* ===================================================================== *)
(** ** The scan handler: [GET], lines 571-820 *)
(* ===================================================================== *)

Inductive PromiseSettledResult :=
| fulfilled (value : Product)
| rejected (reason : string).

Definition settle (o : Outcome Product) : PromiseSettledResult :=
  match o with
  | Returned p => fulfilled p
  | Thrown e => rejected e
  end.

Inductive Response :=
| AlreadyInProgress
| NoProductsToScan (continuous : bool)
| ScanCompleted (successes failures notifications : nat) (durationMs : Z)
                (cleanupCount : nat) (continuous : bool)
| ScanFailed (reason : string).

Definition BATCH_SIZE : nat := 5.
Definition THROTTLE_DELAY : Z := 1000.

Record Counters := mkCounters {
  successes : nat;
  failures : nat;
  notifications : nat
}.

(** Names that [Object.prototype] defines: [productsByPlatform[platform]] is
    then truthy and has no [push]. *)
Definition inheritedKey (platform : string) : bool :=
  String.eqb platform "constructor" || String.eqb platform "__proto__".

(** lines 645-654; the keys are taken in the order of their first product
    (a key that is an array index would come first in [Object.entries]:
    platform names are assumed not to be numerals). *)
Fixpoint groupByPlatform (products : list Product)
    (productsByPlatform : list (string * list Product))
    : Outcome (list (string * list Product)) :=
  match products with
  | [] => Returned productsByPlatform
  | product :: rest =>
      let platform :=
        Js.toLowerCase (if Js.truthy_str (ecommercePlatform product)
                        then orEmpty (ecommercePlatform product)
                        else "unknown") in
      if inheritedKey platform
      then Thrown "productsByPlatform[platform].push is not a function"
      else
        let group :=
          match JsMap.get platform productsByPlatform with
          | Some l => l
          | None => []
          end in
        groupByPlatform rest (JsMap.set platform (group ++ [product]) productsByPlatform)
  end.

Definition option_string_eqb (a b : option string) : bool :=
  match a, b with
  | None, None => true
  | Some x, Some y => String.eqb x y
  | _, _ => false
  end.

(** lines 698-700 *)
Definition isNewNotification (updatedProduct originalProduct : Product) : bool :=
  Js.truthy_str (lastNotifiedDate updatedProduct)
  && (negb (Js.truthy_str (lastNotifiedDate originalProduct))
      || negb (option_string_eqb (lastNotifiedDate originalProduct)
                                 (lastNotifiedDate updatedProduct))).

(** The [for (let j ...)] loop over the settled results, lines 687-711 *)
Fixpoint handleResults (batch : list Product) (results : list PromiseSettledResult)
    (updatedProducts : list Product) (c : Counters) : list Product * Counters :=
  match batch, results with
  | originalProduct :: batch', result :: results' =>
      match result with
      | fulfilled updatedProduct =>
          handleResults batch' results' (updatedProducts ++ [updatedProduct])
            (if isNewNotification updatedProduct originalProduct
             then mkCounters (successes c) (failures c) (S (notifications c))
             else c)
      | rejected _ =>
          handleResults batch' results' (updatedProducts ++ [originalProduct])
            (mkCounters (successes c) (S (failures c)) (notifications c))
      end
  | _, _ => (updatedProducts, c)
  end.

Definition isFulfilled (r : PromiseSettledResult) : bool :=
  match r with fulfilled _ => true | rejected _ => false end.

(** [await Promise.allSettled(batch.map(product => processSingleProduct(...)))]:
    every task starts now; the handler resumes when the last one finishes. *)
Definition processBatch (batch : list Product) (isFirstProduct : bool)
    : Async (list PromiseSettledResult) :=
  fun w0 =>
    let tasks := map (fun product => processSingleProduct w0 product isFirstProduct) batch in
    let resumeAt := fold_left Z.max (map finishedAt tasks) (now w0) in
    (elapse resumeAt (with_outbox (outbox w0 ++ concat (map sent tasks)) w0),
     Returned (map (fun task => settle (result task)) tasks)).

(** The [for (let i = 0; i < platformProducts.length; i += BATCH_SIZE)] loop,
    lines 672-721; [turns] bounds the number of turns. *)
Fixpoint batchLoop (turns : nat) (platformProducts : list Product)
    (firstPlatform : bool) (i : nat) (updatedProducts : list Product) (c : Counters)
    : Async (list Product * Counters) :=
  match turns with
  | O => ret (updatedProducts, c)
  | S turns' =>
      if (i <? length platformProducts)%nat then
        let* stop := read stopRequested in
        if stop : bool then ret (updatedProducts, c)
        else
          let batch := firstn BATCH_SIZE (skipn i platformProducts) in
          let* results := processBatch batch (Nat.eqb i 0 && firstPlatform) in
          let '(updatedProducts, c) := handleResults batch results updatedProducts c in
          let c := mkCounters (successes c + length (filter isFulfilled results))
                              (failures c) (notifications c) in
          (if (i + BATCH_SIZE <? length platformProducts)%nat
           then sleep THROTTLE_DELAY else ret tt) ;;
          batchLoop turns' platformProducts firstPlatform (i + BATCH_SIZE)
                    updatedProducts c
      else ret (updatedProducts, c)
  end.

Definition isEmpty {A} (l : list A) : bool :=
  match l with [] => true | _ => false end.

(** One turn of the loop over the platforms, after its stop check:
    lines 668-729. *)
Definition scanPlatform (platform : string) (platformProducts : list Product)
    (firstPlatform : bool) (c : Counters) : Async Counters :=
  let* (updatedProducts, c) :=
    batchLoop (length platformProducts) platformProducts firstPlatform 0 [] c in
  let* stop := read stopRequested in
  (if negb (isEmpty updatedProducts) && negb stop
   then saveProducts platform updatedProducts ;; ret tt
   else ret tt) ;;
  ret c.

(** The [for (const [platform, platformProducts] of Object.entries(...))]
    loop, lines 661-730 *)
Fixpoint platformLoop (groups : list (string * list Product)) (firstKey : string)
    (c : Counters) : Async Counters :=
  match groups with
  | [] => ret c
  | (platform, platformProducts) :: rest =>
      let* stop := read stopRequested in
      if stop : bool then ret c
      else
        let* c := scanPlatform platform platformProducts
                               (String.eqb platform firstKey) c in
        platformLoop rest firstKey c
  end.

Definition scheduleFollowUp : Async unit :=
  update (fun w => with_timers (timers w ++ [(now w + 5000, FollowUpIfContinuous)]) w).

(** lines 601-637 *)
Definition noProducts (scanId : string) (isContinuousScan : bool) : Async Response :=
  let* t := read now in
  update (logScanActivity
            (mkLogEntry (toISOString env t) completed (Some "No products to scan")
                        (Some 0%nat) None None None (Some 0) scanId isContinuousScan
                        None None)) ;;
  update (with_scanInProgress false) ;;
  (if isContinuousScan then scheduleFollowUp else ret tt) ;;
  ret (NoProductsToScan isContinuousScan).

(** lines 732-796: what follows the loop over the platforms *)
Definition finishScan (scanId : string) (isContinuousScan : bool) (startTime : Z)
    (productsTotal : nat) (c : Counters) : Async Response :=
  let* scanEndTime := read now in
  let durationMs := scanEndTime - startTime in
  let* stop := read stopRequested in
  let status := if stop : bool then stopped else completed in
  update (logScanActivity
            (mkLogEntry (toISOString env scanEndTime) status None
                        (Some productsTotal) (Some (successes c)) (Some (failures c))
                        (Some (notifications c)) (Some durationMs) scanId
                        isContinuousScan (Some stop) None)) ;;
  (if (0 <? notifications c)%nat
   then await (sendTelegramNotification
                 (ScanSummary (notifications c) productsTotal durationMs stop)) ;; ret tt
   else ret tt) ;;
  let* stop := read stopRequested in
  let* removedCount := (if negb stop then cleanupOldProducts else ret 0%nat) in
  update (with_scanInProgress false) ;;
  update (with_stopRequested false) ;;
  (if isContinuousScan then scheduleFollowUp else ret tt) ;;
  ret (ScanCompleted (successes c) (failures c) (notifications c) durationMs
                     removedCount isContinuousScan).

(** The [try] block, lines 594-796 *)
Definition scanBody (scanId : string) (isContinuousScan : bool) : Async Response :=
  let* startTime := read now in
  let* products := (fun w => let '(w', l) := getAllProducts w in (w', Returned l)) in
  if isEmpty products then noProducts scanId isContinuousScan
  else
    let* productsByPlatform := (fun w => (w, groupByPlatform products [])) in
    let firstKey := match productsByPlatform with (k, _) :: _ => k | [] => EmptyString end in
    let* c := platformLoop productsByPlatform firstKey (mkCounters 0 0 0) in
    finishScan scanId isContinuousScan startTime (length products) c.

(** The [catch] block, lines 797-819 *)
Definition scanFailed (scanId : string) (isContinuousScan : bool) (reason : string)
    (w : World) : World * Response :=
  let entry :=
    mkLogEntry (toISOString env (now w)) error None None None None None None
               (match scanId with EmptyString => "init-error" | _ => scanId end)
               isContinuousScan None (Some reason) in
  (with_scanInProgress false (logScanActivity entry w), ScanFailed reason).

Definition GET (w : World) : World * Response :=
  if scanInProgress w then (w, AlreadyInProgress)
  else
    let '(w, scannerState) := getScannerState w in
    let isContinuousScan := isScanning scannerState in
    let scanId := generateScanId env (now w) in
    let w := with_scanInProgress true w in
    match scanBody scanId isContinuousScan w with
    | (w', Returned response) => (w', response)
    | (w', Thrown reason) => scanFailed scanId isContinuousScan reason w'
    end.

(** What a timer does when it fires: the world after its callback, and
    whether the callback requests [GET /api/background-scan]. *)
Definition fire (callback : TimerCallback) (w : World) : World * bool :=
  match callback with
  | FollowUpIfContinuous =>
      let '(w, currentState) := getScannerState w in
      (w, isScanning currentState)
  | TriggerScan => (w, true)
  end.

(* ===================================================================== *)
(** ** The states between two handlers *)
(* ===================================================================== *)

Definition locks_free (w : World) : Prop :=
  forall lockKey, locked lockKey w = false.

(** No scan runs: nothing is in progress, no stop is pending, no lock is held. *)
Definition idle (w : World) : Prop :=
  scanInProgress w = false /\ stopRequested w = false /\ locks_free w.

(** The states the server can be in between two handlers: the module has
    just been loaded ([scanInProgress = false], [stopRequested = false],
    [fileLocks = {}], whatever the data directory holds), or a handler has
    run to its end: a scan, a request of another client, a timer, another
    route that edits the product files, or time has passed. *)
Inductive reachable : World -> Prop :=
| reach_boot (w : World) :
    scanInProgress w = false -> stopRequested w = false -> fileLocks w = ∅ ->
    reachable w
| reach_scan (w : World) : reachable w -> reachable (fst (GET w))
| reach_request (w : World) (arrival : Z) (r : ExternalRequest) :
    reachable w -> reachable (handle arrival r w)
| reach_timer (w : World) (callback : TimerCallback) :
    reachable w -> reachable (fst (fire callback w))
| reach_edit (w : World) (files : gmap string ProductFile) :
    reachable w -> reachable (with_productFiles files w)
| reach_tick (w : World) (t : Z) : reachable w -> reachable (with_now t w).

(** The timer that a scan sets when it ends and continuous mode was on when
    it started; [w'] is the state in which it is set. *)
Definition followUp (isContinuousScan : bool) (w' : World) : list (Z * TimerCallback) :=
  if isContinuousScan then [(now w' + 5000, FollowUpIfContinuous)] else [].

(** The scan came to its end: the response is neither the refusal nor the
    status 500. *)
Definition answered (response : Response) : bool :=
  match response with
  | NoProductsToScan _ | ScanCompleted _ _ _ _ _ _ => true
  | AlreadyInProgress | ScanFailed _ => false
  end.

(** [isContinuousScan]: the flag as [GET] reads it when it starts, line 588 *)
Definition capturedContinuous (w : World) : bool :=
  isScanning (snd (getScannerState w)).

End Server.

(* ===================================================================== *)
(** ** Vocabulary of the proofs *)
(* ===================================================================== *)

(** The entries of [new Map(products.map(p => [p.id, p]))] *)
Definition entriesOf (l : list Product) : list (string * Product) :=
  map (fun p => (id p, p)) l.

(** What may change while the handler is suspended: other handlers may set
    the stop flag, write the scanner state and set timers. *)
Record suspended (w w' : World) : Prop := mkSuspended {
  susp_progress : scanInProgress w' = scanInProgress w;
  susp_locks : fileLocks w' = fileLocks w;
  susp_files : productFiles w' = productFiles w;
  susp_log : scanLog w' = scanLog w;
  susp_stop : stopRequested w = true -> stopRequested w' = true;
  susp_stop_idle : scanInProgress w = false -> stopRequested w' = stopRequested w;
  susp_timers : scanInProgress w = true -> timers w' = timers w
}.

(** What code that does not suspend leaves alone. *)
Record quiet (w w' : World) : Prop := mkQuiet {
  quiet_progress : scanInProgress w' = scanInProgress w;
  quiet_stop : stopRequested w' = stopRequested w;
  quiet_timers : timers w' = timers w;
  quiet_now : now w' = now w;
  quiet_outbox : outbox w' = outbox w;
  quiet_locks : locks_free w -> locks_free w'
}.

(** A step of a scan: it keeps the locks free and the timers as they are,
    and it throws only while no stop is pending. *)
Definition scan_step {A} (m : Async A) : Prop :=
  forall w w' r, locks_free w -> m w = (w', r) ->
    locks_free w'
    /\ scanInProgress w' = scanInProgress w
    /\ (scanInProgress w = true -> timers w' = timers w)
    /\ (forall e, r = Thrown e -> stopRequested w' = false).

(** Code that suspends and never throws. *)
Definition suspends {A} (m : Async A) : Prop :=
  forall w w' r, m w = (w', r) -> suspended w w' /\ exists a, r = Returned a.

(* ===================================================================== *)
(** ** A concrete runtime: a server whose time zone is UTC *)
(* ===================================================================== *)

Module UTC.

(** Days since 1970-01-01 to year, month (1-12), day. *)
Definition civil (days : Z) : Z * Z * Z :=
  let z := days + 719468 in
  let era := z / 146097 in
  let doe := z - era * 146097 in
  let yoe := (doe - doe / 1460 + doe / 36524 - doe / 146096) / 365 in
  let doy := doe - (365 * yoe + yoe / 4 - yoe / 100) in
  let mp := (5 * doy + 2) / 153 in
  let d := doy - (153 * mp + 2) / 5 + 1 in
  let m := if mp <? 10 then mp + 3 else mp - 9 in
  (if m <=? 2 then yoe + era * 400 + 1 else yoe + era * 400, m, d).

Definition days_from_civil (y m d : Z) : Z :=
  let y := if m <=? 2 then y - 1 else y in
  let era := y / 400 in
  let yoe := y - era * 400 in
  let doy := (153 * (if 2 <? m then m - 3 else m + 9) + 2) / 5 + d - 1 in
  let doe := yoe * 365 + yoe / 4 - yoe / 100 + doy in
  era * 146097 + doe - 719468.

(** [getFullYear()], [getMonth()] (from 0), [getDate()] *)
Definition local_date (t : Z) : Z * Z * Z :=
  let '(y, m, d) := civil (t / 86400000) in (y, m - 1, d).

Definition digit (n : Z) : ascii := ascii_of_nat (48 + Z.to_nat (n mod 10)).

Fixpoint pad (width : nat) (n : Z) : string :=
  match width with
  | O => EmptyString
  | S width' => pad width' (n / 10) +:+ String (digit n) EmptyString
  end.

Definition toISOString (t : Z) : string :=
  let '(y, m, d) := civil (t / 86400000) in
  let ms := t mod 86400000 in
  pad 4 y +:+ "-" +:+ pad 2 m +:+ "-" +:+ pad 2 d +:+ "T"
  +:+ pad 2 (ms / 3600000) +:+ ":" +:+ pad 2 (ms / 60000 mod 60) +:+ ":"
  +:+ pad 2 (ms / 1000 mod 60) +:+ "." +:+ pad 3 (ms mod 1000) +:+ "Z".

Fixpoint number (s : string) (acc : Z) : option Z :=
  match s with
  | EmptyString => Some acc
  | String c s' =>
      let n := nat_of_ascii c in
      if (Nat.leb 48 n && Nat.leb n 57)%bool
      then number s' (10 * acc + Z.of_nat (n - 48))
      else None
  end.

Definition field (from len : nat) (s : string) : option Z :=
  number (substring from len s) 0.

(** [new Date(s).getTime()] for the format that [toISOString] writes, which is
    the format of every date that the program stores. Other formats that
    [Date] accepts are not parsed, and the fields are not checked for their
    range: the scenarios use dates in this format only, and the theorems hold
    for every [Date_parse] of an [Env]. *)
Definition Date_parse (s : string) : option Z :=
  match field 0 4 s, field 5 2 s, field 8 2 s,
        field 11 2 s, field 14 2 s, field 17 2 s, field 20 3 s with
  | Some y, Some m, Some d, Some hh, Some mi, Some ss, Some ms =>
      if (String.eqb (substring 4 1 s) "-" && String.eqb (substring 7 1 s) "-"
          && String.eqb (substring 10 1 s) "T" && String.eqb (substring 13 1 s) ":"
          && String.eqb (substring 16 1 s) ":" && String.eqb (substring 19 1 s) "."
          && String.eqb (substring 23 2 s) "Z")%bool
      then Some (days_from_civil y m d * 86400000
                 + hh * 3600000 + mi * 60000 + ss * 1000 + ms)
      else None
  | _, _, _, _, _, _, _ => None
  end.

End UTC.

(* ===================================================================== *)
(** ** Scenarios *)
(* ===================================================================== *)

Module Scenario.

(** 2024-05-01T09:00:00.000Z *)
Definition t0 : Z := 1714554000000.

(** A server in UTC whose Telegram calls take 200 ms and succeed or fail as
    [telegramOk] says, whose disk never fails. *)
Definition server (scrape : Z -> string -> bool -> ScrapeReply) (telegramOk : bool)
    (requests : list (Z * ExternalRequest)) : Env :=
  mkEnv UTC.Date_parse UTC.local_date UTC.toISOString
        (fun t => "scan-" +:+ UTC.toISOString t)
        scrape (fun _ _ => (200%N, telegramOk)) requests (fun _ _ => false).

(** The same server on a disk where the product files cannot be written. *)
Definition readOnly (e : Env) : Env :=
  mkEnv (Date_parse e) (local_date e) (toISOString e) (generateScanId e)
        (scrape e) (telegram e) (requests e)
        (fun _ path => String.eqb path "data/myntra_products.json").

(** The module has just been loaded. *)
Definition boot (files : gmap string ProductFile) (state : option ScannerState)
    (t : Z) : World :=
  mkWorld false false ∅ files [] state t [] [] t.

(** A shirt that has never been scanned, target 1000 *)
Definition shirt : Product :=
  mkProduct "p1" "https://www.myntra.com/shirt" 1000 None None None None None None None
            (Some "Myntra") None None (Some "2024-04-30T09:00:00.000Z") None.

Definition shirtData : ScrapedProductData :=
  mkScraped "Shirt" (Some "Acme") (Some 950%float) (Some 1500%float) "Myntra".

(** The shirt as a scan that found it at 950 leaves it *)
Definition shirtScanned : Product :=
  mkProduct "p1" "https://www.myntra.com/shirt" 1000 (Some 950%float)
            (Some 1500%float) (Some "Shirt") (Some "Acme") None (Some true)
            (Some "2024-05-01T09:00:00.300Z") (Some "Myntra") (Some 950%float)
            (Some "2024-05-01T09:00:00.300Z") (Some "2024-04-30T09:00:00.000Z") None.

Definition socks : Product :=
  mkProduct "p3" "https://www.myntra.com/socks" 200 None None None None None None None
            (Some "Myntra") None None (Some "2024-05-01T08:59:00.000Z") None.

Definition myntraFile : string := "data/myntra_products.json".

Definition shirtOnDisk : gmap string ProductFile :=
  {[ myntraFile := ProductsJson [shirt] ]}.

Definition scanningOff : option ScannerState :=
  Some (mkScannerState false "2024-05-01T08:00:00.000Z" None).
Definition scanningOn : option ScannerState :=
  Some (mkScannerState true "2024-05-01T08:00:00.000Z" None).

(** Every scrape answers the shirt at 950 after 300 ms. *)
Definition finds (data : ScrapedProductData) : Z -> string -> bool -> ScrapeReply :=
  fun _ _ _ => ScrapeReturns 300 data.

(** Every scrape fails after 50 ms. *)
Definition blocked : Z -> string -> bool -> ScrapeReply :=
  fun _ _ _ => ScrapeThrows 50 "Failed to scrape product: Internal Server Error".

Definition calm : Env := server (finds shirtData) true [].
(** A stop request arrives 100 ms after the scan has started. *)
Definition stopping : Env := server (finds shirtData) true [(t0 + 100, StopScan)].
(** Continuous mode is switched on 100 ms after the scan has started. *)
Definition switchingOn : Env :=
  server (finds shirtData) true [(t0 + 100, ToggleContinuous true)].
Definition unreachableSite : Env := server blocked true [].

(** A watch below its target of 120 that was notified today, at 07:00, at the
    price 100; [lastSeen] is the price of the previous scan. *)
Definition watch (lastSeen : float) : Product :=
  mkProduct "p2" "https://www.flipkart.com/watch" 120 (Some lastSeen) None
            (Some "Watch") None None (Some true) (Some "2024-05-01T08:00:00.000Z")
            (Some "Flipkart") (Some 100%float) (Some "2024-05-01T07:00:00.000Z")
            (Some "2024-04-01T00:00:00.000Z") None.

Definition watchAt (p : float) : ScrapedProductData :=
  mkScraped "Watch" None (Some p) None "Flipkart".

(** A scan is running: the state in which a batch is started. *)
Definition scanning (files : gmap string ProductFile) : World :=
  with_scanInProgress true (boot files scanningOff t0).

End Scenario.

(* ===================================================================== *)
(** ** Further vocabulary *)
(* ===================================================================== *)

(** Every entry of the map is filed under the id of its product. *)
Definition keyed (m : list (string * Product)) : Prop :=
  forall e, In e m -> fst e = id (snd e).

(** Lines 403-407: the record that the engine returns when nothing was sent
    or the dispatch failed, [lastNotifiedPrice || undefined] and
    [lastNotifiedDate || undefined]. *)
Definition keptNotified (product : Product) : Product :=
  with_notified
    (if Js.truthy_num (lastNotifiedPrice product) then lastNotifiedPrice product else None)
    (if Js.truthy_str (lastNotifiedDate product) then lastNotifiedDate product else None)
    product.

(** What the engine sends for a product below its target that was not
    notified today: lines 332-366. *)
Definition newDayMessage (product previousProduct : Product) : option TelegramMessage :=
  if Js.strict_eq (currentPrice previousProduct) (currentPrice product)
  then Some (DailyPriceUpdate product)
  else if negb (Js.truthy_str (lastNotifiedDate product))
          || negb (Js.strict_eq (currentPrice product) (lastNotifiedPrice product))
       then Some (PriceAlert product)
       else None.

(** The product that a message is about. *)
Definition messageProduct (message : TelegramMessage) : option Product :=
  match message with
  | DailyPriceUpdate product | PriceAlert product | FurtherPriceDrop product _ => Some product
  | ScanSummary _ _ _ _ => None
  end.

(** The fields that a scan of a product never writes. *)
Definition sameIdentity (p q : Product) : Prop :=
  id p = id q /\ url p = url q /\ desiredPrice p = desiredPrice q
  /\ imageUrl p = imageUrl q /\ addedAt p = addedAt q /\ offers p = offers q.

(** Line 646: [(product.ecommercePlatform || 'unknown').toLowerCase()] *)
Definition platformOf (product : Product) : string :=
  Js.toLowerCase (if Js.truthy_str (ecommercePlatform product)
                  then orEmpty (ecommercePlatform product)
                  else "unknown").

(** The products of a list that are grouped under a key, in their order. *)
Fixpoint ofPlatform (k : string) (products : list Product) : list Product :=
  match products with
  | [] => []
  | product :: rest =>
      if String.eqb (platformOf product) k
      then product :: ofPlatform k rest
      else ofPlatform k rest
  end.

(** What a product file gives to a reader: a missing file and a file that
    does not parse give no product. *)
Definition stored (file : option ProductFile) : list Product :=
  match file with
  | Some (ProductsJson products) => products
  | Some Unparseable | None => []
  end.

(** No client asks for a stop. *)
Definition neverStopped (env : Env) : bool :=
  forallb (fun r => match snd r with StopScan => false | ToggleContinuous _ => true end)
          (requests env).

(** No product file of the four platforms holds a product. *)
Definition emptyStore (w : World) : bool :=
  forallb (fun platform => isEmpty (stored (productFiles w !! getDataFilePath platform)))
          platforms.


(* ===================================================================== *)
(** ** Records that are not of the interface *)
(* ===================================================================== *)

(** The product files are not validated against [Product] when they are
    read, and the route that adds a product writes the request body as it
    comes. [ecommercePlatform] may then hold a JSON value that is neither a
    string nor [null]: a boolean, a number, an array or an object. Such a
    value has no [toLowerCase], so [product.ecommercePlatform?.toLowerCase()]
    throws a [TypeError]; [?.] answers [undefined] for [undefined] and [null]
    only. The grouping of line 646 files such a value under [unknown] when
    it is falsy ([false], [0]), so the record is scanned like any other. In
    [PlatformNotAString product] the other fields of the record are those of
    [product], whose own [ecommercePlatform] is not read. *)
Inductive StoredRecord :=
| Conforming (product : Product)
| PlatformNotAString (product : Product).

Definition fieldsOf (record : StoredRecord) : Product :=
  match record with
  | Conforming product | PlatformNotAString product => product
  end.

Definition NOT_A_FUNCTION : string :=
  "TypeError: product.ecommercePlatform?.toLowerCase is not a function".

(** Lines 473 and 506 on a stored record. *)
Definition isAmazonStored (record : StoredRecord) : Outcome bool :=
  match record with
  | Conforming product => Returned (isAmazon product)
  | PlatformNotAString _ => Thrown NOT_A_FUNCTION
  end.

(** [{ ...product, lastChecked: new Date().toISOString() }] *)
Definition with_lastCheckedStored (checked : string) (record : StoredRecord)
    : StoredRecord :=
  match record with
  | Conforming product => Conforming (with_lastChecked checked product)
  | PlatformNotAString product => PlatformNotAString (with_lastChecked checked product)
  end.

(** A task that answers a product, as a task that answers a stored record. *)
Definition conforming (r : Task (Outcome Product)) : Task (Outcome StoredRecord) :=
  mkTask (match result r with
          | Returned p => Returned (Conforming p)
          | Thrown e => Thrown e
          end) (finishedAt r) (sent r).

Section Unvalidated.
Variable env : Env.

(** The body of the [try], lines 464-499, on a stored record: the platform
    test of line 473 comes after the scrape and may throw; the record of
    lines 482-494 takes the platform that the scraper found. *)
Definition attemptBodyStored (attempt : nat) (record : StoredRecord)
    (originalProduct : Product) (isFirstProduct : bool) (t : Z)
    : Task (Outcome StoredRecord) :=
  let t1 := scrapedAt attempt t in
  match scrape env t1 (url (fieldsOf record)) isFirstProduct with
  | ScrapeThrows latency reason => mkTask (Thrown reason) (t1 + Z.of_N latency) []
  | ScrapeReturns latency scrapedData =>
      let t2 := t1 + Z.of_N latency in
      match isAmazonStored record with
      | Thrown e => mkTask (Thrown e) t2 []
      | Returned amazon =>
          if amazon && invalidPrice scrapedData
          then mkTask (Returned record) t2 []
          else
            let updatedProduct := applyScrape env t2 (fieldsOf record) scrapedData in
            let r := processNotifications env updatedProduct originalProduct t2 in
            mkTask (Returned (Conforming (result r))) (finishedAt r) (sent r)
      end
  end.

(** The loop of lines 457-523 on a stored record: the platform test of line
    506 is inside the [catch], so what it throws leaves the function. *)
Fixpoint attemptLoopStored (turns attempt maxRetries : nat) (w0 : World)
    (record : StoredRecord) (originalProduct : Product) (isFirstProduct : bool) (t : Z)
    : Task (Outcome StoredRecord) :=
  match turns with
  | O => mkTask (Returned (with_lastCheckedStored (toISOString env t) record)) t []
  | S turns' =>
      if stopSeen env w0 t then mkTask (Returned record) t []
      else
        let r := attemptBodyStored attempt record originalProduct isFirstProduct t in
        match result r with
        | Returned _ => r
        | Thrown _ =>
            let t' := finishedAt r in
            if (attempt =? maxRetries)%nat then
              match isAmazonStored record with
              | Thrown e => mkTask (Thrown e) t' (sent r)
              | Returned true => mkTask (Returned record) t' (sent r)
              | Returned false =>
                  mkTask (Returned (with_lastCheckedStored (toISOString env t') record))
                         t' (sent r)
              end
            else
              let r' := attemptLoopStored turns' (S attempt) maxRetries w0
                                          record originalProduct isFirstProduct t' in
              mkTask (result r') (finishedAt r') (sent r ++ sent r')
        end
  end.

(** [processSingleProduct] on a record as the product file holds it *)
Definition processSingleProductStored (w0 : World) (record : StoredRecord)
    (isFirstProduct : bool) : Task (Outcome StoredRecord) :=
  if stopSeen env w0 (now w0) then mkTask (Returned record) (now w0) []
  else
    let originalProduct := fieldsOf record in
    let maxRetries := 2%nat in
    attemptLoopStored (maxRetries + 1) 0 maxRetries w0 record originalProduct
                      isFirstProduct (now w0).

End Unvalidated.

(* ===================================================================== *)
(** ** [utils/productStorage]: the store as the other routes use it *)
(* ===================================================================== *)

Module ProductStorage.

Definition getFilePath (platform : string) : string :=
  "data/" +:+ Js.toLowerCase platform +:+ "_products.json".

(** [loadProducts]: a missing file is not created, nothing is retried; a file
    that does not parse answers []. *)
Definition loadProducts (platform : string) (w : World) : list Product :=
  match productFiles w !! getFilePath platform with
  | None => []
  | Some (ProductsJson products) => products
  | Some Unparseable => []
  end.

(** [saveProducts]: the file is overwritten; a failed write is thrown. *)
Definition saveProducts (env : Env) (platform : string) (products : list Product)
    : Async unit :=
  fun w =>
    let filePath := getFilePath platform in
    if write_fails env (now w) filePath then (w, Thrown "ENOSPC: write failed")
    else (with_productFiles (<[filePath := ProductsJson products]> (productFiles w)) w,
          Returned tt).

Definition getAllProducts (w : World) : list Product :=
  fold_left (fun allProducts platform => allProducts ++ loadProducts platform w)
            ["myntra"; "amazon"; "flipkart"; "unknown"] [].

End ProductStorage.

(* ===================================================================== *)
(** ** More scenarios *)
(* ===================================================================== *)

Module Cases.
Import Scenario.

(** A scarf last checked on 2024-01-01, four months before [t0], and not
    below its target: the retention filter rejects it. *)
Definition stale : Product :=
  mkProduct "p7" "https://www.myntra.com/scarf" 300 (Some 450%float) None (Some "Scarf")
            None None (Some false) (Some "2024-01-01T00:00:00.000Z") (Some "Myntra")
            None None (Some "2023-12-01T00:00:00.000Z") None.

(** A page on which no price was found. *)
Definition unpriced : ScrapedProductData :=
  mkScraped "Shirt" (Some "Acme") None None "Myntra".

(** A product whose platform name is a property of every object. *)
Definition odd : Product :=
  mkProduct "p8" "https://example.com/item" 10 None None None None None None None
            (Some "Constructor") None None None None.

(** Another handler holds the lock of the Myntra file. *)
Definition lockHeld : World :=
  with_fileLocks {[ "file_myntra" := true ]} (scanning shirtOnDisk).

(** The watch after its target was lowered from 120 to 90: it was notified
    today, at 07:00, at the price 98, which is also the price of the previous
    scan. *)
Definition watchLowered : Product :=
  mkProduct "p2" "https://www.flipkart.com/watch" 90 (Some 98%float) None
            (Some "Watch") None None (Some true) (Some "2024-05-01T08:00:00.000Z")
            (Some "Flipkart") (Some 98%float) (Some "2024-05-01T07:00:00.000Z")
            (Some "2024-04-01T00:00:00.000Z") None.

(** The shirt as a request body with [ecommercePlatform: false] stores it. *)
Definition shirtUntyped : StoredRecord := PlatformNotAString shirt.

Definition entry : LogEntry :=
  mkLogEntry "2024-05-01T09:00:00.500Z" completed None (Some 1%nat) (Some 1%nat)
             (Some 0%nat) (Some 0%nat) (Some 500) "scan-1" false (Some false) None.

End Cases.

(* ===================================================================== *)
(** * Properties *)
(* ===================================================================== *)

(** ** Facts about [Map] *)

Module JsMapFacts.
Import JsMap.

Section WithValue.
Context {V : Type}.
Implicit Types (m : list (string * V)) (k : string) (v : V).

Lemma has_true_iff k m : has k m = true <-> In k (map fst m).
Proof.
  induction m as [|[k' v'] m IH]; simpl.
  - split; [discriminate | tauto].
  - destruct (String.eqb_spec k k') as [->|Hne].
    + split; auto.
    + rewrite IH. split; [auto | intros [Heq|Hin]; [congruence | exact Hin]].
Qed.

Lemma has_false_iff k m : has k m = false <-> ~ In k (map fst m).
Proof.
  rewrite <- has_true_iff. destruct (has k m); split; congruence.
Qed.

Lemma get_some_in k v m : get k m = Some v -> In (k, v) m.
Proof.
  induction m as [|[k' v'] m IH]; simpl; [discriminate|].
  destruct (String.eqb_spec k k') as [->|Hne].
  - intros [= ->]. now left.
  - intros H. right. auto.
Qed.

Lemma has_get k m : has k m = true -> exists v, get k m = Some v.
Proof.
  induction m as [|[k' v'] m IH]; simpl; [discriminate|].
  destruct (String.eqb k k'); eauto.
Qed.

Lemma keys_set k v m :
  forall k', In k' (map fst (set k v m)) <-> k' = k \/ In k' (map fst m).
Proof.
  induction m as [|[k0 v0] m IH]; simpl; intros k'.
  - intuition.
  - destruct (String.eqb_spec k k0) as [->|Hne]; simpl.
    + intuition.
    + rewrite IH. intuition.
Qed.

Lemma in_set k v m e : In e (set k v m) -> e = (k, v) \/ In e m.
Proof.
  induction m as [|[k0 v0] m IH]; simpl.
  - intuition.
  - destruct (String.eqb_spec k k0) as [->|Hne]; simpl.
    + intros [<-|H]; auto.
    + intros [<-|H]; auto. destruct (IH H); auto.
Qed.

(** A key that is not there yet goes to the end. *)
Lemma set_fresh k v m : ~ In k (map fst m) -> set k v m = m ++ [(k, v)].
Proof.
  induction m as [|[k0 v0] m IH]; simpl; intros Hnin; [reflexivity|].
  destruct (String.eqb_spec k k0) as [->|Hne].
  - exfalso. auto.
  - f_equal. apply IH. auto.
Qed.

Lemma fold_set_keys (es : list (string * V)) : forall m k,
  In k (map fst (fold_left (fun m e => set (fst e) (snd e) m) es m))
  <-> In k (map fst m) \/ In k (map fst es).
Proof.
  induction es as [|[k0 v0] es IH]; simpl; intros m k.
  - intuition.
  - rewrite IH, keys_set. intuition.
Qed.

Lemma fold_set_in (es : list (string * V)) : forall m e,
  In e (fold_left (fun m e => set (fst e) (snd e) m) es m) -> In e m \/ In e es.
Proof.
  induction es as [|[k0 v0] es IH]; simpl; intros m e H; [auto|].
  destruct (IH _ _ H) as [H1|H1]; [|auto].
  destruct (in_set _ _ _ _ H1); auto.
Qed.

Lemma fold_set_nodup (es : list (string * V)) : forall m,
  List.NoDup (map fst (m ++ es)) ->
  fold_left (fun m e => set (fst e) (snd e) m) es m = m ++ es.
Proof.
  induction es as [|[k0 v0] es IH]; simpl; intros m Hnd.
  - now rewrite app_nil_r.
  - rewrite set_fresh.
    + rewrite IH; rewrite <- app_assoc; simpl; auto.
    + rewrite map_app in Hnd. simpl in Hnd.
      apply NoDup_remove_2 in Hnd. intros Hin. apply Hnd.
      apply in_or_app. now left.
Qed.

Lemma keys_ofEntries (es : list (string * V)) k :
  In k (map fst (ofEntries es)) <-> In k (map fst es).
Proof. unfold ofEntries. rewrite fold_set_keys. simpl. intuition. Qed.

Lemma in_ofEntries (es : list (string * V)) e : In e (ofEntries es) -> In e es.
Proof. intros H. destruct (fold_set_in _ _ _ H) as [[]|H']; exact H'. Qed.

(** Without a repeated key, the map holds the entries as they come. *)
Lemma ofEntries_nodup (es : list (string * V)) :
  List.NoDup (map fst es) -> ofEntries es = es.
Proof. intros H. unfold ofEntries. now rewrite fold_set_nodup. Qed.

Lemma keys_delete k m k' : In k' (map fst (delete k m)) -> In k' (map fst m).
Proof.
  induction m as [|[k0 v0] m IH]; simpl; [auto|].
  destruct (String.eqb k k0); simpl; intuition.
Qed.

Lemma in_delete_ne k m e : In e m -> fst e <> k -> In e (delete k m).
Proof.
  induction m as [|[k0 v0] m IH]; simpl; [auto|].
  intros [<-|Hin] Hne.
  - simpl in Hne. destruct (String.eqb_spec k k0); [congruence | now left].
  - destruct (String.eqb k k0); [exact Hin | right; auto].
Qed.

End WithValue.
End JsMapFacts.

(** ** Merge-on-save *)

Section Merge.
Import JsMapFacts.

Lemma keys_entriesOf l : map fst (entriesOf l) = map id l.
Proof. unfold entriesOf. rewrite map_map. reflexivity. Qed.

(** What has been pushed stays. *)
Lemma mergeCurrent_keeps entries : forall productMap merged p,
  In p merged -> In p (snd (mergeCurrent entries productMap merged)).
Proof.
  induction entries as [|[i cur] rest IH]; simpl; intros pm merged p Hin; [exact Hin|].
  destruct (JsMap.has i pm).
  - destruct (JsMap.get i pm); apply IH; [apply in_or_app|]; auto.
  - apply IH. apply in_or_app; auto.
Qed.

(** An entry of the file that the scan does not hold is pushed as it is. *)
Lemma mergeCurrent_current entries : forall productMap merged k q,
  In (k, q) entries -> JsMap.has k productMap = false ->
  In q (snd (mergeCurrent entries productMap merged)).
Proof.
  induction entries as [|[i cur] rest IH]; simpl; intros pm merged k q Hin Hhas; [tauto|].
  destruct Hin as [[= -> ->]|Hin].
  - rewrite Hhas. apply mergeCurrent_keeps. apply in_or_app. right. now left.
  - destruct (JsMap.has i pm) eqn:Hi.
    + destruct (JsMap.get i pm).
      * apply IH with k; [exact Hin|].
        apply has_false_iff. intros Hk. apply keys_delete in Hk.
        apply has_false_iff in Hhas. auto.
      * apply IH with k; auto.
    + apply IH with k; auto.
Qed.

(** An entry of the scan whose key the file does not hold is still in the
    map when the first loop ends. *)
Lemma mergeCurrent_leftover entries : forall productMap merged e,
  In e productMap -> ~ In (fst e) (map fst entries) ->
  In e (fst (mergeCurrent entries productMap merged)).
Proof.
  induction entries as [|[i cur] rest IH]; simpl; intros pm merged e Hin Hnin; [exact Hin|].
  assert (Hne : fst e <> i) by (intros Heq; apply Hnin; left; symmetry; exact Heq).
  assert (Hrest : ~ In (fst e) (map fst rest)) by auto.
  destruct (JsMap.has i pm).
  - destruct (JsMap.get i pm); apply IH; auto using in_delete_ne.
  - apply IH; auto.
Qed.

Lemma merge_retains_id currentProducts products p :
  In p currentProducts -> ~ In (id p) (map id products) ->
  exists q, In q (mergeProducts currentProducts products)
            /\ id q = id p /\ In q currentProducts.
Proof.
  intros Hin Hnin. unfold mergeProducts.
  fold (entriesOf products). fold (entriesOf currentProducts).
  assert (Hkey : JsMap.has (id p) (JsMap.ofEntries (entriesOf currentProducts)) = true).
  { apply has_true_iff, keys_ofEntries. rewrite keys_entriesOf. now apply in_map. }
  destruct (has_get _ _ Hkey) as [q Hq]. apply get_some_in in Hq.
  assert (Hq' := in_ofEntries _ _ Hq).
  unfold entriesOf in Hq'. apply in_map_iff in Hq' as [q0 [[= Hid Hqq] Hq0]]. subst q0.
  exists q. split; [|auto].
  destruct (mergeCurrent _ _ _) as [pm' merged] eqn:Hm.
  apply in_or_app. left.
  change merged with (snd (pm', merged)). rewrite <- Hm.
  apply mergeCurrent_current with (id p); [exact Hq|].
  apply has_false_iff. rewrite keys_ofEntries, keys_entriesOf. exact Hnin.
Qed.

Lemma merge_retains currentProducts products p :
  List.NoDup (map id currentProducts) ->
  In p currentProducts -> ~ In (id p) (map id products) ->
  In p (mergeProducts currentProducts products).
Proof.
  intros Hnd Hin Hnin. unfold mergeProducts.
  fold (entriesOf products). fold (entriesOf currentProducts).
  rewrite (ofEntries_nodup (entriesOf currentProducts))
    by (rewrite keys_entriesOf; exact Hnd).
  destruct (mergeCurrent _ _ _) as [pm' merged] eqn:Hm.
  apply in_or_app. left.
  change merged with (snd (pm', merged)). rewrite <- Hm.
  apply mergeCurrent_current with (id p).
  - unfold entriesOf. apply in_map_iff. eauto.
  - apply has_false_iff. rewrite keys_ofEntries, keys_entriesOf. exact Hnin.
Qed.

(** The second loop: a scanned product that the file no longer holds is
    appended, whether it was never saved or was deleted in the meantime. *)
Lemma merge_appends_scanned currentProducts products x :
  List.NoDup (map id products) ->
  In x products -> ~ In (id x) (map id currentProducts) ->
  In x (mergeProducts currentProducts products).
Proof.
  intros Hnd Hin Hnin. unfold mergeProducts.
  fold (entriesOf products). fold (entriesOf currentProducts).
  rewrite (ofEntries_nodup (entriesOf products))
    by (rewrite keys_entriesOf; exact Hnd).
  destruct (mergeCurrent _ _ _) as [pm' merged] eqn:Hm.
  apply in_or_app. right.
  change pm' with (fst (pm', merged)). rewrite <- Hm.
  apply in_map_iff. exists (id x, x). split; [reflexivity|].
  apply mergeCurrent_leftover.
  - unfold entriesOf. apply in_map_iff. eauto.
  - cbn [fst]. intros Hk. apply (proj1 (keys_ofEntries _ _)) in Hk.
    rewrite keys_entriesOf in Hk. auto.
Qed.

End Merge.

(** ** The product store *)

Section Store.
Variable env : Env.

(** With its lock free, [saveProducts] does not wait. *)
Lemma saveProducts_unlocked platform products w :
  locked ("file_" +:+ platform) w = false ->
  saveProducts env platform products w
  = let '(w', r) := saveProducts_locked env platform products
                      (with_fileLocks (<["file_" +:+ platform := true]> (fileLocks w)) w) in
    (releaseLock ("file_" +:+ platform) w', r).
Proof.
  intros Hfree. unfold saveProducts, bind, acquireLock.
  cbn [acquireLock_loop]. rewrite Z.sub_diag. cbn [Z.ltb Z.compare].
  rewrite Hfree. cbn [negb]. unfold try_finally. reflexivity.
Qed.

(** What [saveProducts] writes is the merge of what the file holds at that
    moment with the products it is given. *)
Lemma saveProducts_writes_merge platform products currentProducts w :
  locked ("file_" +:+ platform) w = false ->
  productFiles w !! getDataFilePath platform = Some (ProductsJson currentProducts) ->
  write_fails env (now w) (getDataFilePath platform) = false ->
  snd (saveProducts env platform products w) = Returned true
  /\ productFiles (fst (saveProducts env platform products w)) !! getDataFilePath platform
     = Some (ProductsJson (mergeProducts currentProducts products)).
Proof.
  intros Hfree Hfile Hwrite. rewrite saveProducts_unlocked by exact Hfree.
  unfold saveProducts_locked. cbn [productFiles with_fileLocks now].
  rewrite Hfile, Hwrite. cbn. split; [reflexivity | apply lookup_insert_eq].
Qed.

(** C8. Merge-on-save keeps what was added while the scan ran: when a
    partition is saved, every product that the file holds at that moment and
    that the scan result does not hold (by id) is in the list that is
    written: the stored record with this id and, ids being unique in the
    file, the very record. *)
Theorem concurrent_additions_are_retained
    (w : World) (platform : string) (products currentProducts : list Product)
    (p : Product) :
  locked ("file_" +:+ platform) w = false ->
  productFiles w !! getDataFilePath platform = Some (ProductsJson currentProducts) ->
  write_fails env (now w) (getDataFilePath platform) = false ->
  In p currentProducts ->
  ~ In (id p) (map id products) ->
  exists merged,
    productFiles (fst (saveProducts env platform products w)) !! getDataFilePath platform
    = Some (ProductsJson merged)
    /\ (exists q, In q merged /\ id q = id p /\ In q currentProducts)
    /\ (List.NoDup (map id currentProducts) -> In p merged).
Proof.
  intros Hfree Hfile Hwrite Hin Hnin.
  destruct (saveProducts_writes_merge platform products currentProducts w
              Hfree Hfile Hwrite) as [_ Hwritten].
  exists (mergeProducts currentProducts products). split; [exact Hwritten|]. split.
  - now apply merge_retains_id.
  - intros Hnd. now apply merge_retains.
Qed.

End Store.

(** ** The notification decision engine *)

Section Engine.
Variable env : Env.


Lemma isToday_nonempty t d : isToday env t d = true -> Js.truthy_str (Some d) = true.
Proof. destruct d; simpl; [discriminate | reflexivity]. Qed.

Lemma truthy_num_refl x : Js.truthy_num x = true -> Js.strict_eq x x = true.
Proof.
  destruct x as [v|]; simpl; [|discriminate]. unfold Js.truthy.
  intros H. apply andb_true_iff in H. tauto.
Qed.

Lemma or_num_idem a b : Js.or_num a (Js.or_num a b) = Js.or_num a b.
Proof. unfold Js.or_num. destruct (Js.truthy_num a) eqn:H; rewrite ?H; reflexivity. Qed.


(** Rule 3 comes first: the unchanged price of a product that was notified
    today sends nothing, however far it is below the notified price. *)
Lemma unchanged_price_suppressed (product previousProduct : Product) (t : Z) (d : string) :
  lastNotifiedDate product = Some d ->
  isToday env t d = true ->
  Js.strict_eq (currentPrice previousProduct) (currentPrice product) = true ->
  sent (processNotifications env product previousProduct t) = [].
Proof.
  intros Hdate Htoday Hsame. unfold processNotifications.
  destruct (_ || _ || _); [reflexivity|].
  destruct (negb (Js.truthy_bool _)); [reflexivity|].
  rewrite Hsame, Hdate. cbn [orEmpty]. rewrite Htoday.
  rewrite (isToday_nonempty _ _ Htoday). reflexivity.
Qed.

(** C7. A stored product that was notified today, whose scraped price equals
    its stored price and is still below the target (above zero and at most
    the desired price): the engine sends nothing, at whatever time of the day
    it is called ([first], [again] agree), and keeps the notified fields of
    the stored record; the next scan of the same day with the same data
    ([second]) sends nothing either and returns the first output, the time
    stamp of the scan renewed and every other field, the notified fields
    among them, as it was. *)
Theorem suppression_is_idempotent (stored : Product) (scrapedData : ScrapedProductData)
    (d : string) (t1 t2 : Z) :
  lastNotifiedDate stored = Some d ->
  isToday env t1 d = true ->
  isToday env t2 d = true ->
  Js.strict_eq (currentPrice stored) (price scrapedData) = true ->
  Js.gt (price scrapedData) 0 && Js.le (price scrapedData) (desiredPrice stored) = true ->
  let updated := applyScrape env t1 stored scrapedData in
  let first := processNotifications env updated stored t1 in
  let again := processNotifications env updated stored t2 in
  let rescanned := applyScrape env t2 (result first) scrapedData in
  let second := processNotifications env rescanned (result first) t2 in
  let f := result first in
  sent first = [] /\ sent again = [] /\ result again = f
  /\ lastNotifiedPrice f = lastNotifiedPrice stored
  /\ lastNotifiedDate f = Some d
  /\ sent second = []
  /\ result second
     = mkProduct (id f) (url f) (desiredPrice f) (currentPrice f) (mrp f) (name f)
                 (brand f) (imageUrl f) (isBelow f) (Some (toISOString env t2))
                 (ecommercePlatform f) (lastNotifiedPrice f) (lastNotifiedDate f)
                 (addedAt f) (offers f)
  /\ lastNotifiedPrice (result second) = lastNotifiedPrice stored
  /\ lastNotifiedDate (result second) = Some d.
Proof.
  intros Hdate Htoday1 Htoday2 Hsame Hstill.
  assert (Hd := isToday_nonempty _ _ Htoday1).
  destruct stored as [i u dp cp m n b im ib lc ep lnp lnd aa o].
  destruct scrapedData as [pn sb pr sm sp].
  cbn in Hdate, Hsame, Hstill. subst lnd.
  cbv zeta. unfold processNotifications, applyScrape.
  cbn [name currentPrice desiredPrice isBelow lastNotifiedDate lastNotifiedPrice
       productName price scrapedBrand scrapedMrp scrapedPlatform
       id url mrp brand imageUrl lastChecked ecommercePlatform addedAt offers].
  rewrite Hstill. cbn [Js.truthy_bool negb].
  destruct (negb (Js.truthy_str (Some pn)) || negb (Js.truthy_num pr)
            || negb (Js.truthy dp)) eqn:Hmissing.
  - cbn [result sent with_notified
         name currentPrice desiredPrice isBelow lastNotifiedDate lastNotifiedPrice
         id url mrp brand imageUrl lastChecked ecommercePlatform addedAt offers].
    rewrite Hmissing. cbn. rewrite ?Hstill, or_num_idem. repeat split; reflexivity.
  - rewrite Hsame. cbn [orEmpty]. rewrite Htoday1, Htoday2, Hd.
    cbn [result sent with_notified negb orb andb
         name currentPrice desiredPrice isBelow lastNotifiedDate lastNotifiedPrice
         id url mrp brand imageUrl lastChecked ecommercePlatform addedAt offers].
    rewrite Hmissing.
    assert (Hpr : Js.strict_eq pr pr = true).
    { apply truthy_num_refl. destruct (Js.truthy_num pr); [reflexivity|].
      rewrite orb_true_r in Hmissing. discriminate. }
    rewrite Hpr. cbn [orEmpty]. rewrite Htoday2, Hd.
    cbn. rewrite ?Hstill, or_num_idem. repeat split; reflexivity.
Qed.

(** The first call keeps the notified fields of the stored record, unless
    the product is no longer below its target: rule 2 then clears them. *)
Lemma suppression_keeps_or_clears (stored : Product) (scrapedData : ScrapedProductData)
    (d : string) (t : Z) :
  lastNotifiedDate stored = Some d ->
  isToday env t d = true ->
  Js.strict_eq (currentPrice stored) (price scrapedData) = true ->
  let updated := applyScrape env t stored scrapedData in
  let first := result (processNotifications env updated stored t) in
  let rule2 :=
    Js.truthy_str (name updated) && Js.truthy_num (currentPrice updated)
    && Js.truthy (desiredPrice updated) && negb (Js.truthy_bool (isBelow updated)) in
  (lastNotifiedPrice first, lastNotifiedDate first)
  = if rule2 then (None, None)
    else (lastNotifiedPrice stored, lastNotifiedDate stored).
Proof.
  intros Hdate Htoday Hsame.
  assert (Hd := isToday_nonempty _ _ Htoday).
  cbv zeta. unfold processNotifications.
  change (lastNotifiedDate (applyScrape env t stored scrapedData))
    with (lastNotifiedDate stored).
  change (currentPrice (applyScrape env t stored scrapedData)) with (price scrapedData).
  destruct (Js.truthy_str (name _)); cbn [negb orb andb]; [|reflexivity].
  destruct (Js.truthy_num (price scrapedData)); cbn [negb orb andb]; [|reflexivity].
  destruct (Js.truthy (desiredPrice _)); cbn [negb orb andb]; [|reflexivity].
  destruct (negb (Js.truthy_bool _)); [reflexivity|].
  rewrite Hsame, Hdate. cbn [orEmpty]. rewrite Htoday, Hd. reflexivity.
Qed.

End Engine.

(** ** One product, with retries *)

Section Retries.
Variable env : Env.

(** The engine writes the two notification fields only. *)
Lemma engine_result_shape product previousProduct t :
  exists notifiedPrice notifiedDate,
    result (processNotifications env product previousProduct t)
    = with_notified notifiedPrice notifiedDate product.
Proof.
  unfold processNotifications, sendTelegramNotification.
  repeat match goal with
         | |- context [if ?b then _ else _] => destruct b
         | |- context [let '(_, _) := ?x in _] => destruct x
         end;
    cbn [result];
    try (do 2 eexists; reflexivity).
  exists (lastNotifiedPrice product), (lastNotifiedDate product).
  destruct product; reflexivity.
Qed.

Lemma engine_keeps_price product previousProduct t :
  let p' := result (processNotifications env product previousProduct t) in
  currentPrice p' = currentPrice product
  /\ desiredPrice p' = desiredPrice product
  /\ isBelow p' = isBelow product.
Proof.
  destruct (engine_result_shape product previousProduct t) as [np [nd H]].
  cbv zeta. rewrite H. repeat split; reflexivity.
Qed.

(** C5. An attempt whose scrape returns data that is kept (not the Amazon
    reading without a price): the record that comes back holds the scraped
    price and [isBelow = (currentPrice > 0 && currentPrice <= desiredPrice)];
    so [isBelow] is false when the price is absent or zero. *)
Theorem successful_scan_sets_isBelow
    (w0 : World) (turns attempt maxRetries : nat)
    (product originalProduct : Product) (isFirstProduct : bool) (t : Z)
    (latency : N) (scrapedData : ScrapedProductData) :
  stopSeen env w0 t = false ->
  scrape env (scrapedAt attempt t) (url product) isFirstProduct
    = ScrapeReturns latency scrapedData ->
  isAmazon product && invalidPrice scrapedData = false ->
  exists updated,
    result (attemptLoop env (S turns) attempt maxRetries w0 product originalProduct
                        isFirstProduct t) = Returned updated
    /\ currentPrice updated = price scrapedData
    /\ desiredPrice updated = desiredPrice product
    /\ isBelow updated
       = Some (Js.gt (currentPrice updated) 0
               && Js.le (currentPrice updated) (desiredPrice updated))
    /\ (currentPrice updated = None -> isBelow updated = Some false)
    /\ (currentPrice updated = Some 0%float -> isBelow updated = Some false)
    /\ (currentPrice updated = Some (-0)%float -> isBelow updated = Some false).
Proof.
  intros Hstop Hscrape Hvalid.
  cbn [attemptLoop]. rewrite Hstop. unfold attemptBody.
  rewrite Hscrape, Hvalid. cbn [result].
  eexists. split; [reflexivity|].
  destruct (engine_keeps_price
              (applyScrape env (scrapedAt attempt t + Z.of_N latency) product scrapedData)
              originalProduct (scrapedAt attempt t + Z.of_N latency)) as [Hc [Hd Hb]].
  rewrite Hc, Hd, Hb. cbn [applyScrape currentPrice desiredPrice isBelow].
  repeat split.
  - intros ->. reflexivity.
  - intros ->. reflexivity.
  - intros ->. reflexivity.
Qed.

(** Whatever the scraper and the notifier do, the loop returns a product. *)
Lemma attemptLoop_returns (w0 : World) (product originalProduct : Product)
    (isFirstProduct : bool) (maxRetries : nat) :
  forall (turns attempt : nat) (t : Z),
  exists p, result (attemptLoop env turns attempt maxRetries w0 product
                                originalProduct isFirstProduct t) = Returned p.
Proof.
  induction turns as [|turns IH]; intros attempt t; cbn [attemptLoop].
  - eexists; reflexivity.
  - destruct (stopSeen env w0 t); [eexists; reflexivity|].
    destruct (result (attemptBody env attempt product originalProduct isFirstProduct t))
      as [p|e] eqn:Hbody.
    + exists p. exact Hbody.
    + destruct (attempt =? maxRetries)%nat.
      * destruct (isAmazon product); eexists; reflexivity.
      * cbn [result]. apply IH.
Qed.

Lemma processSingleProduct_returns (w0 : World) (product : Product) (isFirstProduct : bool) :
  exists p, result (processSingleProduct env w0 product isFirstProduct) = Returned p.
Proof.
  unfold processSingleProduct.
  destruct (stopSeen env w0 (now w0)); [eexists; reflexivity|].
  apply attemptLoop_returns.
Qed.

Lemma attempt_throws attempt product originalProduct isFirstProduct t latency reason :
  scrape env (scrapedAt attempt t) (url product) isFirstProduct
    = ScrapeThrows latency reason ->
  attemptBody env attempt product originalProduct isFirstProduct t
  = mkTask (Thrown reason) (scrapedAt attempt t + Z.of_N latency) [].
Proof. intros H. unfold attemptBody. rewrite H. reflexivity. Qed.

(** C9. The three attempts are made and the scraper throws each time: a
    product whose platform, in lower case, is [amazon] comes back as it was,
    [lastChecked] included; a product of another platform, or of none, comes
    back with [lastChecked] set to the time of the last failure and every
    other field as it was. *)
Theorem exhausted_retries (w0 : World) (product : Product) (isFirstProduct : bool)
    (l0 l1 l2 : N) (e0 e1 e2 : string) :
  let t0 := now w0 in
  let f0 := scrapedAt 0 t0 + Z.of_N l0 in
  let f1 := scrapedAt 1 f0 + Z.of_N l1 in
  let f2 := scrapedAt 2 f1 + Z.of_N l2 in
  stopSeen env w0 t0 = false ->
  scrape env (scrapedAt 0 t0) (url product) isFirstProduct = ScrapeThrows l0 e0 ->
  stopSeen env w0 f0 = false ->
  scrape env (scrapedAt 1 f0) (url product) isFirstProduct = ScrapeThrows l1 e1 ->
  stopSeen env w0 f1 = false ->
  scrape env (scrapedAt 2 f1) (url product) isFirstProduct = ScrapeThrows l2 e2 ->
  let r := processSingleProduct env w0 product isFirstProduct in
  let amazon :=
    match ecommercePlatform product with
    | Some platform => String.eqb (Js.toLowerCase platform) "amazon"
    | None => false
    end in
  let checked :=
    mkProduct (id product) (url product) (desiredPrice product) (currentPrice product)
              (mrp product) (name product) (brand product) (imageUrl product)
              (isBelow product) (Some (toISOString env f2)) (ecommercePlatform product)
              (lastNotifiedPrice product) (lastNotifiedDate product)
              (addedAt product) (offers product) in
  result r = Returned (if amazon then product else checked)
  /\ finishedAt r = f2 /\ sent r = [].
Proof.
  intros t0 f0 f1 f2 Hs0 H0 Hs1 H1 Hs2 H2.
  cbv zeta. unfold processSingleProduct. fold t0. rewrite Hs0.
  change (2 + 1)%nat with 3%nat.
  cbn [attemptLoop]. rewrite Hs0.
  rewrite (attempt_throws _ _ _ _ _ _ _ H0). cbn [result finishedAt sent Nat.eqb].
  fold f0. rewrite Hs1.
  rewrite (attempt_throws _ _ _ _ _ _ _ H1). cbn [result finishedAt sent Nat.eqb].
  fold f1. rewrite Hs2.
  rewrite (attempt_throws _ _ _ _ _ _ _ H2). cbn [result finishedAt sent Nat.eqb].
  fold f2. unfold isAmazon, with_lastChecked.
  destruct (ecommercePlatform product) as [platform|];
    [destruct (String.eqb (Js.toLowerCase platform) "amazon")|];
    cbn; repeat split; reflexivity.
Qed.

End Retries.

(** ** What a scan leaves alone *)

Section Frames.
Variable env : Env.

Lemma suspended_refl w : suspended w w.
Proof. constructor; auto. Qed.

Lemma suspended_trans w1 w2 w3 : suspended w1 w2 -> suspended w2 w3 -> suspended w1 w3.
Proof.
  intros [A1 A2 A3 A4 A5 A6 A7] [B1 B2 B3 B4 B5 B6 B7]. constructor.
  - congruence.
  - congruence.
  - congruence.
  - congruence.
  - auto.
  - intros H. rewrite B6 by congruence. auto.
  - intros H. rewrite B7 by congruence. auto.
Qed.

Lemma quiet_refl w : quiet w w.
Proof. constructor; auto. Qed.

Lemma quiet_trans w1 w2 w3 : quiet w1 w2 -> quiet w2 w3 -> quiet w1 w3.
Proof.
  intros [A1 A2 A3 A4 A5 A6] [B1 B2 B3 B4 B5 B6]. constructor; try congruence; auto.
Qed.

Lemma handle_suspended arrival r w : suspended w (handle env arrival r w).
Proof.
  unfold handle. destruct r as [|on].
  - unfold requestScannerStop. cbn.
    destruct (scanInProgress w) eqn:Hp; constructor; cbn; auto; congruence.
  - unfold POST, setScannerState. cbn.
    destruct (write_fails env arrival STATE_FILE); cbn;
      destruct (on && negb (scanInProgress w)) eqn:Hon; constructor; cbn; auto;
      intros Hp; rewrite Hp, andb_false_r in Hon; discriminate.
Qed.

Lemma elapse_suspended until w : suspended w (elapse env until w).
Proof.
  unfold elapse.
  generalize (arrivals env (now w) until). intros l.
  assert (H : suspended w (fold_left (fun w r => handle env (fst r) (snd r) w) l w)).
  { assert (G : forall w1, suspended w w1 ->
             suspended w (fold_left (fun w r => handle env (fst r) (snd r) w) l w1)).
    { induction l as [|r l IH]; intros w1 H1; cbn; [exact H1|].
      apply IH. eapply suspended_trans; [exact H1 | apply handle_suspended]. }
    apply G, suspended_refl. }
  destruct H. constructor; cbn; auto.
Qed.

Lemma with_outbox_suspended o w : suspended w (with_outbox o w).
Proof. constructor; auto. Qed.

(** *** Combinators *)

Lemma suspends_ret {A} (a : A) : suspends (ret a).
Proof. intros w w' r [= <- <-]. split; [apply suspended_refl | eauto]. Qed.

Lemma suspends_read {A} (f : World -> A) : suspends (read f).
Proof. intros w w' r [= <- <-]. split; [apply suspended_refl | eauto]. Qed.

Lemma suspends_bind {A B} (m : Async A) (k : A -> Async B) :
  suspends m -> (forall a, suspends (k a)) -> suspends (bind m k).
Proof.
  intros Hm Hk w w' r. unfold bind.
  destruct (m w) as [w1 [a|e]] eqn:H1; intros H2.
  - destruct (Hm _ _ _ H1) as [S1 _]. destruct (Hk a _ _ _ H2) as [S2 E2].
    split; [eapply suspended_trans; eauto | exact E2].
  - destruct (Hm _ _ _ H1) as [_ [a Ha]]. discriminate.
Qed.

Lemma suspends_sleep ms : suspends (sleep env ms).
Proof. intros w w' r [= <- <-]. split; [apply elapse_suspended | eauto]. Qed.

Lemma suspends_await {A} (task : Z -> Task A) : suspends (await env task).
Proof.
  intros w w' r [= <- <-]. split; [|eauto].
  eapply suspended_trans; [apply with_outbox_suspended | apply elapse_suspended].
Qed.

Lemma suspends_processBatch batch isFirstProduct :
  suspends (processBatch env batch isFirstProduct).
Proof.
  intros w w' r [= <- <-]. split; [|eauto].
  eapply suspended_trans; [apply with_outbox_suspended | apply elapse_suspended].
Qed.

Lemma suspends_batchLoop platformProducts firstPlatform :
  forall turns i updatedProducts c,
    suspends (batchLoop env turns platformProducts firstPlatform i updatedProducts c).
Proof.
  induction turns as [|turns IH]; intros i updatedProducts c; cbn [batchLoop].
  - apply suspends_ret.
  - destruct (i <? length platformProducts)%nat; [|apply suspends_ret].
    apply suspends_bind; [apply suspends_read|]. intros [|]; [apply suspends_ret|].
    apply suspends_bind; [apply suspends_processBatch|]. intros results.
    destruct (handleResults _ _ _ _) as [u c'].
    apply suspends_bind; [|intros _; apply IH].
    destruct (_ <? _)%nat; [apply suspends_sleep | apply suspends_ret].
Qed.

(** *** Code that does not suspend *)

Lemma getScannerState_quiet w : quiet w (fst (getScannerState env w)).
Proof.
  unfold getScannerState. destruct (scannerStateFile w); [apply quiet_refl|].
  destruct (write_fails env (now w) STATE_FILE); constructor; auto.
Qed.

Lemma loadProducts_loop_quiet platform : forall retries w,
  quiet w (fst (loadProducts_loop env retries platform w)).
Proof.
  induction retries as [|retries IH]; intros w; cbn [loadProducts_loop];
    [apply quiet_refl|].
  destruct (productFiles w !! getDataFilePath platform) as [[l|]|].
  - apply quiet_refl.
  - apply IH.
  - destruct (write_fails env (now w) (getDataFilePath platform)); [apply IH|].
    constructor; auto.
Qed.

Lemma loadProducts_quiet platform w : quiet w (fst (loadProducts env platform w)).
Proof. apply loadProducts_loop_quiet. Qed.

Lemma getAllProducts_quiet w : quiet w (fst (getAllProducts env w)).
Proof.
  unfold getAllProducts. generalize (@nil Product). generalize platforms.
  assert (G : forall ps w1 l, quiet w w1 ->
            quiet w (fst (fold_left
              (fun acc platform =>
                 let '(w2, allProducts) := acc in
                 let '(w3, products) := loadProducts env platform w2 in
                 (w3, allProducts ++ products)) ps (w1, l)))).
  { induction ps as [|p ps IH]; intros w1 l H1; cbn [fold_left]; [exact H1|].
    destruct (loadProducts env p w1) as [w3 products] eqn:Hl. apply IH.
    eapply quiet_trans; [exact H1|].
    change w3 with (fst (w3, products)). rewrite <- Hl. apply loadProducts_quiet. }
  intros ps l. apply G, quiet_refl.
Qed.

Lemma logScanActivity_quiet entry w : quiet w (logScanActivity env entry w).
Proof.
  unfold logScanActivity. destruct (write_fails env (now w) LOG_FILE);
    constructor; auto.
Qed.

Lemma locked_insert_false k k' w :
  locked k' w = false ->
  locked k' (with_fileLocks (<[k := false]> (fileLocks w)) w) = false.
Proof.
  unfold locked. cbn. intros H.
  destruct (decide (k = k')) as [->|Hne].
  - now rewrite lookup_insert_eq.
  - now rewrite lookup_insert_ne.
Qed.

Lemma saveProducts_quiet platform products w w' r :
  locks_free w -> saveProducts env platform products w = (w', r) -> quiet w w'.
Proof.
  intros Hfree. rewrite saveProducts_unlocked by apply Hfree.
  unfold saveProducts_locked. cbn.
  destruct (productFiles w !! getDataFilePath platform) as [[l|]|];
    try destruct (write_fails env (now w) (getDataFilePath platform));
    intros [= <- <-]; constructor; cbn; auto; intros _ k;
    unfold locked; cbn;
    (destruct (decide ("file_" +:+ platform = k)) as [->|Hne];
     [rewrite lookup_insert_eq; reflexivity
     | rewrite !lookup_insert_ne by exact Hne; apply Hfree]).
Qed.

Lemma locks_free_eq w w' : fileLocks w' = fileLocks w -> locks_free w -> locks_free w'.
Proof. intros Heq Hfree k. unfold locked. rewrite Heq. apply Hfree. Qed.

Lemma suspended_locks_free w w' : suspended w w' -> locks_free w -> locks_free w'.
Proof. intros [_ H _ _ _ _ _]. now apply locks_free_eq. Qed.

Lemma cleanupLoop_quiet nowT : forall ps removedCount w w' r,
  locks_free w -> cleanupLoop env ps nowT removedCount w = (w', r) -> quiet w w'.
Proof.
  induction ps as [|platform ps IH]; intros removedCount w w' r Hfree; cbn [cleanupLoop].
  - intros [= <- <-]. apply quiet_refl.
  - unfold bind at 1.
    destruct (loadProducts env platform w) as [w1 l] eqn:Hl.
    assert (Q1 : quiet w w1).
    { change w1 with (fst (w1, l)). rewrite <- Hl. apply loadProducts_quiet. }
    destruct (_ <? _)%nat.
    + unfold bind at 1.
      destruct (saveProducts env platform _ w1) as [w2 [b|e]] eqn:Hs.
      * assert (Q2 : quiet w1 w2)
          by (eapply saveProducts_quiet; [apply Q1, Hfree | exact Hs]).
        intros H. eapply quiet_trans; [exact Q1|]. eapply quiet_trans; [exact Q2|].
        eapply IH; [|exact H]. apply Q2, Q1, Hfree.
      * intros [= <- <-]. eapply quiet_trans; [exact Q1|].
        eapply saveProducts_quiet; [apply Q1, Hfree | exact Hs].
    + intros H. eapply quiet_trans; [exact Q1|].
      eapply IH; [|exact H]. apply Q1, Hfree.
Qed.

Lemma cleanupOldProducts_quiet w w' r :
  locks_free w -> cleanupOldProducts env w = (w', r) -> quiet w w'.
Proof. intros Hfree. unfold cleanupOldProducts, bind, read. apply cleanupLoop_quiet, Hfree. Qed.

(** *** Steps of a scan *)

Lemma scan_step_ret {A} (a : A) : scan_step (ret a).
Proof. intros w w' r Hfree [= <- <-]. repeat split; auto. discriminate. Qed.

Lemma scan_step_read {A} (f : World -> A) : scan_step (read f).
Proof. intros w w' r Hfree [= <- <-]. repeat split; auto. discriminate. Qed.

Lemma scan_step_bind {A B} (m : Async A) (k : A -> Async B) :
  scan_step m -> (forall a, scan_step (k a)) -> scan_step (bind m k).
Proof.
  intros Hm Hk w w' r Hfree. unfold bind.
  destruct (m w) as [w1 [a|e]] eqn:H1; intros H2.
  - destruct (Hm _ _ _ Hfree H1) as (F1 & P1 & T1 & _).
    destruct (Hk a _ _ _ F1 H2) as (F2 & P2 & T2 & E2).
    repeat split; auto; try congruence.
    intros Hp. rewrite T2 by congruence. auto.
  - injection H2 as <- <-.
    destruct (Hm _ _ _ Hfree H1) as (F1 & P1 & T1 & E1).
    repeat split; auto. intros e' _. eapply E1. reflexivity.
Qed.

Lemma scan_step_suspends {A} (m : Async A) : suspends m -> scan_step m.
Proof.
  intros Hm w w' r Hfree H. destruct (Hm _ _ _ H) as [S [a ->]].
  repeat split.
  - eapply suspended_locks_free; eauto.
  - apply S.
  - apply S.
  - discriminate.
Qed.

Lemma scanPlatform_step platform platformProducts firstPlatform c :
  scan_step (scanPlatform env platform platformProducts firstPlatform c).
Proof.
  unfold scanPlatform. apply scan_step_bind.
  { apply scan_step_suspends, suspends_batchLoop. }
  intros [updatedProducts c'].
  intros w w' r Hfree. unfold bind at 1. unfold read at 1.
  destruct (negb (isEmpty updatedProducts) && negb (stopRequested w)) eqn:Hcond.
  - unfold bind.
    destruct (saveProducts env platform updatedProducts w) as [w1 [b|e]] eqn:Hs;
      pose proof (saveProducts_quiet _ _ _ _ _ Hfree Hs) as Q;
      intros [= <- <-]; repeat split;
      try apply Q; auto; try discriminate.
    + intros _. apply Q.
    + intros _. apply Q.
    + intros _ _. rewrite (quiet_stop _ _ Q).
      apply andb_true_iff in Hcond as [_ Hstop].
      now apply negb_true_iff in Hstop.
  - unfold bind, ret. intros [= <- <-]. repeat split; auto. discriminate.
Qed.

Lemma platformLoop_step firstKey : forall groups c,
  scan_step (platformLoop env groups firstKey c).
Proof.
  induction groups as [|[platform platformProducts] rest IH]; intros c;
    cbn [platformLoop].
  - apply scan_step_ret.
  - apply scan_step_bind; [apply scan_step_read|].
    intros [|]; [apply scan_step_ret|].
    apply scan_step_bind; [apply scanPlatform_step | intros c'; apply IH].
Qed.

(** *** The end of a scan *)


Lemma noProducts_spec scanId isContinuousScan w :
  exists w',
    noProducts env scanId isContinuousScan w = (w', Returned (NoProductsToScan isContinuousScan))
    /\ scanInProgress w' = false
    /\ stopRequested w' = stopRequested w
    /\ timers w' = timers w ++ followUp isContinuousScan w'
    /\ (locks_free w -> locks_free w').
Proof.
  unfold noProducts, bind, read, update, ret, scheduleFollowUp, followUp, update.
  pose proof (logScanActivity_quiet
    (mkLogEntry (toISOString env (now w)) completed (Some "No products to scan")
                (Some 0%nat) None None None (Some 0) scanId isContinuousScan None None) w)
    as Q.
  destruct isContinuousScan; eexists; (split; [reflexivity|]); cbn;
    repeat split; try apply Q; auto.
  - now rewrite (quiet_timers _ _ Q).
  - rewrite app_nil_r. apply Q.
Qed.

Lemma finishScan_spec scanId isContinuousScan startTime total c w w' r :
  locks_free w -> scanInProgress w = true ->
  finishScan env scanId isContinuousScan startTime total c w = (w', r) ->
  locks_free w'
  /\ match r with
     | Returned response =>
         scanInProgress w' = false /\ stopRequested w' = false
         /\ timers w' = timers w ++ followUp isContinuousScan w'
         /\ exists d removed,
              response = ScanCompleted (successes c) (failures c) (notifications c)
                                       d removed isContinuousScan
     | Thrown _ =>
         scanInProgress w' = true /\ stopRequested w' = false /\ timers w' = timers w
     end.
Proof.
  intros Hfree Hprogress. unfold finishScan.
  unfold bind at 1. unfold read at 1.
  unfold bind at 1. unfold read at 1.
  unfold bind at 1. unfold update at 1.
  set (entry := mkLogEntry _ _ _ _ _ _ _ _ _ _ _ _).
  pose proof (logScanActivity_quiet entry w) as Qa.
  set (wa := logScanActivity env entry w) in *.
  unfold bind at 1.
  (* the summary *)
  assert (Hsum : exists wb,
    (if (0 <? notifications c)%nat
     then bind (await env (sendTelegramNotification env
                  (ScanSummary (notifications c) total (now w - startTime)
                               (stopRequested w))))
               (fun _ => ret tt)
     else ret tt) wa = (wb, Returned tt) /\ suspended wa wb).
  { destruct (0 <? notifications c)%nat.
    - unfold bind, await, ret. eexists; split; [reflexivity|].
      eapply suspended_trans; [apply with_outbox_suspended | apply elapse_suspended].
    - eexists; split; [reflexivity | apply suspended_refl]. }
  destruct Hsum as [wb [-> Sb]].
  assert (Hpa : scanInProgress wa = true) by (rewrite (quiet_progress _ _ Qa); exact Hprogress).
  assert (Hpb : scanInProgress wb = true) by (rewrite (susp_progress _ _ Sb); exact Hpa).
  assert (Hfb : locks_free wb) by (eapply suspended_locks_free; [exact Sb | apply Qa, Hfree]).
  assert (Htb : timers wb = timers w).
  { rewrite (susp_timers _ _ Sb Hpa). apply Qa. }
  unfold bind at 1. unfold read at 1.
  unfold bind at 1.
  destruct (stopRequested wb) eqn:Hstop; cbn [negb].
  - (* stopped: no cleanup *)
    unfold ret at 1.
    unfold bind, update, ret, scheduleFollowUp, update, followUp.
    destruct isContinuousScan; intros [= <- <-]; cbn;
      (split; [exact Hfb|]); repeat split; eauto; try now rewrite Htb.
    rewrite app_nil_r. exact Htb.
  - destruct (cleanupOldProducts env wb) as [wc [removed|e]] eqn:Hc;
      pose proof (cleanupOldProducts_quiet _ _ _ Hfb Hc) as Qc.
    + unfold bind, update, ret, scheduleFollowUp, update, followUp.
      destruct isContinuousScan; intros [= <- <-]; cbn;
        (split; [apply Qc, Hfb|]); repeat split; eauto;
        rewrite (quiet_timers _ _ Qc), Htb; auto using app_nil_r.
    + intros [= <- <-]. split; [apply Qc, Hfb|]. repeat split.
      * rewrite (quiet_progress _ _ Qc). exact Hpb.
      * rewrite (quiet_stop _ _ Qc). exact Hstop.
      * rewrite (quiet_timers _ _ Qc). exact Htb.
Qed.


Lemma scanBody_spec scanId isContinuousScan w w' r :
  locks_free w -> scanInProgress w = true -> stopRequested w = false ->
  scanBody env scanId isContinuousScan w = (w', r) ->
  locks_free w'
  /\ match r with
     | Returned response =>
         scanInProgress w' = false /\ stopRequested w' = false
         /\ timers w' = timers w ++ followUp isContinuousScan w'
         /\ answered response = true
     | Thrown _ =>
         scanInProgress w' = true /\ stopRequested w' = false /\ timers w' = timers w
     end.
Proof.
  intros Hfree Hprogress Hstop. unfold scanBody.
  unfold bind at 1. unfold read at 1. unfold bind at 1.
  pose proof (getAllProducts_quiet w) as Q1.
  destruct (getAllProducts env w) as [w1 products]. cbn [fst] in Q1.
  destruct (isEmpty products).
  - destruct (noProducts_spec scanId isContinuousScan w1) as (w2 & -> & P & S & T & F).
    intros [= <- <-]. split; [apply F, Q1, Hfree|]. repeat split; auto.
    + rewrite S, (quiet_stop _ _ Q1). exact Hstop.
    + rewrite T, (quiet_timers _ _ Q1). reflexivity.
  - unfold bind at 1.
    destruct (groupByPlatform products []) as [groups|e].
    + unfold bind at 1.
      destruct (platformLoop env groups _ _ w1) as [w2 [c|e]] eqn:Hloop;
        destruct (platformLoop_step _ _ _ _ _ _ (quiet_locks _ _ Q1 Hfree) Hloop)
          as (F2 & P2 & T2 & E2).
      * intros Hfin.
        assert (Hp2 : scanInProgress w2 = true)
          by (rewrite P2, (quiet_progress _ _ Q1); exact Hprogress).
        destruct (finishScan_spec _ _ _ _ _ _ _ _ F2 Hp2 Hfin) as [F3 H3].
        split; [exact F3|].
        assert (Ht : timers w2 = timers w).
        { rewrite T2 by (rewrite (quiet_progress _ _ Q1); exact Hprogress).
          apply Q1. }
        destruct r as [response|e].
        -- destruct H3 as (A & B & C & (d & removed & ->)). repeat split; auto.
           now rewrite C, Ht.
        -- destruct H3 as (A & B & C). repeat split; auto. now rewrite C, Ht.
      * intros [= <- <-]. split; [exact F2|]. repeat split.
        -- rewrite P2, (quiet_progress _ _ Q1). exact Hprogress.
        -- eapply E2. reflexivity.
        -- rewrite T2 by (rewrite (quiet_progress _ _ Q1); exact Hprogress). apply Q1.
    + intros [= <- <-]. split; [apply Q1, Hfree|]. repeat split.
      * rewrite (quiet_progress _ _ Q1). exact Hprogress.
      * rewrite (quiet_stop _ _ Q1). exact Hstop.
      * apply Q1.
Qed.


Lemma GET_spec w :
  idle w ->
  let w' := fst (GET env w) in
  let response := snd (GET env w) in
  idle w'
  /\ response <> AlreadyInProgress
  /\ timers w' = timers w ++ (if answered response
                              then followUp (capturedContinuous env w) w' else []).
Proof.
  intros (Hprogress & Hstop & Hfree). unfold GET, capturedContinuous.
  rewrite Hprogress.
  pose proof (getScannerState_quiet w) as Q1.
  destruct (getScannerState env w) as [w1 st]. cbn [fst snd] in *.
  set (w2 := with_scanInProgress true w1).
  assert (F2 : locks_free w2) by (apply (locks_free_eq w1); [reflexivity | apply Q1, Hfree]).
  assert (S2 : stopRequested w2 = false) by (cbn; rewrite (quiet_stop _ _ Q1); exact Hstop).
  destruct (scanBody env _ _ w2) as [w3 [response|e]] eqn:Hbody;
    destruct (scanBody_spec _ _ _ _ _ F2 eq_refl S2 Hbody) as [F3 H3]; cbn [fst snd].
  - destruct H3 as (A & B & C & D). repeat split; auto.
    + intros ->. discriminate.
    + rewrite D, C. cbn. now rewrite (quiet_timers _ _ Q1).
  - destruct H3 as (A & B & C). unfold scanFailed. cbn [fst snd].
    set (entry := mkLogEntry _ _ _ _ _ _ _ _ _ _ _ _).
    pose proof (logScanActivity_quiet entry w3) as Q3.
    repeat split; cbn.
    + rewrite (quiet_stop _ _ Q3). exact B.
    + apply (locks_free_eq (logScanActivity env entry w3)); [reflexivity | apply Q3, F3].
    + discriminate.
    + rewrite app_nil_r, (quiet_timers _ _ Q3), C. cbn. apply Q1.
Qed.

Lemma reachable_idle w : reachable env w -> idle w.
Proof.
  induction 1 as [w Hp Hs Hl | w _ IH | w arrival r _ IH | w callback _ IH
                  | w files _ IH | w t _ IH].
  - repeat split; auto. intros k. unfold locked. rewrite Hl, lookup_empty. reflexivity.
  - apply GET_spec, IH.
  - destruct IH as (Hp & Hs & Hf).
    pose proof (handle_suspended arrival r w) as S.
    repeat split.
    + rewrite (susp_progress _ _ S). exact Hp.
    + rewrite (susp_stop_idle _ _ S Hp). exact Hs.
    + eapply suspended_locks_free; eauto.
  - destruct IH as (Hp & Hs & Hf). destruct callback; cbn; [|repeat split; auto].
    pose proof (getScannerState_quiet w) as Q.
    destruct (getScannerState env w) as [w1 st]. cbn in *.
    repeat split; [rewrite (quiet_progress _ _ Q) | rewrite (quiet_stop _ _ Q) | apply Q];
      auto.
  - destruct IH as (Hp & Hs & Hf). repeat split; auto.
  - destruct IH as (Hp & Hs & Hf). repeat split; auto.
Qed.

(** C2. However a scan pass ends (it completes, it is stopped, or an
    exception reaches the top-level handler), both [scanInProgress] and
    [stopRequested] are false when [GET] returns, and the next call of [GET]
    is not refused. The [catch] block does not assign [stopRequested]: the
    flag is false there because every statement that can throw follows a
    test of the flag with no suspension in between. *)
Theorem scan_end_resets_flags (w : World) :
  reachable env w ->
  let w' := fst (GET env w) in
  scanInProgress w' = false /\ stopRequested w' = false
  /\ snd (GET env w') <> AlreadyInProgress.
Proof.
  intros Hreach. pose proof (reachable_idle _ Hreach) as Hidle.
  destruct (GET_spec w Hidle) as [Hidle' _].
  destruct (GET_spec _ Hidle') as (_ & Hnew & _).
  cbv zeta. destruct Hidle' as (Hp & Hs & _). auto.
Qed.

End Frames.

(** ** Stop requests and follow-up scans *)

Section Stop.
Variable env : Env.

Lemma scanPlatform_stopped platform platformProducts firstPlatform c w w' r :
  locks_free w ->
  scanPlatform env platform platformProducts firstPlatform c w = (w', r) ->
  stopRequested w' = true ->
  productFiles w' = productFiles w /\ exists c', r = Returned c'.
Proof.
  intros Hfree. unfold scanPlatform. unfold bind at 1.
  destruct (batchLoop env _ _ _ _ _ _ w) as [w1 [[updatedProducts c']|e]] eqn:Hb;
    destruct (suspends_batchLoop env _ _ _ _ _ _ _ _ _ Hb) as [S [a Ha]];
    [|discriminate].
  unfold bind at 1. unfold read at 1.
  destruct (negb (isEmpty updatedProducts) && negb (stopRequested w1)) eqn:Hcond.
  - unfold bind.
    apply andb_true_iff in Hcond as [_ Hstop]. apply negb_true_iff in Hstop.
    destruct (saveProducts env platform updatedProducts w1) as [w2 [b|e]] eqn:Hs;
      pose proof (saveProducts_quiet env _ _ _ _ _
                    (suspended_locks_free _ _ S Hfree) Hs) as Q;
      intros [= <- <-] Hstop'; rewrite (quiet_stop _ _ Q) in Hstop'; congruence.
  - unfold bind, ret. intros [= <- <-] _. split; [apply S | eauto].
Qed.

Lemma platformLoop_stopped groups firstKey c w :
  stopRequested w = true ->
  platformLoop env groups firstKey c w = (w, Returned c).
Proof.
  intros Hstop. destruct groups as [|[platform platformProducts] rest]; cbn [platformLoop].
  - reflexivity.
  - unfold bind, read. rewrite Hstop. reflexivity.
Qed.

Lemma finishScan_stopped scanId isContinuousScan startTime total c w :
  scanInProgress w = true -> stopRequested w = true ->
  write_fails env (now w) LOG_FILE = false ->
  exists entry,
    scanLog (fst (finishScan env scanId isContinuousScan startTime total c w))
    = slice_last 49 (scanLog w) ++ [entry]
    /\ status entry = stopped /\ stoppedManually entry = Some true
    /\ productFiles (fst (finishScan env scanId isContinuousScan startTime total c w))
       = productFiles w.
Proof.
  intros Hprogress Hstop Hwrite.
  destruct (finishScan env scanId isContinuousScan startTime total c w) as [w' r] eqn:Hfin.
  cbn [fst]. revert Hfin. unfold finishScan.
  unfold bind at 1. unfold read at 1.
  unfold bind at 1. unfold read at 1.
  unfold bind at 1. unfold update at 1.
  rewrite Hstop.
  set (entry := mkLogEntry _ _ _ _ _ _ _ _ _ _ _ _).
  assert (Hlog : scanLog (logScanActivity env entry w) = slice_last 49 (scanLog w) ++ [entry])
    by (unfold logScanActivity; rewrite Hwrite; reflexivity).
  assert (Hfiles : productFiles (logScanActivity env entry w) = productFiles w)
    by (unfold logScanActivity; rewrite Hwrite; reflexivity).
  pose proof (logScanActivity_quiet env entry w) as Qa.
  set (wa := logScanActivity env entry w) in *.
  unfold bind at 1.
  assert (Hsum : exists wb,
    (if (0 <? notifications c)%nat
     then bind (await env (sendTelegramNotification env
                  (ScanSummary (notifications c) total (now w - startTime) true)))
               (fun _ => ret tt)
     else ret tt) wa = (wb, Returned tt) /\ suspended wa wb).
  { destruct (0 <? notifications c)%nat.
    - unfold bind, await, ret. eexists; split; [reflexivity|].
      eapply suspended_trans; [apply with_outbox_suspended | apply elapse_suspended].
    - eexists; split; [reflexivity | apply suspended_refl]. }
  destruct Hsum as [wb [-> Sb]].
  assert (Hsb : stopRequested wb = true).
  { apply (susp_stop _ _ Sb). rewrite (quiet_stop _ _ Qa). exact Hstop. }
  unfold bind at 1. unfold read at 1. rewrite Hsb. cbn [negb].
  unfold bind at 1. unfold ret at 1.
  unfold bind, update, ret, scheduleFollowUp, update.
  destruct isContinuousScan; intros [= <- <-]; exists entry; cbn; repeat split;
    rewrite ?(susp_log _ _ Sb), ?(susp_files _ _ Sb), ?Hlog, ?Hfiles; auto.
Qed.

(** C3, amended. In a scan that is in progress: a platform whose batch loop
    ends with the stop flag set is not saved, its processed products are
    dropped and the product files stay as they were; once the flag is set no
    further platform is scanned or saved (what was saved before stays); and
    the log entry of the scan has the status [stopped]. *)
Theorem stop_discards_platform_in_progress (w : World) :
  locks_free w -> scanInProgress w = true ->
  (* the platform during which the stop is observed is not saved *)
  (forall platform platformProducts firstPlatform c w' r,
      scanPlatform env platform platformProducts firstPlatform c w = (w', r) ->
      stopRequested w' = true ->
      productFiles w' = productFiles w /\ exists c', r = Returned c')
  (* once the flag is set, no further platform is scanned or saved *)
  /\ (stopRequested w = true ->
      forall groups firstKey c, platformLoop env groups firstKey c w = (w, Returned c))
  (* and the scan is logged as stopped *)
  /\ (stopRequested w = true -> write_fails env (now w) LOG_FILE = false ->
      forall scanId isContinuousScan startTime total c,
      exists entry,
        scanLog (fst (finishScan env scanId isContinuousScan startTime total c w))
        = slice_last 49 (scanLog w) ++ [entry]
        /\ status entry = stopped /\ stoppedManually entry = Some true
        /\ productFiles (fst (finishScan env scanId isContinuousScan startTime total c w))
           = productFiles w).
Proof.
  intros Hfree Hprogress. split; [|split].
  - intros. eapply scanPlatform_stopped; eauto.
  - intros. now apply platformLoop_stopped.
  - intros. now apply finishScan_stopped.
Qed.

(** C4, amended. A scan pass that is not stopped and ends without an
    exception sets exactly one timer, 5000 ms ahead, if and only if
    continuous mode was on when the scan started (the value captured at the
    start); when this timer fires, it requests a new scan if and only if
    continuous mode is on at that moment, read again from the scanner state. *)
Theorem follow_up_when_continuous (w : World) :
  idle w ->
  (forall r, In r (requests env) -> snd r <> StopScan) ->
  answered (snd (GET env w)) = true ->
  let w' := fst (GET env w) in
  timers w' = timers w ++ (if capturedContinuous env w
                           then [(now w' + 5000, FollowUpIfContinuous)] else [])
  /\ forall later, snd (fire env FollowUpIfContinuous later)
                   = isScanning (snd (getScannerState env later)).
Proof.
  intros Hidle _ Hanswered. destruct (GET_spec env w Hidle) as (_ & _ & Htimers).
  cbv zeta. split.
  - rewrite Htimers, Hanswered. reflexivity.
  - intros later. cbn. destruct (getScannerState env later). reflexivity.
Qed.

End Stop.

(** ** No task rejects *)

Section NeverRejects.
Variable env : Env.

Lemma processBatch_fulfilled batch isFirstProduct w :
  exists results,
    snd (processBatch env batch isFirstProduct w) = Returned results
    /\ Forall (fun r => isFulfilled r = true) results.
Proof.
  unfold processBatch. cbn [snd]. eexists; split; [reflexivity|].
  induction batch as [|product batch IH]; cbn [map]; constructor; [|exact IH].
  destruct (processSingleProduct_returns env w product isFirstProduct) as [p ->].
  reflexivity.
Qed.

Lemma handleResults_failures : forall batch results updatedProducts c,
  Forall (fun r => isFulfilled r = true) results ->
  failures (snd (handleResults batch results updatedProducts c)) = failures c.
Proof.
  induction batch as [|p batch IH]; intros results u c Hall; [reflexivity|].
  destruct results as [|r results]; [reflexivity|].
  inversion Hall as [|? ? Hr Hrest]; subst.
  destruct r as [updatedProduct|reason]; [|discriminate].
  cbn [handleResults]. rewrite IH by exact Hrest.
  destruct (isNewNotification updatedProduct p); reflexivity.
Qed.

Lemma batchLoop_failures platformProducts firstPlatform :
  forall turns i updatedProducts c w w' r,
    batchLoop env turns platformProducts firstPlatform i updatedProducts c w = (w', r) ->
    exists updatedProducts' c',
      r = Returned (updatedProducts', c') /\ failures c' = failures c.
Proof.
  induction turns as [|turns IH]; intros i u c w w' r; cbn [batchLoop].
  - intros [= <- <-]. eauto.
  - destruct (i <? length platformProducts)%nat; [|intros [= <- <-]; eauto].
    unfold bind at 1. unfold read at 1.
    destruct (stopRequested w); [intros [= <- <-]; eauto|].
    unfold bind at 1.
    destruct (processBatch_fulfilled
                (firstn BATCH_SIZE (skipn i platformProducts))
                (Nat.eqb i 0 && firstPlatform) w) as [results [Hres Hall]].
    destruct (processBatch env _ _ w) as [w1 r1]. cbn [snd] in Hres. subst r1.
    pose proof (handleResults_failures
                  (firstn BATCH_SIZE (skipn i platformProducts)) results u c Hall) as Hf.
    destruct (handleResults _ results u c) as [u1 c1]. cbn [snd] in Hf.
    unfold bind at 1.
    destruct ((if (i + BATCH_SIZE <? length platformProducts)%nat
               then sleep env THROTTLE_DELAY else ret tt) w1) as [w2 [[]|e]] eqn:Hs.
    + intros H. destruct (IH _ _ _ _ _ _ H) as (u' & c' & -> & Hc').
      do 2 eexists; split; [reflexivity|]. rewrite Hc'. cbn. exact Hf.
    + destruct (_ <? _)%nat; discriminate.
Qed.

Lemma scanPlatform_failures platform platformProducts firstPlatform c w w' c' :
  scanPlatform env platform platformProducts firstPlatform c w = (w', Returned c') ->
  failures c' = failures c.
Proof.
  unfold scanPlatform. unfold bind at 1.
  destruct (batchLoop env _ _ _ _ _ _ w) as [w1 r1] eqn:Hb.
  destruct (batchLoop_failures _ _ _ _ _ _ _ _ _ Hb) as (u' & c1 & -> & Hc1).
  unfold bind at 1. unfold read at 1. unfold bind.
  destruct (negb (isEmpty u') && negb (stopRequested w1)).
  - destruct (saveProducts env platform u' w1) as [w2 [b|e]]; [|discriminate].
    unfold ret. intros [= <- <-]. exact Hc1.
  - unfold ret. intros [= <- <-]. exact Hc1.
Qed.

Lemma platformLoop_failures firstKey : forall groups c w w' c',
  platformLoop env groups firstKey c w = (w', Returned c') ->
  failures c' = failures c.
Proof.
  induction groups as [|[platform platformProducts] rest IH]; intros c w w' c';
    cbn [platformLoop].
  - intros [= <- <-]. reflexivity.
  - unfold bind at 1. unfold read at 1.
    destruct (stopRequested w); [intros [= <- <-]; reflexivity|].
    unfold bind at 1.
    destruct (scanPlatform env platform platformProducts _ c w) as [w1 [c1|e]] eqn:Hp;
      [|discriminate].
    intros H. rewrite (IH _ _ _ _ H). eapply scanPlatform_failures; eauto.
Qed.

Lemma finishScan_response scanId isContinuousScan startTime total c w w' response :
  finishScan env scanId isContinuousScan startTime total c w = (w', Returned response) ->
  exists d removed,
    response = ScanCompleted (successes c) (failures c) (notifications c)
                             d removed isContinuousScan.
Proof.
  unfold finishScan.
  unfold bind at 1. unfold read at 1.
  unfold bind at 1. unfold read at 1.
  unfold bind at 1. unfold update at 1.
  unfold bind at 1.
  match goal with
  | |- context [(if (0 <? notifications c)%nat then ?a else ?b) ?w1] =>
      destruct ((if (0 <? notifications c)%nat then a else b) w1) as [wb [[]|e]];
      [|discriminate]
  end.
  unfold bind at 1. unfold read at 1. unfold bind at 1.
  match goal with
  | |- context [(if negb (stopRequested wb) then ?a else ?b) wb] =>
      destruct ((if negb (stopRequested wb) then a else b) wb) as [wc [removed|e]];
      [|discriminate]
  end.
  unfold bind, update, ret, scheduleFollowUp, update.
  destruct isContinuousScan; intros [= <- <-]; eauto.
Qed.

Lemma GET_failures w :
  match snd (GET env w) with
  | ScanCompleted _ failed _ _ _ _ => failed = 0%nat
  | _ => True
  end.
Proof.
  unfold GET. destruct (scanInProgress w); [exact I|].
  destruct (getScannerState env w) as [w1 st].
  destruct (scanBody env _ _ _) as [w2 [response|e]] eqn:Hbody; cbn [snd]; [|exact I].
  revert Hbody. unfold scanBody.
  unfold bind at 1. unfold read at 1. unfold bind at 1.
  destruct (getAllProducts env _) as [w3 products].
  destruct (isEmpty products).
  - destruct (noProducts_spec env (generateScanId env (now w1)) (isScanning st) w3)
      as (w4 & -> & _). intros [= <- <-]. exact I.
  - unfold bind at 1.
    destruct (groupByPlatform products []) as [groups|e]; [|discriminate].
    unfold bind at 1.
    destruct (platformLoop env groups _ _ w3) as [w4 [c|e]] eqn:Hloop; [|discriminate].
    intros Hfin. destruct (finishScan_response _ _ _ _ _ _ _ _ Hfin) as (d & removed & ->).
    apply (platformLoop_failures _ _ _ _ _ _ Hloop).
Qed.

(** *** Records that are not of the interface *)

(** On a record of the interface the two embeddings of the function agree. *)
Lemma attemptLoopStored_conforming (w0 : World) (product originalProduct : Product)
    (isFirstProduct : bool) (maxRetries : nat) :
  forall (turns attempt : nat) (t : Z),
    attemptLoopStored env turns attempt maxRetries w0 (Conforming product)
                      originalProduct isFirstProduct t
    = conforming (attemptLoop env turns attempt maxRetries w0 product
                              originalProduct isFirstProduct t).
Proof.
  induction turns as [|turns IH]; intros attempt t;
    cbn [attemptLoopStored attemptLoop]; [reflexivity|].
  destruct (stopSeen env w0 t); [reflexivity|].
  unfold attemptBodyStored, attemptBody. cbn [fieldsOf isAmazonStored].
  destruct (scrape env (scrapedAt attempt t) (url product) isFirstProduct)
    as [latency reason | latency scrapedData]; cbn [result finishedAt sent].
  - destruct (attempt =? maxRetries)%nat.
    + destruct (isAmazon product); reflexivity.
    + rewrite IH. reflexivity.
  - destruct (isAmazon product && invalidPrice scrapedData); reflexivity.
Qed.

Lemma processSingleProductStored_conforming (w0 : World) (product : Product)
    (isFirstProduct : bool) :
  processSingleProductStored env w0 (Conforming product) isFirstProduct
  = conforming (processSingleProduct env w0 product isFirstProduct).
Proof.
  unfold processSingleProductStored, processSingleProduct. cbn [fieldsOf].
  destruct (stopSeen env w0 (now w0)); [reflexivity|].
  apply attemptLoopStored_conforming.
Qed.

(** A record whose platform is not a string: every attempt ends in the
    [catch], and the last one leaves it through the test of line 506. *)
Lemma attemptLoopStored_rejects (w0 : World) (product originalProduct : Product)
    (isFirstProduct : bool) (maxRetries : nat) :
  forall (turns attempt : nat) (t : Z),
    (attempt + turns = S maxRetries)%nat ->
    let r := attemptLoopStored env turns attempt maxRetries w0
                               (PlatformNotAString product) originalProduct
                               isFirstProduct t in
    sent r = []
    /\ match turns with
       | O => True
       | S _ => result r = Thrown NOT_A_FUNCTION
                \/ result r = Returned (PlatformNotAString product)
       end.
Proof.
  induction turns as [|turns IH]; intros attempt t Hturns;
    cbn [attemptLoopStored]; cbv zeta; [split; [reflexivity | exact I]|].
  destruct (stopSeen env w0 t); [split; [reflexivity | now right]|].
  assert (Hbody : exists e t',
            attemptBodyStored env attempt (PlatformNotAString product) originalProduct
                              isFirstProduct t = mkTask (Thrown e) t' []).
  { unfold attemptBodyStored. cbn [fieldsOf isAmazonStored].
    destruct (scrape env _ _ _); eexists _, _; reflexivity. }
  destruct Hbody as (e & t' & ->). cbn [result finishedAt sent isAmazonStored].
  destruct (Nat.eqb_spec attempt maxRetries) as [->|Hne].
  - split; [reflexivity | now left].
  - destruct (IH (S attempt) t') as [Hsent Hresult]; [lia|].
    cbn [result sent app]. split; [exact Hsent|].
    destruct turns as [|turns']; [lia | exact Hresult].
Qed.

(** A record whose platform is not a string: nothing is sent, and the
    function rejects with the [TypeError] of line 506 unless it sees a stop
    first and returns the record. *)
Lemma platform_not_a_string_rejects (w0 : World) (product : Product)
    (isFirstProduct : bool) :
  let r := processSingleProductStored env w0 (PlatformNotAString product)
                                      isFirstProduct in
  sent r = []
  /\ (result r = Thrown NOT_A_FUNCTION
      \/ result r = Returned (PlatformNotAString product)).
Proof.
  cbv zeta. unfold processSingleProductStored.
  destruct (stopSeen env w0 (now w0)); [split; [reflexivity | now right]|].
  apply (attemptLoopStored_rejects w0 product product isFirstProduct 2 3 0 (now w0)).
  reflexivity.
Qed.

(** C10. [processSingleProduct] resolves with a product for every product of
    the interface [Product]: as a function on stored records it answers a
    record of the interface there; every result of [Promise.allSettled] in a
    scan of such products is [fulfilled], the [rejected] branch of the
    handler is not taken and the failure count of the scan is 0. *)
Theorem conforming_product_never_rejects :
  (forall w0 product isFirstProduct,
      exists p,
        result (processSingleProduct env w0 product isFirstProduct) = Returned p
        /\ result (processSingleProductStored env w0 (Conforming product) isFirstProduct)
           = Returned (Conforming p))
  /\ (forall batch isFirstProduct w,
         exists results,
           snd (processBatch env batch isFirstProduct w) = Returned results
           /\ Forall (fun r => isFulfilled r = true) results)
  /\ (forall w, match snd (GET env w) with
                | ScanCompleted _ failed _ _ _ _ => failed = 0%nat
                | _ => True
                end).
Proof.
  split; [|split].
  - intros w0 product isFirstProduct.
    destruct (processSingleProduct_returns env w0 product isFirstProduct) as [p Hp].
    exists p. split; [exact Hp|].
    rewrite processSingleProductStored_conforming. unfold conforming. cbn [result].
    now rewrite Hp.
  - apply processBatch_fulfilled.
  - apply GET_failures.
Qed.

End NeverRejects.

(** ** The scenarios *)

Section Scenarios.
Import Scenario.

Lemma boot_locks_free files state t : locks_free (boot files state t).
Proof. intros k. reflexivity. Qed.

Lemma scanning_locks_free files : locks_free (scanning files).
Proof. intros k. reflexivity. Qed.

(** C1: what the code does where the claim fails. The shirt was deleted from
    the Myntra file while the scan held a copy of it; saving the scan result
    writes the shirt back, after the socks that the file still holds. *)
Lemma deleted_product_is_written_back :
  let w := scanning {[ myntraFile := ProductsJson [socks] ]} in
  let saved := saveProducts calm "myntra" [shirtScanned; socks] w in
  snd saved = Returned true
  /\ productFiles (fst saved) !! myntraFile = Some (ProductsJson [socks; shirtScanned]).
Proof. vm_compute. split; reflexivity. Qed.

Lemma concurrent_additions_are_retained_witness :
  exists merged,
    productFiles (fst (saveProducts calm "myntra" [shirtScanned]
                         (scanning {[ myntraFile := ProductsJson [shirt; socks] ]})))
      !! getDataFilePath "myntra"
    = Some (ProductsJson merged)
    /\ In socks merged.
Proof.
  destruct (concurrent_additions_are_retained calm
              (scanning {[ myntraFile := ProductsJson [shirt; socks] ]})
              "myntra" [shirtScanned] [shirt; socks] socks)
    as (merged & Hwritten & _ & Hsame).
  - reflexivity.
  - reflexivity.
  - reflexivity.
  - simpl. right. left. reflexivity.
  - simpl. intros [H|[]]. discriminate.
  - exists merged. split; [exact Hwritten|]. apply Hsame.
    constructor; [simpl; intros [H|[]]; discriminate|].
    constructor; [simpl; tauto | constructor].
Defined.

(** The merge in full: the shirt takes its scanned version, the socks that
    were added in the meantime stay. *)
Example merge_keeps_added_product :
  mergeProducts [shirt; socks] [shirtScanned] = [shirtScanned; socks].
Proof. reflexivity. Qed.

Lemma scan_end_resets_flags_witness :
  let w' := fst (GET calm (boot shirtOnDisk scanningOff t0)) in
  scanInProgress w' = false /\ stopRequested w' = false
  /\ snd (GET calm w') <> AlreadyInProgress.
Proof.
  apply (scan_end_resets_flags calm (boot shirtOnDisk scanningOff t0)).
  apply reach_boot; reflexivity.
Defined.

(** The three ways in which a scan ends. *)
Example completed_scan :
  let '(w', response) := GET calm (boot shirtOnDisk scanningOff t0) in
  response = ScanCompleted 1 0 1 500 0 false
  /\ map status (scanLog w') = [completed]
  /\ productFiles w' !! myntraFile = Some (ProductsJson [shirtScanned])
  /\ (scanInProgress w', stopRequested w') = (false, false).
Proof. vm_compute. repeat split; reflexivity. Qed.

Example failed_scan :
  let '(w', response) := GET (readOnly calm) (boot shirtOnDisk scanningOff t0) in
  response = ScanFailed "ENOSPC: write failed"
  /\ map status (scanLog w') = [error]
  /\ productFiles w' !! myntraFile = Some (ProductsJson [shirt])
  /\ (scanInProgress w', stopRequested w') = (false, false).
Proof. vm_compute. repeat split; reflexivity. Qed.

(** C3, as stated, fails: a stop request arrives while the only batch is
    being scraped. When the flag is observed the shirt has been processed (it
    is counted as a success and its price alert has gone out), yet the file
    still holds the shirt as it was before the scan; the log says [stopped]. *)
Lemma stop_drops_processed_products :
  let '(w', response) := GET stopping (boot shirtOnDisk scanningOff t0) in
  response = ScanCompleted 1 0 1 500 0 false
  /\ map status (scanLog w') = [stopped]
  /\ length (outbox w') = 2%nat
  /\ productFiles w' !! myntraFile = Some (ProductsJson [shirt])
  /\ productFiles w' !! myntraFile <> Some (ProductsJson [shirtScanned]).
Proof. vm_compute. repeat split; try reflexivity. discriminate. Qed.

Lemma stop_discards_platform_in_progress_witness :
  let run := scanPlatform stopping "myntra" [shirt] true (mkCounters 0 0 0)
                          (scanning shirtOnDisk) in
  productFiles (fst run) = productFiles (scanning shirtOnDisk)
  /\ exists c', snd run = Returned c'.
Proof.
  destruct (stop_discards_platform_in_progress stopping (scanning shirtOnDisk)
              (scanning_locks_free shirtOnDisk) eq_refl) as [Hplatform _].
  cbv zeta. eapply Hplatform.
  - apply surjective_pairing.
  - vm_compute. reflexivity.
Defined.

(** C4, as stated, fails: continuous mode is off when the scan starts and
    is switched on while it runs; the scan completes, it was not stopped,
    the scanner state read afresh says that continuous mode is on, and no
    follow-up is set. *)
Lemma no_follow_up_when_switched_on_mid_scan :
  let '(w', response) := GET switchingOn (boot shirtOnDisk scanningOff t0) in
  response = ScanCompleted 1 0 1 500 0 false
  /\ map status (scanLog w') = [completed]
  /\ map stoppedManually (scanLog w') = [Some false]
  /\ isScanning (snd (getScannerState switchingOn w')) = true
  /\ timers w' = [].
Proof. vm_compute. repeat split; reflexivity. Qed.

Lemma follow_up_when_continuous_witness :
  let w := boot shirtOnDisk scanningOn t0 in
  let w' := fst (GET calm w) in
  timers w' = timers w ++ (if capturedContinuous calm w
                           then [(now w' + 5000, FollowUpIfContinuous)] else [])
  /\ forall later, snd (fire calm FollowUpIfContinuous later)
                   = isScanning (snd (getScannerState calm later)).
Proof.
  apply (follow_up_when_continuous calm (boot shirtOnDisk scanningOn t0)).
  - split; [reflexivity | split; [reflexivity | apply boot_locks_free]].
  - intros r [].
  - vm_compute. reflexivity.
Defined.

Example follow_up_is_set :
  timers (fst (GET calm (boot shirtOnDisk scanningOn t0)))
  = [(t0 + 700 + 5000, FollowUpIfContinuous)].
Proof. vm_compute. reflexivity. Qed.

(** With a stop request the timer is set all the same. *)
Example follow_up_after_stop :
  let '(w', _) := GET stopping (boot shirtOnDisk scanningOn t0) in
  map status (scanLog w') = [stopped]
  /\ timers w' = [(t0 + 700 + 5000, FollowUpIfContinuous)].
Proof. vm_compute. split; reflexivity. Qed.

Lemma successful_scan_sets_isBelow_witness :
  exists updated,
    result (attemptLoop calm 3 0 2 (scanning shirtOnDisk) shirt shirt true t0)
    = Returned updated
    /\ currentPrice updated = price shirtData
    /\ desiredPrice updated = desiredPrice shirt
    /\ isBelow updated
       = Some (Js.gt (currentPrice updated) 0
               && Js.le (currentPrice updated) (desiredPrice updated))
    /\ (currentPrice updated = None -> isBelow updated = Some false)
    /\ (currentPrice updated = Some 0%float -> isBelow updated = Some false)
    /\ (currentPrice updated = Some (-0)%float -> isBelow updated = Some false).
Proof.
  apply (successful_scan_sets_isBelow calm (scanning shirtOnDisk) 2 0 2
           shirt shirt true t0 300 shirtData).
  - vm_compute. reflexivity.
  - reflexivity.
  - reflexivity.
Defined.

(** A price of zero is recorded for a platform other than Amazon, and the
    product is not below its target. *)
Example zero_price_is_not_below :
  let free := server (finds (mkScraped "Shirt" None (Some 0%float) None "Myntra")) true [] in
  match result (processSingleProduct free (scanning shirtOnDisk) shirt true) with
  | Returned updated => currentPrice updated = Some 0%float /\ isBelow updated = Some false
  | Thrown _ => False
  end.
Proof. vm_compute. split; reflexivity. Qed.



(** The two readings of the specification: from 100 to 99.4 nothing is sent
    and the notified fields stay; from 100 to 98 a further-drop message is
    sent and the notified price becomes 98. *)
Example drop_to_99_4 :
  let r := processSingleProduct (server (finds (watchAt 99.4)) true [])
                                (scanning ∅) (watch 100) true in
  sent r = []
  /\ exists updated, result r = Returned updated
       /\ lastNotifiedPrice updated = Some 100%float
       /\ lastNotifiedDate updated = Some "2024-05-01T07:00:00.000Z".
Proof. vm_compute. split; [reflexivity|]. eexists. repeat split; reflexivity. Qed.

Example drop_to_98 :
  let r := processSingleProduct (server (finds (watchAt 98)) true [])
                                (scanning ∅) (watch 100) true in
  (exists p, map sentMessage (sent r) = [FurtherPriceDrop p 2%float])
  /\ exists updated, result r = Returned updated
       /\ lastNotifiedPrice updated = Some 98%float
       /\ lastNotifiedDate updated = Some "2024-05-01T09:00:00.300Z".
Proof. vm_compute. split; eexists; repeat split; reflexivity. Qed.

(** C7, as stated, fails: the watch was notified today at 98 and its price is
    unchanged, but its target has been lowered to 90; the engine sends
    nothing, and the notified fields are not preserved: rule 2 clears them. *)
Lemma lowered_target_clears_notified_fields :
  let updated := applyScrape calm (t0 + 300) Cases.watchLowered (watchAt 98) in
  let first := processNotifications calm updated Cases.watchLowered (t0 + 300) in
  lastNotifiedDate Cases.watchLowered = Some "2024-05-01T07:00:00.000Z"
  /\ isToday calm (t0 + 300) "2024-05-01T07:00:00.000Z" = true
  /\ Js.strict_eq (currentPrice Cases.watchLowered) (price (watchAt 98)) = true
  /\ sent first = []
  /\ lastNotifiedPrice Cases.watchLowered = Some 98%float
  /\ lastNotifiedPrice (result first) = None
  /\ lastNotifiedDate (result first) = None.
Proof. vm_compute. repeat split; reflexivity. Qed.

Lemma suppression_is_idempotent_witness :
  let stored := watch 98 in
  let updated := applyScrape calm (t0 + 300) stored (watchAt 98) in
  let first := processNotifications calm updated stored (t0 + 300) in
  let again := processNotifications calm updated stored (t0 + 3600000) in
  let rescanned := applyScrape calm (t0 + 3600000) (result first) (watchAt 98) in
  let second := processNotifications calm rescanned (result first) (t0 + 3600000) in
  let f := result first in
  sent first = [] /\ sent again = [] /\ result again = f
  /\ lastNotifiedPrice f = lastNotifiedPrice stored
  /\ lastNotifiedDate f = Some "2024-05-01T07:00:00.000Z"
  /\ sent second = []
  /\ result second
     = mkProduct (id f) (url f) (desiredPrice f) (currentPrice f) (mrp f) (name f)
                 (brand f) (imageUrl f) (isBelow f)
                 (Some (toISOString calm (t0 + 3600000)))
                 (ecommercePlatform f) (lastNotifiedPrice f) (lastNotifiedDate f)
                 (addedAt f) (offers f)
  /\ lastNotifiedPrice (result second) = lastNotifiedPrice stored
  /\ lastNotifiedDate (result second) = Some "2024-05-01T07:00:00.000Z".
Proof.
  apply (suppression_is_idempotent calm (watch 98) (watchAt 98)
           "2024-05-01T07:00:00.000Z" (t0 + 300) (t0 + 3600000)).
  - reflexivity.
  - vm_compute. reflexivity.
  - vm_compute. reflexivity.
  - reflexivity.
  - reflexivity.
Defined.

Lemma exhausted_retries_witness :
  let w0 := scanning shirtOnDisk in
  let r := processSingleProduct unreachableSite w0 shirt true in
  let f2 := scrapedAt 2 (scrapedAt 1 (scrapedAt 0 (now w0) + 50) + 50) + 50 in
  let amazon :=
    match ecommercePlatform shirt with
    | Some platform => String.eqb (Js.toLowerCase platform) "amazon"
    | None => false
    end in
  let checked :=
    mkProduct (id shirt) (url shirt) (desiredPrice shirt) (currentPrice shirt)
              (mrp shirt) (name shirt) (brand shirt) (imageUrl shirt)
              (isBelow shirt) (Some (toISOString unreachableSite f2))
              (ecommercePlatform shirt) (lastNotifiedPrice shirt)
              (lastNotifiedDate shirt) (addedAt shirt) (offers shirt) in
  result r = Returned (if amazon then shirt else checked)
  /\ finishedAt r = f2 /\ sent r = [].
Proof.
  apply (exhausted_retries unreachableSite (scanning shirtOnDisk) shirt true
           50 50 50
           "Failed to scrape product: Internal Server Error"
           "Failed to scrape product: Internal Server Error"
           "Failed to scrape product: Internal Server Error").
  - vm_compute. reflexivity.
  - reflexivity.
  - vm_compute. reflexivity.
  - reflexivity.
  - vm_compute. reflexivity.
  - reflexivity.
Defined.

(** The two platforms side by side: the time stamp of the shirt moves to
    09:00:03.150 and nothing else of it changes, the kettle of Amazon keeps
    its own. *)
Example exhausted_retries_by_platform :
  let kettle :=
    mkProduct "p4" "https://www.amazon.in/kettle" 900 (Some 850%float) None
              (Some "Kettle") None None (Some true) (Some "2024-04-30T10:00:00.000Z")
              (Some "Amazon") None None None None in
  result (processSingleProduct unreachableSite (scanning ∅) kettle true) = Returned kettle
  /\ result (processSingleProduct unreachableSite (scanning ∅) shirt true)
     = Returned
         (mkProduct "p1" "https://www.myntra.com/shirt" 1000 None None None None None None
                    (Some "2024-05-01T09:00:03.150Z") (Some "Myntra") None None
                    (Some "2024-04-30T09:00:00.000Z") None).
Proof. vm_compute. split; reflexivity. Qed.

(** C10, as stated, fails: the shirt stored with [ecommercePlatform: false]
    is scraped three times, each reading is thrown away by the platform test
    of line 473, and the third [catch] throws at line 506: the promise
    rejects, 3900 ms after the start, and the handler of the settled results
    takes its [rejected] branch, keeps the record and counts a failure. *)
Lemma stored_boolean_platform_rejects :
  let r := processSingleProductStored calm (scanning shirtOnDisk)
                                      Cases.shirtUntyped true in
  result r = Thrown "TypeError: product.ecommercePlatform?.toLowerCase is not a function"
  /\ finishedAt r = t0 + 3900
  /\ sent r = []
  /\ forall reason,
       handleResults [fieldsOf Cases.shirtUntyped] [rejected reason] []
                     (mkCounters 0 0 0)
       = ([fieldsOf Cases.shirtUntyped], mkCounters 0 1 0).
Proof. vm_compute. repeat split; reflexivity. Qed.

End Scenarios.

(** ** Invariants of the merge *)

Section MergeInvariants.
Import JsMap JsMapFacts.

Lemma keys_set_eq {V} k (v : V) m :
  map fst (set k v m) = if has k m then map fst m else map fst m ++ [k].
Proof.
  induction m as [|[k0 v0] m IH]; simpl; [reflexivity|].
  destruct (String.eqb_spec k k0) as [->|Hne]; simpl; [reflexivity|].
  rewrite IH. destruct (has k m); reflexivity.
Qed.

Lemma nodup_keys_set {V} k (v : V) m :
  List.NoDup (map fst m) -> List.NoDup (map fst (set k v m)).
Proof.
  intros Hnd. rewrite keys_set_eq. destruct (has k m) eqn:Hk; [exact Hnd|].
  apply has_false_iff in Hk.
  apply NoDup_rev in Hnd. apply (Permutation_NoDup (l := k :: map fst m)).
  - apply Permutation_cons_append.
  - constructor; [exact Hk|]. apply NoDup_rev in Hnd. now rewrite rev_involutive in Hnd.
Qed.

Lemma nodup_keys_fold {V} (es : list (string * V)) : forall m,
  List.NoDup (map fst m) ->
  List.NoDup (map fst (fold_left (fun m e => set (fst e) (snd e) m) es m)).
Proof.
  induction es as [|e es IH]; simpl; intros m H; [exact H|].
  apply IH, nodup_keys_set, H.
Qed.

Lemma nodup_keys_ofEntries {V} (es : list (string * V)) :
  List.NoDup (map fst (ofEntries es)).
Proof. apply nodup_keys_fold. constructor. Qed.

Lemma keyed_set k v m : k = id v -> keyed m -> keyed (set k v m).
Proof.
  intros Hk Hm e He. destruct (in_set _ _ _ _ He) as [->|Hin]; [exact Hk | auto].
Qed.

Lemma keyed_ofEntries l : keyed (ofEntries (entriesOf l)).
Proof.
  unfold ofEntries.
  assert (G : forall es m, (forall e, In e es -> fst e = id (snd e)) -> keyed m ->
            keyed (fold_left (fun m e => set (fst e) (snd e) m) es m)).
  { induction es as [|e es IH]; simpl; intros m Hes Hm; [exact Hm|].
    apply IH; [auto|]. apply keyed_set; auto. }
  apply G.
  - intros e He. unfold entriesOf in He. apply in_map_iff in He as [p [<- _]]. reflexivity.
  - intros e [].
Qed.

Lemma in_delete {V} k (m : list (string * V)) e : In e (delete k m) -> In e m.
Proof.
  induction m as [|[k0 v0] m IH]; simpl; [auto|].
  destruct (String.eqb k k0); simpl; intuition.
Qed.

Lemma keys_delete_nodup {V} k (m : list (string * V)) :
  List.NoDup (map fst m) ->
  List.NoDup (map fst (delete k m))
  /\ forall k', In k' (map fst (delete k m)) <-> k' <> k /\ In k' (map fst m).
Proof.
  induction m as [|[k0 v0] m IH]; simpl; intros Hnd.
  - split; [constructor | intros k'; tauto].
  - inversion Hnd as [|? ? Hnin Hnd']; subst.
    destruct (String.eqb_spec k k0) as [->|Hne].
    + split; [exact Hnd'|]. intros k'. split.
      * intros Hin. split; [intros ->; auto | auto].
      * intros [Hne [Heq|Hin]]; [congruence | exact Hin].
    + destruct (IH Hnd') as [IH1 IH2]. simpl. split.
      * constructor; [|exact IH1]. intros Hin. apply IH2 in Hin. tauto.
      * intros k'. rewrite IH2. split.
        -- intros [<-|[H1 H2]]; auto.
        -- intros [H1 [H2|H2]]; auto.
Qed.

Lemma get_in_nodup {V} k (v : V) m :
  List.NoDup (map fst m) -> In (k, v) m -> get k m = Some v.
Proof.
  induction m as [|[k0 v0] m IH]; simpl; [tauto|]. intros Hnd Hin.
  inversion Hnd as [|? ? Hnin Hnd']; subst.
  destruct Hin as [[= -> ->]|Hin].
  - now rewrite String.eqb_refl.
  - destruct (String.eqb_spec k k0) as [->|Hne]; [|auto].
    exfalso. apply Hnin. apply in_map_iff. exists (k0, v). auto.
Qed.

(** The first loop: one product is pushed for each entry of the file, under
    the key of this entry, and the keys of these entries leave the map. *)
Lemma mergeCurrent_ids entries : forall productMap merged,
  keyed entries -> keyed productMap -> List.NoDup (map fst productMap) ->
  let '(rest', merged') := mergeCurrent entries productMap merged in
  map id merged' = map id merged ++ map fst entries
  /\ keyed rest' /\ List.NoDup (map fst rest')
  /\ forall k, In k (map fst rest') <-> In k (map fst productMap) /\ ~ In k (map fst entries).
Proof.
  induction entries as [|[i cur] rest IH]; intros pm merged Hke Hkp Hnd; cbn [mergeCurrent].
  - rewrite app_nil_r. split; [reflexivity|]. split; [exact Hkp|]. split; [exact Hnd|].
    intros k. simpl. tauto.
  - assert (Hrest : keyed rest) by (intros e He; apply Hke; now right).
    assert (Hi : i = id cur) by (apply (Hke (i, cur)); now left).
    destruct (has i pm) eqn:Hhas.
    + destruct (has_get _ _ Hhas) as [s Hs]. rewrite Hs.
      assert (His : i = id s) by (apply (Hkp (i, s)); now apply get_some_in).
      destruct (keys_delete_nodup i pm Hnd) as [Hnd' Hkeys'].
      assert (Hkp' : keyed (delete i pm)) by (intros e He; apply Hkp; eapply in_delete; eauto).
      specialize (IH (delete i pm) (merged ++ [s]) Hrest Hkp' Hnd').
      destruct (mergeCurrent rest (delete i pm) (merged ++ [s])) as [rest' merged'].
      destruct IH as (A & B & C & D).
      split; [|split; [exact B | split; [exact C | intros k; split]]].
      * rewrite A, map_app, <- app_assoc. simpl. now rewrite <- His.
      * intros Hk. apply D in Hk as [H1 H2]. apply Hkeys' in H1. split; [tauto|].
        simpl. intros [Heq|Hin]; [destruct H1; congruence | auto].
      * intros [H1 H2]. apply D. split.
        -- apply Hkeys'. split; [intros ->; apply H2; now left | exact H1].
        -- intros Hin. apply H2. now right.
    + specialize (IH pm (merged ++ [cur]) Hrest Hkp Hnd).
      destruct (mergeCurrent rest pm (merged ++ [cur])) as [rest' merged'].
      destruct IH as (A & B & C & D).
      split; [|split; [exact B | split; [exact C | intros k; split]]].
      * rewrite A, map_app, <- app_assoc. simpl. now rewrite <- Hi.
      * intros Hk. apply D in Hk as [H1 H2]. split; [exact H1|].
        simpl. intros [Heq|Hin]; [|auto].
        subst k. apply has_false_iff in Hhas. auto.
      * intros [H1 H2]. apply D. split; [exact H1|]. intros Hin. apply H2. now right.
Qed.

Lemma keyed_ids m : keyed m -> map id (map snd m) = map fst m.
Proof.
  intros Hk. induction m as [|e m IH]; simpl; [reflexivity|].
  rewrite IH by (intros e' He'; apply Hk; now right).
  f_equal. symmetry. apply Hk. now left.
Qed.

Lemma mergeProducts_ids currentProducts products :
  exists leftover,
    map id (mergeProducts currentProducts products)
    = map fst (ofEntries (entriesOf currentProducts)) ++ leftover
    /\ List.NoDup leftover
    /\ forall k, In k leftover <-> In k (map id products) /\ ~ In k (map id currentProducts).
Proof.
  unfold mergeProducts. fold (entriesOf products). fold (entriesOf currentProducts).
  pose proof (mergeCurrent_ids (ofEntries (entriesOf currentProducts))
                (ofEntries (entriesOf products)) []
                (keyed_ofEntries _) (keyed_ofEntries _) (nodup_keys_ofEntries _)) as H.
  destruct (mergeCurrent _ _ _) as [rest' merged]. destruct H as (A & B & C & D).
  exists (map fst rest'). split; [|split].
  - rewrite map_app, A, keyed_ids by exact B. reflexivity.
  - exact C.
  - intros k. rewrite D, !keys_ofEntries, !keys_entriesOf. reflexivity.
Qed.

(** X1. The list that [saveProducts] writes never holds an id twice. *)
Theorem merged_ids_are_unique (currentProducts products : list Product) :
  List.NoDup (map id (mergeProducts currentProducts products)).
Proof.
  destruct (mergeProducts_ids currentProducts products) as (leftover & -> & Hnd & Hleft).
  apply List.NoDup_app; [apply nodup_keys_ofEntries | exact Hnd |].
  intros k Hk Hin. apply Hleft in Hin as [_ Hnin]. apply Hnin.
  rewrite <- keys_entriesOf. now apply keys_ofEntries.
Qed.

(** X2. It holds exactly the ids of the file and of the scan result. *)
Theorem merged_ids_are_the_union (currentProducts products : list Product) (i : string) :
  In i (map id (mergeProducts currentProducts products))
  <-> In i (map id currentProducts) \/ In i (map id products).
Proof.
  destruct (mergeProducts_ids currentProducts products) as (leftover & -> & Hnd & Hleft).
  rewrite in_app_iff, keys_ofEntries, keys_entriesOf, Hleft.
  destruct (in_dec string_dec i (map id currentProducts)); tauto.
Qed.

Lemma mergeCurrent_scanned entries : forall productMap merged k x,
  List.NoDup (map fst productMap) -> In (k, x) productMap ->
  In x (snd (mergeCurrent entries productMap merged))
  \/ In (k, x) (fst (mergeCurrent entries productMap merged)).
Proof.
  induction entries as [|[i cur] rest IH]; intros pm merged k x Hnd Hin; cbn [mergeCurrent].
  - now right.
  - destruct (has i pm) eqn:Hhas; [|apply IH; auto].
    destruct (get i pm) as [s|] eqn:Hs; [|apply IH; auto].
    destruct (String.eqb_spec k i) as [->|Hne].
    + left. rewrite (get_in_nodup _ _ _ Hnd Hin) in Hs. injection Hs as <-.
      apply mergeCurrent_keeps. apply in_or_app. right. now left.
    + apply IH; [apply keys_delete_nodup, Hnd | now apply in_delete_ne].
Qed.

(** X3. With unique ids in the scan result, every record of the scan result
    is written as the scan left it. *)
Theorem scanned_records_are_written (currentProducts products : list Product) (x : Product) :
  List.NoDup (map id products) ->
  In x products ->
  In x (mergeProducts currentProducts products).
Proof.
  intros Hnd Hin. unfold mergeProducts.
  fold (entriesOf products). fold (entriesOf currentProducts).
  assert (Hkeys : List.NoDup (map fst (entriesOf products)))
    by (rewrite keys_entriesOf; exact Hnd).
  rewrite (ofEntries_nodup (entriesOf products)) by exact Hkeys.
  assert (Hx : In (id x, x) (entriesOf products))
    by (unfold entriesOf; apply in_map_iff; eauto).
  destruct (mergeCurrent_scanned (ofEntries (entriesOf currentProducts))
              (entriesOf products) [] (id x) x Hkeys Hx) as [H|H];
    destruct (mergeCurrent _ _ _) as [rest' merged]; cbn [fst snd] in H;
    apply in_or_app; [now left | right].
  apply in_map_iff. exists (id x, x). auto.
Qed.

Lemma entriesOf_values l : map snd (entriesOf l) = l.
Proof. unfold entriesOf. rewrite map_map. cbn. apply map_id. Qed.

Section Filtered.
Context (P : Product -> Prop) `{forall x, Decision (P x)}.

Lemma in_ids_filter l i : In i (map id (filter P l)) -> In i (map id l).
Proof.
  intros Hin. apply in_map_iff in Hin as [q [Hq Hin]].
  apply list_elem_of_In, list_elem_of_filter in Hin as [_ Hin].
  apply in_map_iff. exists q. split; [exact Hq | now apply list_elem_of_In].
Qed.

Lemma nodup_ids_filter l :
  List.NoDup (map id l) -> List.NoDup (map id (filter P l)).
Proof.
  induction l as [|p l IH]; intros Hnd; [constructor|].
  inversion Hnd as [|? ? Hnin Hnd']; subst.
  rewrite filter_cons. destruct (decide (P p)); [|auto].
  cbn [map]. constructor; [|auto]. intros Hin. apply Hnin. eapply in_ids_filter; eauto.
Qed.

(** A part of the file, merged back into the file, gives the file. *)
Lemma mergeCurrent_filter : forall l merged,
  List.NoDup (map id l) ->
  mergeCurrent (entriesOf l) (entriesOf (filter P l)) merged = ([], merged ++ l).
Proof.
  induction l as [|p l IH]; intros merged Hnd.
  - cbn. now rewrite app_nil_r.
  - inversion Hnd as [|? ? Hnin Hnd']; subst.
    rewrite filter_cons. cbn [entriesOf map mergeCurrent]. fold (entriesOf l).
    destruct (decide (P p)); cbn [entriesOf map has get delete];
      fold (entriesOf (filter P l)).
    + rewrite String.eqb_refl. rewrite IH by exact Hnd'. now rewrite <- app_assoc.
    + assert (Hhas : has (id p) (entriesOf (filter P l)) = false).
      { apply has_false_iff. rewrite keys_entriesOf. intros Hin. apply Hnin.
        eapply in_ids_filter; eauto. }
      rewrite Hhas, IH by exact Hnd'. now rewrite <- app_assoc.
Qed.

Lemma merge_filter l :
  List.NoDup (map id l) -> mergeProducts l (filter P l) = l.
Proof.
  intros Hnd. unfold mergeProducts.
  fold (entriesOf (filter P l)). fold (entriesOf l).
  rewrite (ofEntries_nodup (entriesOf l)) by (rewrite keys_entriesOf; exact Hnd).
  rewrite (ofEntries_nodup (entriesOf (filter P l)))
    by (rewrite keys_entriesOf; apply nodup_ids_filter, Hnd).
  rewrite mergeCurrent_filter by exact Hnd. cbn. now rewrite app_nil_r.
Qed.

End Filtered.



Lemma merge_into_empty u : List.NoDup (map id u) -> mergeProducts [] u = u.
Proof.
  intros Hnd. unfold mergeProducts. fold (entriesOf u).
  rewrite (ofEntries_nodup (entriesOf u)) by (rewrite keys_entriesOf; exact Hnd).
  cbn. apply entriesOf_values.
Qed.

End MergeInvariants.

(** ** Locks, loads and saves *)

Section StoreExtras.
Variable env : Env.

(** What [loadProducts] does, by the state of the file. *)
Lemma loadProducts_cases platform w :
  match productFiles w !! getDataFilePath platform with
  | Some (ProductsJson l) => loadProducts env platform w = (w, l)
  | Some Unparseable => loadProducts env platform w = (w, [])
  | None =>
      loadProducts env platform w
      = if write_fails env (now w) (getDataFilePath platform) then (w, [])
        else (with_productFiles
                (<[getDataFilePath platform := ProductsJson []]> (productFiles w)) w, [])
  end.
Proof.
  unfold loadProducts. cbn [loadProducts_loop].
  destruct (productFiles w !! getDataFilePath platform) as [[l|]|]; try reflexivity.
  destruct (write_fails env (now w) (getDataFilePath platform)); reflexivity.
Qed.

(** [loadProducts] leaves the files that exist as they are. *)
Lemma loadProducts_keeps platform w path content :
  productFiles w !! path = Some content ->
  productFiles (fst (loadProducts env platform w)) !! path = Some content.
Proof.
  intros Hpath. pose proof (loadProducts_cases platform w) as H.
  destruct (productFiles w !! getDataFilePath platform) as [[l|]|] eqn:Hfile;
    try (rewrite H; exact Hpath).
  rewrite H. destruct (write_fails env (now w) (getDataFilePath platform)); [exact Hpath|].
  cbn. rewrite lookup_insert_ne; [exact Hpath|]. intros <-. congruence.
Qed.

(** X4. [loadProducts] never touches a file that exists, and loading twice
    is loading once. *)
Theorem load_is_idempotent (platform : string) (w : World) :
  let w1 := fst (loadProducts env platform w) in
  loadProducts env platform w1 = (w1, snd (loadProducts env platform w))
  /\ forall path content,
       productFiles w !! path = Some content -> productFiles w1 !! path = Some content.
Proof.
  pose proof (loadProducts_cases platform w) as H.
  destruct (productFiles w !! getDataFilePath platform) as [[l|]|] eqn:Hfile.
  - rewrite H. cbn. split; [|auto].
    pose proof (loadProducts_cases platform w) as H'. now rewrite Hfile in H'.
  - rewrite H. cbn. split; [|auto].
    pose proof (loadProducts_cases platform w) as H'. now rewrite Hfile in H'.
  - rewrite H. destruct (write_fails env (now w) (getDataFilePath platform)) eqn:Hw; cbn.
    + split; [|auto].
      pose proof (loadProducts_cases platform w) as H'. rewrite Hfile, Hw in H'. exact H'.
    + split.
      * pose proof (loadProducts_cases platform
                      (with_productFiles
                         (<[getDataFilePath platform := ProductsJson []]> (productFiles w)) w))
          as H'.
        cbn [productFiles with_productFiles] in H'. rewrite lookup_insert_eq in H'. exact H'.
      * intros path content Hpath. rewrite lookup_insert_ne; [exact Hpath|].
        intros <-. congruence.
Qed.

(** What [saveProducts] does when its lock is free. *)
Lemma saveProducts_cases platform products w :
  locked ("file_" +:+ platform) w = false ->
  let path := getDataFilePath platform in
  let unlocked := with_fileLocks (<["file_" +:+ platform := false]>
                                    (<["file_" +:+ platform := true]> (fileLocks w))) w in
  match productFiles w !! path with
  | Some Unparseable =>
      saveProducts env platform products w = (unlocked, Thrown "Unexpected token in JSON")
  | current =>
      saveProducts env platform products w
      = if write_fails env (now w) path then (unlocked, Thrown "ENOSPC: write failed")
        else (with_productFiles
                (<[path := ProductsJson
                     (mergeProducts
                        (match current with Some (ProductsJson l) => l | _ => [] end)
                        products)]> (productFiles w)) unlocked,
              Returned true)
  end.
Proof.
  intros Hfree. cbv zeta. rewrite saveProducts_unlocked by exact Hfree.
  unfold saveProducts_locked. cbn [productFiles with_fileLocks now].
  destruct (productFiles w !! getDataFilePath platform) as [[l|]|]; try reflexivity;
    destruct (write_fails env (now w) (getDataFilePath platform)); reflexivity.
Qed.

(** X5. Whatever happens in [saveProducts] (it writes, the file does not
    parse, the write fails), its lock is free again afterwards and no time
    has passed; a save that throws leaves every product file as it was. *)
Theorem save_releases_its_lock (platform : string) (products : list Product) (w : World) :
  locked ("file_" +:+ platform) w = false ->
  let w' := fst (saveProducts env platform products w) in
  locked ("file_" +:+ platform) w' = false
  /\ now w' = now w
  /\ (forall reason, snd (saveProducts env platform products w) = Thrown reason ->
        productFiles w' = productFiles w).
Proof.
  intros Hfree. pose proof (saveProducts_cases platform products w Hfree) as H.
  cbv zeta in H |- *.
  assert (Hunlock : forall f, locked ("file_" +:+ platform)
            (with_productFiles f (with_fileLocks (<["file_" +:+ platform := false]>
               (<["file_" +:+ platform := true]> (fileLocks w))) w)) = false).
  { intros f. unfold locked. cbn. now rewrite lookup_insert_eq. }
  assert (Hunlock' : locked ("file_" +:+ platform)
            (with_fileLocks (<["file_" +:+ platform := false]>
               (<["file_" +:+ platform := true]> (fileLocks w))) w) = false).
  { unfold locked. cbn. now rewrite lookup_insert_eq. }
  destruct (productFiles w !! getDataFilePath platform) as [[l|]|];
    try destruct (write_fails env (now w) (getDataFilePath platform));
    rewrite H; cbn [fst snd]; repeat split; auto; try discriminate.
Qed.

(** The lock stays held while the handler polls it. *)
Lemma acquireLock_loop_held lockKey startTime : forall polls w,
  locked lockKey w = true ->
  now w - startTime = 10000 - 100 * Z.of_nat polls ->
  exists w',
    acquireLock_loop env polls lockKey startTime 10000 100 w = (w', Returned false)
    /\ now w' = startTime + 10000 /\ suspended w w'.
Proof.
  induction polls as [|polls IH]; intros w Hlocked Htime; cbn [acquireLock_loop].
  - rewrite Htime. cbn. exists w.
    split; [reflexivity | split; [lia | apply suspended_refl]].
  - assert (Hlt : (now w - startTime <? 10000) = true) by (apply Z.ltb_lt; lia).
    rewrite Hlt, Hlocked. cbn [negb]. unfold bind, sleep.
    pose proof (elapse_suspended env (now w + 100) w) as S.
    destruct (IH (elapse env (now w + 100) w)) as (w' & Hrun & Hnow & S').
    + unfold locked. rewrite (susp_locks _ _ S). exact Hlocked.
    + cbn [elapse now with_now]. lia.
    + exists w'. rewrite Hrun. split; [reflexivity | split; [exact Hnow|]].
      eapply suspended_trans; eauto.
Qed.

(** X6. A lock that is held and never released makes [saveProducts] give up:
    it answers [false] after 10000 ms, without throwing and without
    touching the product files. *)
Theorem save_gives_up_on_a_held_lock (platform : string) (products : list Product)
    (w : World) :
  locked ("file_" +:+ platform) w = true ->
  let w' := fst (saveProducts env platform products w) in
  snd (saveProducts env platform products w) = Returned false
  /\ now w' = now w + 10000
  /\ productFiles w' = productFiles w
  /\ locked ("file_" +:+ platform) w' = true.
Proof.
  intros Hlocked. unfold saveProducts, bind, acquireLock.
  destruct (acquireLock_loop_held ("file_" +:+ platform) (now w) 100 w Hlocked)
    as (w' & Hrun & Hnow & S); [lia|].
  rewrite Hrun. cbn. split; [reflexivity|]. split; [lia|]. split; [apply S|].
  unfold locked. rewrite (susp_locks _ _ S). exact Hlocked.
Qed.

(** X7. Saving a list without repeated ids into a partition that is missing
    or empty and loading the partition again gives the list back. *)
Theorem save_then_load (platform : string) (products : list Product) (w : World) :
  locked ("file_" +:+ platform) w = false ->
  productFiles w !! getDataFilePath platform = None
  \/ productFiles w !! getDataFilePath platform = Some (ProductsJson []) ->
  write_fails env (now w) (getDataFilePath platform) = false ->
  List.NoDup (map id products) ->
  let w' := fst (saveProducts env platform products w) in
  snd (saveProducts env platform products w) = Returned true
  /\ loadProducts env platform w' = (w', products).
Proof.
  intros Hfree Hfile Hwrite Hnd.
  pose proof (saveProducts_cases platform products w Hfree) as H. cbv zeta in H |- *.
  assert (Hload : forall w0,
            productFiles w0 !! getDataFilePath platform = Some (ProductsJson products) ->
            loadProducts env platform w0 = (w0, products)).
  { intros w0 H0. pose proof (loadProducts_cases platform w0) as H'. now rewrite H0 in H'. }
  destruct Hfile as [Hfile|Hfile]; rewrite Hfile, Hwrite in H; rewrite H; cbn [fst snd];
    (split; [reflexivity|]); apply Hload;
    cbn [productFiles with_productFiles with_fileLocks];
    rewrite lookup_insert_eq, merge_into_empty by exact Hnd; reflexivity.
Qed.

(** One turn of the cleanup keeps a file with unique ids as it is. *)
Lemma cleanupLoop_keeps nowT path l :
  List.NoDup (map id l) ->
  forall ps removedCount w,
    locks_free w ->
    productFiles w !! path = Some (ProductsJson l) ->
    productFiles (fst (cleanupLoop env ps nowT removedCount w)) !! path
    = Some (ProductsJson l).
Proof.
  intros Hnd. induction ps as [|platform ps IH]; intros removedCount w Hfree Hpath;
    cbn [cleanupLoop]; [exact Hpath|].
  unfold bind at 1.
  pose proof (loadProducts_keeps platform w _ _ Hpath) as Hkeep.
  pose proof (loadProducts_quiet env platform w) as Q1.
  pose proof (loadProducts_cases platform w) as Hcases.
  destruct (loadProducts env platform w) as [w1 products] eqn:Hload. cbn [fst] in *.
  destruct (_ <? _)%nat eqn:Hfewer; [|apply IH; [apply Q1, Hfree | exact Hkeep]].
  unfold bind at 1.
  (* something was filtered out, so the file was read *)
  destruct (productFiles w !! getDataFilePath platform) as [[l'|]|] eqn:Hfile.
  2: { injection Hcases as -> ->. rewrite filter_nil in Hfewer. discriminate. }
  2: { destruct (write_fails env (now w) (getDataFilePath platform));
       injection Hcases as -> ->; rewrite filter_nil in Hfewer; discriminate. }
  injection Hcases as -> ->.
  pose proof (saveProducts_cases platform (filter (isActive env nowT) l') w
                (Hfree _)) as Hsave.
  cbv zeta in Hsave. rewrite Hfile in Hsave.
  pose proof (saveProducts_quiet env platform (filter (isActive env nowT) l') w) as Q2.
  destruct (saveProducts env platform _ w) as [w2 r] eqn:Hs.
  specialize (Q2 _ _ Hfree eq_refl).
  destruct (write_fails env (now w) (getDataFilePath platform)).
  - injection Hsave as -> ->. cbn. exact Hpath.
  - injection Hsave as -> ->.
    apply IH; [apply Q2, Hfree|]. cbn [productFiles with_productFiles with_fileLocks].
    destruct (decide (getDataFilePath platform = path)) as [<-|Hne].
    + rewrite lookup_insert_eq. rewrite Hfile in Hpath. injection Hpath as ->.
      now rewrite merge_filter.
    + now rewrite lookup_insert_ne.
Qed.

(** X8. The retention pass removes nothing: what it filters out is merged
    back by [saveProducts], so a product file with unique ids holds the same
    list after [cleanupOldProducts] as before. *)
Theorem cleanup_removes_nothing (w : World) (path : string) (l : list Product) :
  locks_free w ->
  productFiles w !! path = Some (ProductsJson l) ->
  List.NoDup (map id l) ->
  productFiles (fst (cleanupOldProducts env w)) !! path = Some (ProductsJson l).
Proof.
  intros Hfree Hpath Hnd. unfold cleanupOldProducts, bind, read.
  now apply cleanupLoop_keeps.
Qed.

End StoreExtras.

(** ** Comparisons of numbers *)

Section Numbers.

Lemma SFcompare_zero_lt y : SFcompare (S754_zero false) y = Some Lt ->
  SFcompare y (S754_zero false) = Some Gt /\ SFcompare y y = Some Eq.
Proof.
  destruct y as [s|s| |s m e]; cbn; try discriminate.
  - destruct s; [discriminate|]. auto.
  - destruct s; [discriminate|]. intros _. split; [reflexivity|].
    rewrite Z.compare_refl, Pos.compare_refl. reflexivity.
Qed.

Lemma positive_is_truthy x : PrimFloat.ltb 0 x = true -> Js.truthy x = true.
Proof.
  rewrite FloatAxioms.ltb_spec. unfold SFltb, Js.truthy.
  rewrite !FloatAxioms.eqb_spec. unfold SFeqb.
  change (Prim2SF 0) with (S754_zero false).
  destruct (SFcompare (S754_zero false) (Prim2SF x)) as [[| |]|] eqn:H; try discriminate.
  intros _. destruct (SFcompare_zero_lt _ H) as [-> ->]. reflexivity.
Qed.

Lemma target_is_truthy p d :
  PrimFloat.ltb 0 p = true -> PrimFloat.leb p d = true -> Js.truthy d = true.
Proof.
  rewrite FloatAxioms.ltb_spec, FloatAxioms.leb_spec. unfold SFltb, SFleb, Js.truthy.
  rewrite !FloatAxioms.eqb_spec. unfold SFeqb.
  change (Prim2SF 0) with (S754_zero false).
  destruct (Prim2SF p) as [s|s| |s m e]; cbn; try discriminate;
    destruct s; try discriminate; intros _;
    destruct (Prim2SF d) as [s'|s'| |s' m' e']; cbn; try discriminate;
    destruct s'; try discriminate; try reflexivity; intros _;
    rewrite Z.compare_refl, Pos.compare_refl; reflexivity.
Qed.

Lemma equal_is_not_less x y : PrimFloat.eqb x y = true -> PrimFloat.ltb x y = false.
Proof.
  rewrite FloatAxioms.eqb_spec, FloatAxioms.ltb_spec. unfold SFeqb, SFltb.
  destruct (SFcompare _ _) as [[| |]|]; try discriminate; reflexivity.
Qed.

End Numbers.

(** ** What the engine sends *)

Section EngineExtras.
Variable env : Env.

Lemma strict_eq_not_less a b :
  Js.strict_eq a b = true -> PrimFloat.ltb (num a) (num b) = false.
Proof.
  destruct a as [x|], b as [y|]; cbn; try discriminate.
  - apply equal_is_not_less.
  - intros _. reflexivity.
Qed.

(** The engine on a product below its target that was not notified today. *)
Lemma engine_new_day (product previousProduct : Product) (t : Z) :
  Js.truthy_str (name product) = true ->
  Js.truthy_num (currentPrice product) = true ->
  Js.truthy (desiredPrice product) = true ->
  isBelow product = Some true ->
  Js.truthy_str (lastNotifiedDate product) = false
  \/ isToday env t (orEmpty (lastNotifiedDate product)) = false ->
  processNotifications env product previousProduct t
  = match newDayMessage product previousProduct with
    | Some message =>
        let ok := snd (telegram env t message) in
        mkTask (if ok then with_notified (currentPrice product)
                                         (Some (toISOString env t)) product
                else keptNotified product)
               (t + Z.of_N (fst (telegram env t message)))
               [mkSent t message ok]
    | None => mkTask (keptNotified product) t []
    end.
Proof.
  intros Hname Hprice Hdesired Hbelow Hnew.
  unfold processNotifications, newDayMessage, keptNotified, sendTelegramNotification.
  rewrite Hname, Hprice, Hdesired, Hbelow. cbn [negb orb Js.truthy_bool].
  assert (HnewDay : negb (Js.truthy_str (lastNotifiedDate product))
                    || negb (isToday env t (orEmpty (lastNotifiedDate product))) = true).
  { destruct Hnew as [-> | ->]; [reflexivity | apply orb_true_r]. }
  rewrite HnewDay. cbn [negb]. rewrite andb_false_r, andb_true_r.
  destruct (Js.strict_eq (currentPrice previousProduct) (currentPrice product)).
  - destruct (telegram env t _) as [latency ok]. reflexivity.
  - destruct (Js.truthy_str (lastNotifiedDate product)) eqn:Hd; cbn [negb orb].
    + destruct Hnew as [Hnew|Hnew]; [discriminate|]. rewrite Hnew. cbn [negb].
      rewrite andb_true_r.
      destruct (Js.strict_eq (currentPrice product) (lastNotifiedPrice product)) eqn:Heq;
        cbn [negb].
      * rewrite (strict_eq_not_less _ _ Heq), andb_false_r. reflexivity.
      * destruct (telegram env t _) as [latency ok]. reflexivity.
    + destruct (telegram env t _) as [latency ok]. reflexivity.
Qed.

Lemma nonempty_truthy s : s <> EmptyString -> Js.truthy_str (Some s) = true.
Proof. destruct s; [congruence | reflexivity]. Qed.

Lemma truthy_not_zero x : Js.truthy x = true -> PrimFloat.eqb x 0 = false.
Proof. unfold Js.truthy. intros H. apply andb_true_iff in H as [H _]. now apply negb_true_iff. Qed.

(** A price above zero is not the reading that the Amazon guard rejects. *)
Lemma positive_price_is_valid scrapedData p :
  price scrapedData = Some p -> PrimFloat.ltb 0 p = true ->
  invalidPrice scrapedData = false.
Proof.
  intros Hp Hpos. unfold invalidPrice. rewrite Hp. cbn.
  rewrite (positive_is_truthy _ Hpos), (truthy_not_zero _ (positive_is_truthy _ Hpos)).
  reflexivity.
Qed.

(** X9. A scan that finds a product at or below its target (and above zero)
    when no notification went out today sends exactly one message: the daily
    update when the price is the one of the previous scan, a price alert
    when it is not and the product was never notified or is at another price
    than the notified one, and nothing when the price has come back to the
    notified price. The notified fields take the price and the time of the
    scan when Telegram accepts the message, and stay otherwise. *)
Theorem below_target_not_notified_today
    (w0 : World) (turns attempt maxRetries : nat)
    (product originalProduct : Product) (isFirstProduct : bool) (t : Z)
    (latency : N) (scrapedData : ScrapedProductData) (p : float) :
  stopSeen env w0 t = false ->
  scrape env (scrapedAt attempt t) (url product) isFirstProduct
    = ScrapeReturns latency scrapedData ->
  productName scrapedData <> EmptyString ->
  price scrapedData = Some p ->
  PrimFloat.ltb 0 p = true ->
  PrimFloat.leb p (desiredPrice product) = true ->
  let t2 := scrapedAt attempt t + Z.of_N latency in
  Js.truthy_str (lastNotifiedDate product) = false
  \/ isToday env t2 (orEmpty (lastNotifiedDate product)) = false ->
  let updated := applyScrape env t2 product scrapedData in
  let r := attemptLoop env (S turns) attempt maxRetries w0 product originalProduct
                       isFirstProduct t in
  isBelow updated = Some true
  /\ match newDayMessage updated originalProduct with
     | Some message =>
         let ok := snd (telegram env t2 message) in
         sent r = [mkSent t2 message ok]
         /\ result r = Returned (if ok then with_notified (Some p)
                                                          (Some (toISOString env t2)) updated
                                 else keptNotified updated)
     | None => sent r = [] /\ result r = Returned (keptNotified updated)
     end.
Proof.
  intros Hstop Hscrape Hname Hprice Hpos Hle t2 Hnew updated r.
  assert (Hbelow : isBelow updated = Some true).
  { unfold updated, applyScrape. cbn [isBelow]. rewrite Hprice. cbn. now rewrite Hpos, Hle. }
  split; [exact Hbelow|].
  assert (Hengine := engine_new_day updated originalProduct t2).
  unfold r. cbn [attemptLoop]. rewrite Hstop. unfold attemptBody.
  rewrite Hscrape, (positive_price_is_valid _ _ Hprice Hpos), andb_false_r.
  fold t2. fold updated. cbn [result].
  rewrite Hengine.
  - change (currentPrice updated) with (price scrapedData). rewrite Hprice.
    destruct (newDayMessage updated originalProduct); cbn; split; reflexivity.
  - apply nonempty_truthy, Hname.
  - change (currentPrice updated) with (price scrapedData). rewrite Hprice.
    apply positive_is_truthy, Hpos.
  - eapply target_is_truthy; eauto.
  - exact Hbelow.
  - exact Hnew.
Qed.

(** X10. A scan that finds a price above the target clears the notification
    fields and sends nothing. *)
Theorem above_target_clears_notification
    (w0 : World) (turns attempt maxRetries : nat)
    (product originalProduct : Product) (isFirstProduct : bool) (t : Z)
    (latency : N) (scrapedData : ScrapedProductData) (p : float) :
  stopSeen env w0 t = false ->
  scrape env (scrapedAt attempt t) (url product) isFirstProduct
    = ScrapeReturns latency scrapedData ->
  productName scrapedData <> EmptyString ->
  price scrapedData = Some p ->
  PrimFloat.ltb 0 p = true ->
  PrimFloat.leb p (desiredPrice product) = false ->
  Js.truthy (desiredPrice product) = true ->
  let t2 := scrapedAt attempt t + Z.of_N latency in
  let r := attemptLoop env (S turns) attempt maxRetries w0 product originalProduct
                       isFirstProduct t in
  sent r = []
  /\ result r = Returned (with_notified None None (applyScrape env t2 product scrapedData))
  /\ isBelow (applyScrape env t2 product scrapedData) = Some false.
Proof.
  intros Hstop Hscrape Hname Hprice Hpos Hle Hdesired t2 r.
  unfold r. cbn [attemptLoop]. rewrite Hstop. unfold attemptBody.
  rewrite Hscrape, (positive_price_is_valid _ _ Hprice Hpos), andb_false_r.
  fold t2. cbn [result]. unfold processNotifications.
  cbn [applyScrape name currentPrice desiredPrice isBelow].
  rewrite (nonempty_truthy _ Hname), Hprice, Hdesired. cbn [Js.truthy_num Js.gt Js.le].
  rewrite (positive_is_truthy _ Hpos), Hpos, Hle. cbn. repeat split; reflexivity.
Qed.

End EngineExtras.

(** ** One product: what a scan writes and sends *)

Section ScanExtras.
Variable env : Env.

Lemma not_truthy_not_positive x : Js.truthy x = false -> PrimFloat.ltb 0 x = false.
Proof.
  intros H. destruct (PrimFloat.ltb 0 x) eqn:Hpos; [|reflexivity].
  rewrite (positive_is_truthy _ Hpos) in H. discriminate.
Qed.

Lemma invalidPrice_falsy scrapedData :
  invalidPrice scrapedData = true ->
  Js.truthy_num (price scrapedData) = false /\ Js.gt (price scrapedData) 0 = false.
Proof.
  unfold invalidPrice. destruct (price scrapedData) as [p|]; cbn; [|auto].
  intros H. assert (Hp : Js.truthy p = false).
  { destruct (Js.truthy p) eqn:Ht; [|reflexivity]. cbn in H.
    rewrite (truthy_not_zero _ Ht) in H. discriminate. }
  split; [exact Hp | apply not_truthy_not_positive, Hp].
Qed.

(** X11. A reading without a price (absent, zero or NaN): the record of an
    Amazon product comes back untouched, at once and without a retry; for any
    other platform the reading is recorded with [isBelow] false, the
    notification fields are left as they were and nothing is sent. *)
Theorem reading_without_price
    (w0 : World) (turns attempt maxRetries : nat)
    (product originalProduct : Product) (isFirstProduct : bool) (t : Z)
    (latency : N) (scrapedData : ScrapedProductData) :
  stopSeen env w0 t = false ->
  scrape env (scrapedAt attempt t) (url product) isFirstProduct
    = ScrapeReturns latency scrapedData ->
  invalidPrice scrapedData = true ->
  let t2 := scrapedAt attempt t + Z.of_N latency in
  let r := attemptLoop env (S turns) attempt maxRetries w0 product originalProduct
                       isFirstProduct t in
  let recorded := applyScrape env t2 product scrapedData in
  result r = Returned (if isAmazon product then product else recorded)
  /\ finishedAt r = t2 /\ sent r = []
  /\ isBelow recorded = Some false
  /\ lastNotifiedPrice recorded = lastNotifiedPrice product
  /\ lastNotifiedDate recorded = lastNotifiedDate product.
Proof.
  intros Hstop Hscrape Hinvalid t2 r recorded.
  destruct (invalidPrice_falsy _ Hinvalid) as [Hfalsy Hgt].
  assert (Hrec : isBelow recorded = Some false).
  { unfold recorded, applyScrape. cbn [isBelow]. now rewrite Hgt. }
  unfold r. cbn [attemptLoop]. rewrite Hstop. unfold attemptBody.
  rewrite Hscrape, Hinvalid, andb_true_r. fold t2.
  destruct (isAmazon product).
  - cbn. repeat split; try reflexivity. exact Hrec.
  - cbn [result]. fold recorded. unfold processNotifications.
    change (currentPrice recorded) with (price scrapedData).
    rewrite Hfalsy. cbn [negb orb]. rewrite orb_true_r. cbn.
    repeat split; try reflexivity. exact Hrec.
Qed.

(** What the engine sends. *)
Lemma engine_messages product previousProduct t :
  let r := processNotifications env product previousProduct t in
  (length (sent r) <= 1)%nat
  /\ forall s, In s (sent r) ->
       sentAt s = t
       /\ messageProduct (sentMessage s) = Some product
       /\ isBelow product = Some true
       /\ (if delivered s
           then result r = with_notified (currentPrice product) (Some (toISOString env t)) product
           else result r = keptNotified product).
Proof.
  cbv zeta. unfold processNotifications, sendTelegramNotification, keptNotified.
  destruct (negb (Js.truthy_str (name product)) || negb (Js.truthy_num (currentPrice product))
            || negb (Js.truthy (desiredPrice product))).
  { cbn. split; [lia | tauto]. }
  destruct (isBelow product) as [[|]|] eqn:Hbelow; cbn [Js.truthy_bool negb];
    try (cbn; split; [lia | tauto]).
  repeat (cbn [result sent finishedAt];
          match goal with
          | |- context [let '(_, _) := ?x in _] => destruct x as [? []]
          | |- context [if ?b then _ else _] => destruct b
          end);
    cbn [result sent length In].
  all: split; [lia|]; intros s Hs; try tauto.
  all: destruct Hs as [<- | []]; cbn; repeat split; reflexivity.

Qed.

Lemma with_notified_identity a b p : sameIdentity (with_notified a b p) p.
Proof. repeat split; reflexivity. Qed.

Lemma sameIdentity_refl p : sameIdentity p p.
Proof. repeat split; reflexivity. Qed.

Lemma sameIdentity_trans p q r : sameIdentity p q -> sameIdentity q r -> sameIdentity p r.
Proof.
  unfold sameIdentity. intros (?&?&?&?&?&?) (?&?&?&?&?&?).
  repeat split; congruence.
Qed.

(** What one attempt answers: the product as it was, or the scraped record
    with the notification fields that the engine chose. *)
Lemma attemptBody_shape attempt product originalProduct isFirstProduct t :
  let r := attemptBody env attempt product originalProduct isFirstProduct t in
  match result r with
  | Thrown _ => sent r = []
  | Returned p =>
      (p = product /\ sent r = [])
      \/ exists t2 scrapedData notifiedPrice notifiedDate,
           let updated := applyScrape env t2 product scrapedData in
           p = with_notified notifiedPrice notifiedDate updated
           /\ (length (sent r) <= 1)%nat
           /\ forall s, In s (sent r) ->
                sentAt s = t2 /\ messageProduct (sentMessage s) = Some updated
                /\ isBelow updated = Some true
                /\ (if delivered s
                    then p = with_notified (currentPrice updated)
                                           (Some (toISOString env t2)) updated
                    else p = keptNotified updated)
  end.
Proof.
  cbv zeta. unfold attemptBody.
  destruct (scrape env _ _ _) as [latency reason | latency scrapedData]; [reflexivity|].
  destruct (isAmazon product && invalidPrice scrapedData); [left; split; reflexivity|].
  cbn [result sent]. right.
  set (t2 := scrapedAt attempt t + Z.of_N latency).
  destruct (engine_result_shape env (applyScrape env t2 product scrapedData)
              originalProduct t2) as [np [nd Hshape]].
  exists t2, scrapedData, np, nd. cbv zeta.
  split; [exact Hshape|].
  exact (engine_messages (applyScrape env t2 product scrapedData) originalProduct t2).
Qed.

Lemma with_notified_back a b t product scrapedData :
  with_notified (lastNotifiedPrice product) (lastNotifiedDate product)
    (with_notified a b (applyScrape env t product scrapedData))
  = applyScrape env t product scrapedData.
Proof. reflexivity. Qed.

Lemma attemptLoop_shape (w0 : World) (product originalProduct : Product)
    (isFirstProduct : bool) (maxRetries : nat) :
  forall (turns attempt : nat) (t : Z),
  let r := attemptLoop env turns attempt maxRetries w0 product originalProduct
                       isFirstProduct t in
  exists p, result r = Returned p
    /\ sameIdentity p product
    /\ (length (sent r) <= 1)%nat
    /\ forall s, In s (sent r) ->
         isBelow p = Some true
         /\ messageProduct (sentMessage s)
            = Some (with_notified (lastNotifiedPrice product) (lastNotifiedDate product) p)
         /\ lastChecked p = Some (toISOString env (sentAt s))
         /\ (if delivered s
             then lastNotifiedPrice p = currentPrice p
                  /\ lastNotifiedDate p = Some (toISOString env (sentAt s))
             else lastNotifiedPrice p
                  = (if Js.truthy_num (lastNotifiedPrice product)
                     then lastNotifiedPrice product else None)
                  /\ lastNotifiedDate p
                     = (if Js.truthy_str (lastNotifiedDate product)
                        then lastNotifiedDate product else None)).
Proof.
  induction turns as [|turns IH]; intros attempt t; cbn [attemptLoop]; cbv zeta.
  - eexists. split; [reflexivity|]. cbn. repeat split; try reflexivity; try lia; tauto.
  - destruct (stopSeen env w0 t).
    { exists product. cbn. split; [reflexivity|]. split; [apply sameIdentity_refl|].
      split; [lia | tauto]. }
    assert (Hbody := attemptBody_shape attempt product originalProduct isFirstProduct t).
    cbv zeta in Hbody.
    destruct (result (attemptBody env attempt product originalProduct isFirstProduct t))
      as [p|e] eqn:Hres.
    + exists p. split; [exact Hres|].
      destruct Hbody as [[-> Hsent] | (t2 & sd & np & nd & -> & Hlen & Hmsg)].
      * rewrite Hsent. cbn. split; [apply sameIdentity_refl|]. split; [lia | tauto].
      * split; [repeat split; reflexivity|]. split; [exact Hlen|].
        intros s Hs. destruct (Hmsg s Hs) as (Hat & Hm & Hb & Hd).
        rewrite with_notified_back. subst t2.
        split; [exact Hb|]. split; [exact Hm|]. split; [reflexivity|].
        destruct (delivered s).
        -- rewrite Hd. split; reflexivity.
        -- rewrite Hd. split; reflexivity.
    + rewrite Hbody.
      destruct (attempt =? maxRetries)%nat.
      * destruct (isAmazon product); eexists; (split; [reflexivity|]); cbn;
          (split; [repeat split; reflexivity|]); (split; [lia | tauto]).
      * cbn [result sent app]. apply IH.
Qed.

(** X12. A scan of one product never writes its id, url, target price, image,
    date of addition or offers, whatever the scraper and Telegram answer and
    whenever a stop arrives. *)
Theorem scan_keeps_identity (w0 : World) (product : Product) (isFirstProduct : bool) :
  exists p, result (processSingleProduct env w0 product isFirstProduct) = Returned p
            /\ sameIdentity p product.
Proof.
  unfold processSingleProduct.
  destruct (stopSeen env w0 (now w0)).
  - exists product. split; [reflexivity | apply sameIdentity_refl].
  - destruct (attemptLoop_shape w0 product product isFirstProduct 2 (2 + 1) 0 (now w0))
      as (p & Hp & Hid & _).
    exists p. split; assumption.
Qed.

(** X13. A scan of one product sends at most one message, and only for a
    record that it returns as below its target; the message shows that
    record as it was before the engine wrote the notification fields; when
    Telegram accepts it the record is marked as notified at its price and at
    the time of sending, and when it does not the notified fields stay. *)
Theorem scan_sends_at_most_one_message (w0 : World) (product : Product)
    (isFirstProduct : bool) :
  let r := processSingleProduct env w0 product isFirstProduct in
  exists p, result r = Returned p
    /\ (length (sent r) <= 1)%nat
    /\ forall s, In s (sent r) ->
         isBelow p = Some true
         /\ messageProduct (sentMessage s)
            = Some (with_notified (lastNotifiedPrice product) (lastNotifiedDate product) p)
         /\ lastChecked p = Some (toISOString env (sentAt s))
         /\ (if delivered s
             then lastNotifiedPrice p = currentPrice p
                  /\ lastNotifiedDate p = Some (toISOString env (sentAt s))
             else lastNotifiedPrice p
                  = (if Js.truthy_num (lastNotifiedPrice product)
                     then lastNotifiedPrice product else None)
                  /\ lastNotifiedDate p
                     = (if Js.truthy_str (lastNotifiedDate product)
                        then lastNotifiedDate product else None)).
Proof.
  cbv zeta. unfold processSingleProduct.
  destruct (stopSeen env w0 (now w0)).
  - exists product. cbn. split; [reflexivity|]. split; [lia | tauto].
  - destruct (attemptLoop_shape w0 product product isFirstProduct 2 (2 + 1) 0 (now w0))
      as (p & Hp & _ & Hlen & Hmsg).
    exists p. split; [exact Hp|]. split; [exact Hlen | exact Hmsg].
Qed.

End ScanExtras.

(** ** Grouping by platform *)

Section Grouping.
Import JsMap JsMapFacts.

Lemma get_set {V} k k' (v : V) m :
  get k' (set k v m) = if String.eqb k' k then Some v else get k' m.
Proof.
  induction m as [|[k0 v0] m IH]; simpl.
  - reflexivity.
  - destruct (String.eqb_spec k k0) as [->|Hne]; simpl.
    + destruct (String.eqb_spec k' k0); reflexivity.
    + rewrite IH. destruct (String.eqb_spec k' k0) as [->|Hne'].
      * destruct (String.eqb_spec k0 k); [congruence | reflexivity].
      * reflexivity.
Qed.

Lemma groupByPlatform_spec : forall products acc,
  forallb (fun product => negb (inheritedKey (platformOf product))) products = true ->
  List.NoDup (map fst acc) ->
  exists groups,
    groupByPlatform products acc = Returned groups
    /\ List.NoDup (map fst groups)
    /\ forall k,
         get k groups
         = match get k acc, ofPlatform k products with
           | None, [] => None
           | Some l, found => Some (l ++ found)
           | None, found => Some found
           end.
Proof.
  induction products as [|product rest IH]; intros acc Hok Hnd; cbn [groupByPlatform].
  - exists acc. split; [reflexivity|]. split; [exact Hnd|].
    intros k. cbn. destruct (get k acc); [now rewrite app_nil_r | reflexivity].
  - cbn [forallb] in Hok. apply andb_true_iff in Hok as [Hkey Hok].
    apply negb_true_iff in Hkey. fold (platformOf product). rewrite Hkey.
    destruct (IH (set (platformOf product)
                      (match get (platformOf product) acc with
                       | Some l => l | None => [] end ++ [product]) acc)
                 Hok (nodup_keys_set _ _ _ Hnd)) as (groups & Hg & Hnd' & Hget).
    exists groups. split; [exact Hg|]. split; [exact Hnd'|].
    intros k. rewrite Hget, get_set. cbn [ofPlatform].
    rewrite (String.eqb_sym k).
    destruct (String.eqb_spec (platformOf product) k) as [->|Hne].
    + destruct (get k acc) as [l|]; cbn.
      * now rewrite <- app_assoc.
      * reflexivity.
    + destruct (get k acc); reflexivity.
Qed.

(** X14. Grouping by platform is a partition: when no platform name is a
    property that objects inherit, the keys are distinct, and the group of a
    key holds the products of this platform, all of them and in the order
    of the list; no group is empty. *)
Theorem grouping_partitions_products (products : list Product) :
  forallb (fun product => negb (inheritedKey (platformOf product))) products = true ->
  exists groups,
    groupByPlatform products [] = Returned groups
    /\ List.NoDup (map fst groups)
    /\ forall k l, In (k, l) groups <-> l <> [] /\ l = ofPlatform k products.
Proof.
  intros Hok.
  destruct (groupByPlatform_spec products [] Hok) as (groups & Hg & Hnd & Hget);
    [constructor|].
  exists groups. split; [exact Hg|]. split; [exact Hnd|].
  intros k l. split.
  - intros Hin. apply (get_in_nodup _ _ _ Hnd) in Hin. rewrite Hget in Hin. cbn in Hin.
    destruct (ofPlatform k products) eqn:Hf; [discriminate|].
    injection Hin as <-. split; [discriminate | reflexivity].
  - intros [Hne ->]. apply get_some_in. rewrite Hget. cbn.
    destruct (ofPlatform k products); [congruence | reflexivity].
Qed.

(** X15. Grouping throws as soon as a platform name, in lower case, is
    [constructor] or [__proto__]. *)
Theorem grouping_throws_on_inherited_key (products : list Product)
    (acc : list (string * list Product)) :
  forallb (fun product => negb (inheritedKey (platformOf product))) products = false ->
  groupByPlatform products acc
  = Thrown "productsByPlatform[platform].push is not a function".
Proof.
  revert acc. induction products as [|product rest IH]; intros acc Hbad; [discriminate|].
  cbn [groupByPlatform]. fold (platformOf product). cbn [forallb] in Hbad.
  destruct (inheritedKey (platformOf product)); [reflexivity|].
  apply IH. exact Hbad.
Qed.

End Grouping.

(** ** A platform that nobody stops *)

Section Unstopped.
Variable env : Env.
Hypothesis calm : neverStopped env = true.

Lemma handle_keeps_stop arrival r w :
  In (arrival, r) (requests env) ->
  stopRequested (handle env arrival r w) = stopRequested w.
Proof.
  intros Hin. unfold neverStopped in calm. rewrite forallb_forall in calm.
  specialize (calm _ Hin). cbn in calm.
  destruct r as [|on]; [discriminate|].
  unfold handle, POST, setScannerState. cbn.
  destruct (write_fails env arrival STATE_FILE); cbn;
    destruct (on && negb (scanInProgress w)); reflexivity.
Qed.

Lemma elapse_keeps_stop until w : stopRequested (elapse env until w) = stopRequested w.
Proof.
  unfold elapse. cbn [stopRequested with_now].
  unfold arrivals.
  assert (G : forall l w1, (forall r, In r l -> In r (requests env)) ->
            stopRequested (fold_left (fun w r => handle env (fst r) (snd r) w) l w1)
            = stopRequested w1).
  { induction l as [|r l IH]; intros w1 Hl; cbn [fold_left]; [reflexivity|].
    rewrite IH by (intros; apply Hl; now right).
    apply handle_keeps_stop. destruct r. apply Hl. now left. }
  apply G. intros r Hr. apply list_elem_of_In, list_elem_of_filter in Hr as [_ Hr].
  now apply list_elem_of_In.
Qed.

Lemma stopSeen_unstopped w t : stopRequested w = false -> stopSeen env w t = false.
Proof. intros H. unfold stopSeen. now rewrite elapse_keeps_stop. Qed.





Lemma sleep_keeps_stop ms w : stopRequested (fst (sleep env ms w)) = stopRequested w.
Proof. unfold sleep. cbn. apply elapse_keeps_stop. Qed.





End Unstopped.

(** ** The two stores, the empty store, the log and the toggle *)

Section StoreReaders.
Variable env : Env.

Lemma loadProducts_stored platform w :
  snd (loadProducts env platform w) = stored (productFiles w !! getDataFilePath platform)
  /\ forall path,
       stored (productFiles (fst (loadProducts env platform w)) !! path)
       = stored (productFiles w !! path).
Proof.
  pose proof (loadProducts_cases env platform w) as H.
  destruct (productFiles w !! getDataFilePath platform) as [[l|]|] eqn:Hfile;
    try (rewrite H; cbn; split; [reflexivity | reflexivity]).
  rewrite H. destruct (write_fails env (now w) (getDataFilePath platform)); cbn;
    (split; [reflexivity|]); [reflexivity|].
  intros path. destruct (decide (getDataFilePath platform = path)) as [<-|Hne].
  - now rewrite lookup_insert_eq, Hfile.
  - now rewrite lookup_insert_ne.
Qed.

Lemma getAllProducts_stored w :
  snd (getAllProducts env w)
  = concat (map (fun platform => stored (productFiles w !! getDataFilePath platform))
                platforms)
  /\ forall path,
       stored (productFiles (fst (getAllProducts env w)) !! path)
       = stored (productFiles w !! path).
Proof.
  unfold getAllProducts.
  assert (G : forall ps w1 l,
            (forall path, stored (productFiles w1 !! path) = stored (productFiles w !! path)) ->
            let out := fold_left
                         (fun acc platform =>
                            let '(w2, allProducts) := acc in
                            let '(w3, products) := loadProducts env platform w2 in
                            (w3, allProducts ++ products)) ps (w1, l) in
            snd out
            = l ++ concat (map (fun platform =>
                                  stored (productFiles w !! getDataFilePath platform)) ps)
            /\ forall path, stored (productFiles (fst out) !! path)
                            = stored (productFiles w !! path)).
  { induction ps as [|p ps IH]; intros w1 l H1; cbn [fold_left map concat].
    - cbn. rewrite app_nil_r. auto.
    - destruct (loadProducts_stored p w1) as [Hl Hw].
      destruct (loadProducts env p w1) as [w3 products]. cbn [fst snd] in Hl, Hw.
      destruct (IH w3 (l ++ products)) as [Ha Hb].
      + intros path. now rewrite Hw.
      + cbv zeta in Ha, Hb. cbv zeta. split; [|exact Hb].
        rewrite Ha, Hl, H1, <- app_assoc. reflexivity. }
  apply (G platforms w []). reflexivity.
Qed.

(** X17. The two implementations of the store read the same products: what
    [getAllProducts] of the scan route returns is what [getAllProducts] of
    [utils/productStorage] returns, where every product file is missing,
    does not parse or holds an array of products, although the first creates
    the files that are missing and retries. *)
Theorem store_readers_agree (w : World) :
  snd (getAllProducts env w) = ProductStorage.getAllProducts w
  /\ forall platform,
       snd (loadProducts env platform w) = ProductStorage.loadProducts platform w
       /\ ProductStorage.loadProducts platform (fst (loadProducts env platform w))
          = ProductStorage.loadProducts platform w.
Proof.
  split.
  - rewrite (proj1 (getAllProducts_stored w)).
    unfold ProductStorage.getAllProducts, ProductStorage.loadProducts, platforms.
    cbn. rewrite !app_nil_r.
    change ProductStorage.getFilePath with getDataFilePath.
    unfold stored. rewrite <- !app_assoc.
    repeat match goal with
           | |- context [productFiles w !! ?p] =>
               destruct (productFiles w !! p) as [[?|]|]
           end; reflexivity.
  - intros platform. destruct (loadProducts_stored platform w) as [Hl Hw].
    unfold ProductStorage.loadProducts.
    change ProductStorage.getFilePath with getDataFilePath.
    split.
    + rewrite Hl. unfold stored.
      destruct (productFiles w !! getDataFilePath platform) as [[?|]|]; reflexivity.
    + specialize (Hw (getDataFilePath platform)). unfold stored in Hw.
      destruct (productFiles (fst (loadProducts env platform w)) !! getDataFilePath platform)
        as [[?|]|];
        destruct (productFiles w !! getDataFilePath platform) as [[?|]|]; auto.
Qed.

(** X18. [saveProducts] of [utils/productStorage] overwrites: the file holds
    the list it was given and nothing of what it held, so a product that
    was in the file and is not in the list is gone, where the save of the
    scan route would have kept it. *)
Theorem storage_save_overwrites (platform : string) (products : list Product) (w : World) :
  write_fails env (now w) (getDataFilePath platform) = false ->
  let w' := fst (ProductStorage.saveProducts env platform products w) in
  snd (ProductStorage.saveProducts env platform products w) = Returned tt
  /\ loadProducts env platform w' = (w', products)
  /\ ProductStorage.loadProducts platform w' = products
  /\ forall path, path <> getDataFilePath platform ->
                  productFiles w' !! path = productFiles w !! path.
Proof.
  intros Hwrite. unfold ProductStorage.saveProducts.
  change ProductStorage.getFilePath with getDataFilePath. rewrite Hwrite. cbn [fst snd].
  split; [reflexivity|].
  set (w' := with_productFiles _ w).
  assert (Hfile : productFiles w' !! getDataFilePath platform = Some (ProductsJson products))
    by apply lookup_insert_eq.
  split.
  { pose proof (loadProducts_cases env platform w') as H. now rewrite Hfile in H. }
  split.
  { unfold ProductStorage.loadProducts.
    change ProductStorage.getFilePath with getDataFilePath. now rewrite Hfile. }
  intros path Hne. unfold w'. cbn. now rewrite lookup_insert_ne.
Qed.

Lemma emptyStore_products w : emptyStore w = true -> snd (getAllProducts env w) = [].
Proof.
  intros H. rewrite (proj1 (getAllProducts_stored w)).
  unfold emptyStore in H. rewrite forallb_forall in H.
  induction platforms as [|p ps IH]; [reflexivity|].
  cbn [map concat]. rewrite IH by (intros; apply H; now right).
  specialize (H p (or_introl eq_refl)).
  destruct (stored _); [reflexivity | discriminate].
Qed.

Lemma scanBody_empty scanId isContinuousScan w :
  emptyStore w = true ->
  exists w',
    scanBody env scanId isContinuousScan w
    = (w', Returned (NoProductsToScan isContinuousScan))
    /\ outbox w' = outbox w /\ now w' = now w
    /\ scanInProgress w' = false /\ stopRequested w' = stopRequested w
    /\ emptyStore w' = true
    /\ timers w' = timers w ++ followUp isContinuousScan w'.
Proof.
  intros Hempty. unfold scanBody. unfold bind at 1. unfold read at 1. unfold bind at 1.
  pose proof (getAllProducts_quiet env w) as Q2.
  pose proof (emptyStore_products w Hempty) as Hnone.
  pose proof (proj2 (getAllProducts_stored w)) as Hkept.
  destruct (getAllProducts env w) as [w3 products]. cbn [fst snd] in *. subst products.
  cbn [isEmpty].
  destruct (noProducts_spec env scanId isContinuousScan w3)
    as (w4 & Hrun & Hp4 & Hs4 & Ht4 & _).
  exists w4. split; [exact Hrun|].
  assert (Q4 : outbox w4 = outbox w3 /\ now w4 = now w3
               /\ productFiles w4 = productFiles w3).
  { revert Hrun. unfold noProducts, bind, read, update, ret, scheduleFollowUp, logScanActivity.
    destruct (write_fails env (now w3) LOG_FILE); destruct isContinuousScan;
      intros [= <-]; cbn; auto. }
  destruct Q4 as (Ho4 & Hn4 & Hf4).
  split; [rewrite Ho4; apply Q2|].
  split; [rewrite Hn4; apply Q2|].
  split; [exact Hp4|].
  split; [rewrite Hs4; apply Q2|].
  split.
  { unfold emptyStore. rewrite Hf4. unfold emptyStore in Hempty.
    rewrite forallb_forall in *. intros p Hp. rewrite Hkept. now apply Hempty. }
  rewrite Ht4, (quiet_timers _ _ Q2). reflexivity.
Qed.

(** X19. A scan of a store without products answers at once that there is
    nothing to scan: nothing is sent, the clock does not move, the scan is
    no longer in progress, the stop flag is as it was, still no file holds
    a product, and the follow-up timer is set when continuous mode is on. *)
Theorem scan_of_an_empty_store (w : World) :
  scanInProgress w = false ->
  emptyStore w = true ->
  let w' := fst (GET env w) in
  snd (GET env w) = NoProductsToScan (capturedContinuous env w)
  /\ outbox w' = outbox w
  /\ now w' = now w
  /\ scanInProgress w' = false
  /\ stopRequested w' = stopRequested w
  /\ emptyStore w' = true
  /\ timers w' = timers w ++ followUp (capturedContinuous env w) w'.
Proof.
  intros Hprogress Hempty. unfold GET, capturedContinuous. rewrite Hprogress.
  pose proof (getScannerState_quiet env w) as Q1.
  assert (Hfiles1 : productFiles (fst (getScannerState env w)) = productFiles w).
  { unfold getScannerState. destruct (scannerStateFile w); [reflexivity|].
    destruct (write_fails env (now w) STATE_FILE); reflexivity. }
  destruct (getScannerState env w) as [w1 st]. cbn [fst snd] in *.
  set (w2 := with_scanInProgress true w1).
  assert (Hempty2 : emptyStore w2 = true).
  { unfold emptyStore, w2. cbn [productFiles with_scanInProgress]. rewrite Hfiles1.
    exact Hempty. }
  destruct (scanBody_empty (generateScanId env (now w1)) (isScanning st) w2 Hempty2)
    as (w4 & -> & Ho & Hn & Hp & Hs & He & Ht).
  cbn [fst snd]. cbn in Ho, Hn, Hs, Ht.
  split; [reflexivity|].
  split; [rewrite Ho; apply Q1|].
  split; [rewrite Hn; apply Q1|].
  split; [exact Hp|].
  split; [rewrite Hs; apply Q1|].
  split; [exact He|].
  rewrite Ht. now rewrite (quiet_timers _ _ Q1).
Qed.

(** X20. The log keeps the last entries only: after an entry is written the
    log holds at most 50 entries, the new one is the last, and the others
    are the 49 newest of the old log, in their order. *)
Theorem log_keeps_the_last_50 (entry : LogEntry) (w : World) :
  write_fails env (now w) LOG_FILE = false ->
  let log' := scanLog (logScanActivity env entry w) in
  (length log' <= 50)%nat
  /\ exists dropped kept,
       scanLog w = dropped ++ kept
       /\ log' = kept ++ [entry]
       /\ length dropped = (length (scanLog w) - 49)%nat.
Proof.
  intros Hwrite. unfold logScanActivity, slice_last. rewrite Hwrite. cbn [scanLog with_scanLog].
  split.
  - rewrite length_app, length_skipn. cbn. lia.
  - exists (firstn (length (scanLog w) - 49) (scanLog w)),
           (skipn (length (scanLog w) - 49) (scanLog w)).
    split; [symmetry; apply firstn_skipn|]. split; [reflexivity|].
    rewrite length_firstn. lia.
Qed.

(** X21. The toggle decides what a follow-up timer does: once continuous
    mode is switched on or off and the state file is written, a follow-up
    that fires requests a scan if and only if the mode is on; switching on
    while no scan runs sets the timer of a first scan, and switching off
    sets no timer. *)
Theorem toggle_decides_follow_up (on : bool) (w : World) :
  write_fails env (now w) STATE_FILE = false ->
  let w' := POST env on w in
  snd (fire env FollowUpIfContinuous w') = on
  /\ fst (fire env FollowUpIfContinuous w') = w'
  /\ timers w' = timers w ++ (if on && negb (scanInProgress w)
                              then [(now w + 1000, TriggerScan)] else [])
  /\ stopRequested w' = stopRequested w
  /\ scanInProgress w' = scanInProgress w.
Proof.
  intros Hwrite. unfold POST, setScannerState, fire, getScannerState. rewrite Hwrite.
  cbn [scanInProgress with_scannerStateFile].
  destruct (on && negb (scanInProgress w)); cbn; rewrite ?app_nil_r; repeat split; reflexivity.
Qed.

End StoreReaders.

(** ** A healthy scan *)

Section Healthy.
Variable env : Env.
Hypothesis calm : neverStopped env = true.
Hypothesis disk : forall t path, write_fails env t path = false.












End Healthy.

(** ** More scenarios *)

Section MoreScenarios.
Import Scenario Cases.

Lemma scanned_records_are_written_witness :
  In shirtScanned (mergeProducts [shirt; socks] [shirtScanned]).
Proof.
  apply (scanned_records_are_written [shirt; socks] [shirtScanned] shirtScanned).
  - constructor; [simpl; tauto | constructor].
  - simpl. left. reflexivity.
Defined.

Lemma save_releases_its_lock_witness :
  let w := scanning shirtOnDisk in
  let w' := fst (saveProducts calm "myntra" [shirtScanned] w) in
  locked "file_myntra" w' = false
  /\ now w' = now w
  /\ (forall reason, snd (saveProducts calm "myntra" [shirtScanned] w) = Thrown reason ->
        productFiles w' = productFiles w).
Proof.
  apply (save_releases_its_lock calm "myntra" [shirtScanned] (scanning shirtOnDisk)).
  reflexivity.
Defined.

Lemma save_gives_up_on_a_held_lock_witness :
  let w' := fst (saveProducts calm "myntra" [shirtScanned] lockHeld) in
  snd (saveProducts calm "myntra" [shirtScanned] lockHeld) = Returned false
  /\ now w' = now lockHeld + 10000
  /\ productFiles w' = productFiles lockHeld
  /\ locked "file_myntra" w' = true.
Proof.
  apply (save_gives_up_on_a_held_lock calm "myntra" [shirtScanned] lockHeld).
  reflexivity.
Defined.

Lemma save_then_load_witness :
  let w' := fst (saveProducts calm "myntra" [shirtScanned; socks] (scanning ∅)) in
  snd (saveProducts calm "myntra" [shirtScanned; socks] (scanning ∅)) = Returned true
  /\ loadProducts calm "myntra" w' = (w', [shirtScanned; socks]).
Proof.
  apply (save_then_load calm "myntra" [shirtScanned; socks] (scanning ∅)).
  - reflexivity.
  - left. reflexivity.
  - reflexivity.
  - constructor; [simpl; intros [H|[]]; discriminate|].
    constructor; [simpl; tauto | constructor].
Defined.

(** The scarf is older than the threshold and the filter rejects it, and it
    is still in the file after the retention pass. *)
Lemma cleanup_removes_nothing_witness :
  let w := scanning {[ myntraFile := ProductsJson [stale] ]} in
  isActive calm t0 stale = false
  /\ productFiles (fst (cleanupOldProducts calm w)) !! myntraFile
     = Some (ProductsJson [stale]).
Proof.
  split; [vm_compute; reflexivity|].
  apply (cleanup_removes_nothing calm (scanning {[ myntraFile := ProductsJson [stale] ]})
           myntraFile [stale]).
  - apply scanning_locks_free.
  - reflexivity.
  - constructor; [simpl; tauto | constructor].
Defined.

Lemma below_target_not_notified_today_witness :
  let t2 := t0 + 300 in
  let updated := applyScrape calm t2 shirt shirtData in
  let r := attemptLoop calm 3 0 2 (scanning shirtOnDisk) shirt shirt true t0 in
  isBelow updated = Some true
  /\ match newDayMessage updated shirt with
     | Some message =>
         let ok := snd (telegram calm t2 message) in
         sent r = [mkSent t2 message ok]
         /\ result r = Returned (if ok then with_notified (Some 950%float)
                                                          (Some (toISOString calm t2)) updated
                                 else keptNotified updated)
     | None => sent r = [] /\ result r = Returned (keptNotified updated)
     end.
Proof.
  apply (below_target_not_notified_today calm (scanning shirtOnDisk) 2 0 2 shirt shirt
           true t0 300 shirtData 950%float).
  - vm_compute. reflexivity.
  - reflexivity.
  - discriminate.
  - reflexivity.
  - reflexivity.
  - reflexivity.
  - left. reflexivity.
Defined.

Lemma above_target_clears_notification_witness :
  let env := server (finds (watchAt 130)) true [] in
  let r := attemptLoop env 3 0 2 (scanning ∅) (watch 100) (watch 100) true t0 in
  sent r = []
  /\ result r = Returned (with_notified None None
                            (applyScrape env (t0 + 300) (watch 100) (watchAt 130)))
  /\ isBelow (applyScrape env (t0 + 300) (watch 100) (watchAt 130)) = Some false.
Proof.
  apply (above_target_clears_notification (server (finds (watchAt 130)) true [])
           (scanning ∅) 2 0 2 (watch 100) (watch 100) true t0 300 (watchAt 130) 130%float).
  - vm_compute. reflexivity.
  - reflexivity.
  - discriminate.
  - reflexivity.
  - reflexivity.
  - reflexivity.
  - reflexivity.
Defined.

Lemma reading_without_price_witness :
  let env := server (finds unpriced) true [] in
  let r := attemptLoop env 3 0 2 (scanning shirtOnDisk) shirt shirt true t0 in
  let recorded := applyScrape env (t0 + 300) shirt unpriced in
  result r = Returned (if isAmazon shirt then shirt else recorded)
  /\ finishedAt r = t0 + 300 /\ sent r = []
  /\ isBelow recorded = Some false
  /\ lastNotifiedPrice recorded = lastNotifiedPrice shirt
  /\ lastNotifiedDate recorded = lastNotifiedDate shirt.
Proof.
  apply (reading_without_price (server (finds unpriced) true []) (scanning shirtOnDisk)
           2 0 2 shirt shirt true t0 300 unpriced).
  - vm_compute. reflexivity.
  - reflexivity.
  - reflexivity.
Defined.

Lemma grouping_partitions_products_witness :
  exists groups,
    groupByPlatform [shirt; watch 100; socks] [] = Returned groups
    /\ List.NoDup (map fst groups)
    /\ forall k l, In (k, l) groups
                   <-> l <> [] /\ l = ofPlatform k [shirt; watch 100; socks].
Proof.
  apply (grouping_partitions_products [shirt; watch 100; socks]).
  reflexivity.
Defined.

Lemma grouping_throws_on_inherited_key_witness :
  groupByPlatform [shirt; odd; socks] []
  = Thrown "productsByPlatform[platform].push is not a function".
Proof.
  apply (grouping_throws_on_inherited_key [shirt; odd; socks] []).
  reflexivity.
Defined.


Lemma storage_save_overwrites_witness :
  let w := scanning shirtOnDisk in
  let w' := fst (ProductStorage.saveProducts calm "myntra" [socks] w) in
  snd (ProductStorage.saveProducts calm "myntra" [socks] w) = Returned tt
  /\ loadProducts calm "myntra" w' = (w', [socks])
  /\ ProductStorage.loadProducts "myntra" w' = [socks]
  /\ forall path, path <> getDataFilePath "myntra" ->
                  productFiles w' !! path = productFiles w !! path.
Proof.
  apply (storage_save_overwrites calm "myntra" [socks] (scanning shirtOnDisk)).
  reflexivity.
Defined.

Lemma scan_of_an_empty_store_witness :
  let w := boot ∅ scanningOn t0 in
  let w' := fst (GET calm w) in
  snd (GET calm w) = NoProductsToScan (capturedContinuous calm w)
  /\ outbox w' = outbox w
  /\ now w' = now w
  /\ scanInProgress w' = false
  /\ stopRequested w' = stopRequested w
  /\ emptyStore w' = true
  /\ timers w' = timers w ++ followUp (capturedContinuous calm w) w'.
Proof.
  apply (scan_of_an_empty_store calm (boot ∅ scanningOn t0)).
  - reflexivity.
  - reflexivity.
Defined.

Lemma log_keeps_the_last_50_witness :
  let w := boot ∅ scanningOff t0 in
  let log' := scanLog (logScanActivity calm entry w) in
  (length log' <= 50)%nat
  /\ exists dropped kept,
       scanLog w = dropped ++ kept
       /\ log' = kept ++ [entry]
       /\ length dropped = (length (scanLog w) - 49)%nat.
Proof.
  apply (log_keeps_the_last_50 calm entry (boot ∅ scanningOff t0)).
  reflexivity.
Defined.

Lemma toggle_decides_follow_up_witness :
  let w := boot ∅ scanningOff t0 in
  let w' := POST calm true w in
  snd (fire calm FollowUpIfContinuous w') = true
  /\ fst (fire calm FollowUpIfContinuous w') = w'
  /\ timers w' = timers w ++ (if true && negb (scanInProgress w)
                              then [(now w + 1000, TriggerScan)] else [])
  /\ stopRequested w' = stopRequested w
  /\ scanInProgress w' = scanInProgress w.
Proof.
  apply (toggle_decides_follow_up calm true (boot ∅ scanningOff t0)).
  reflexivity.
Defined.


End MoreScenarios.
